(** * asyncoro: the distributed coroutine transport (disasyncoro3.py)

    A shallow embedding of the transport layer of asyncoro: the request
    envelope [_NetRequest], the per-peer drain worker [_Peer.req_proc], and
    the inbound dispatcher [AsynCoro._tcp_task] with its handshake and
    file-transfer handlers, followed by the properties of the
    specification that are settled against them.

    Conventions of the embedding.
    - Python objects that are mutated through aliases (pending requests,
      events) live in a store and are referred to by address.
    - Dictionaries are [gmap]s; [_Peer.peers] is keyed by [(addr, port)].
    - Socket and file operations are effects: what the code sends is
      recorded in a trace, what the environment answers is an explicit
      input of the step ([tcp_env], [proc_env], [peer_env]).
    - An exception that no handler of the source catches ends the task; it
      is the status [Crashed]. Assertions are executed (Python runs without
      [-O]).
    - Time stamps ([st_mtime], [st_atime]) are Python floats; they are
      idealised as rationals.
    - A generator of the local side ([locate], [del_file], [_sync_reply],
      [_async_reply]) is a [coroutine]: a value that has returned, or
      that is suspended at a [yield] with its continuation. It is run on
      a [schedule], which says what the rest of the system did while it
      was suspended. *)

From Stdlib Require Import ZArith QArith Qabs String Ascii.
From stdpp Require Import gmap strings list fin_maps.

Open Scope string_scope.
Open Scope Z_scope.

(** ** Python values *)

(** [Location] of asyncoro3: equality is by both fields. *)
Record Location := mkLocation { addr : string; port : Z }.

#[global] Instance Location_eq_dec : EqDecision Location.
Proof. solve_decision. Defined.

(** The fields of [os.stat_result] the transport reads. *)
Record stat_result := mkStat {
  st_mode : Z;
  st_size : Z;
  st_atime : Q;
  st_mtime : Q
}.

#[global] Instance Q_eq_dec : EqDecision Q.
Proof. solve_decision. Defined.

#[global] Instance stat_result_eq_dec : EqDecision stat_result.
Proof. solve_decision. Defined.

(** The values that travel in [kwargs] and in replies. *)
Inductive value :=
| VNone
| VBool (b : bool)
| VInt (z : Z)
| VStr (s : string)
| VBytes (s : string)
| VLoc (l : Location)
| VStat (s : stat_result)
| VHandle (kind ident : string) (l : Location)
| VExc (msg : string).

#[global] Instance value_eq_dec : EqDecision value.
Proof. solve_decision. Defined.

(** Python truthiness, as used by [if x:] and [not x]. *)
Definition truthy (v : value) : bool :=
  match v with
  | VNone => false
  | VBool b => b
  | VInt z => negb (z =? 0)
  | VStr s | VBytes s => negb (String.eqb s "")
  | VLoc _ | VStat _ | VHandle _ _ _ | VExc _ => true
  end.

(** What is taken from Python's library as given:
    [hashlib.sha1(data).hexdigest()], and [int(text)] on a string or on
    bytes ([None]: a [ValueError]). Strings are sequences of code points
    below 256. *)
Class Library := {
  sha1_hexdigest : string -> string;
  int_of_text : string -> option Z
}.

(** [int(x)]; [None] is an exception. *)
Definition py_int `{!Library} (v : value) : option Z :=
  match v with
  | VInt z => Some z
  | VBool b => Some (if b then 1 else 0)
  | VStr s | VBytes s => int_of_text s
  | _ => None
  end.

(** [str.isspace] on one code point. *)
Definition is_space (c : ascii) : bool :=
  let n := nat_of_ascii c in
  ((9 <=? n) && (n <=? 13) || (28 <=? n) && (n <=? 32) || (n =? 133) || (n =? 160))%nat.

(** [s.lstrip()], [s.rstrip()] and [s.strip()] *)
Fixpoint lstrip (s : string) : string :=
  match s with
  | EmptyString => EmptyString
  | String c s' => if is_space c then lstrip s' else s
  end.

Fixpoint rstrip (s : string) : string :=
  match s with
  | EmptyString => EmptyString
  | String c s' =>
      let r := rstrip s' in
      if String.eqb r "" && is_space c then EmptyString else String c r
  end.

Definition strip (s : string) : string := rstrip (lstrip s).

(** [bytes(s, 'ascii')] succeeds only on code points below 128. *)
Definition is_ascii (s : string) : bool :=
  forallb (fun c => (nat_of_ascii c <? 128)%nat) (list_ascii_of_string s).

(** ** posixpath *)

(** The functions of Python's [posixpath] that the file-transfer handlers
    call, written after the library's definitions. *)
Module posixpath.

Definition sep : string := "/".

Definition is_sep (c : ascii) : bool := Ascii.eqb c "/"%char.

(** [s.startswith(pre)] *)
Definition startswith (s pre : string) : bool := String.prefix pre s.

(** [s.endswith('/')] *)
Fixpoint endswith_sep (s : string) : bool :=
  match s with
  | EmptyString => false
  | String c EmptyString => is_sep c
  | String _ s' => endswith_sep s'
  end.

(** [s.rstrip('/')] *)
Fixpoint rstrip_sep (s : string) : string :=
  match s with
  | EmptyString => EmptyString
  | String c s' =>
      let r := rstrip_sep s' in
      if String.eqb r "" && is_sep c then EmptyString else String c r
  end.

(** [s.split('/')] *)
Fixpoint split (s : string) : list string :=
  match s with
  | EmptyString => [EmptyString]
  | String c s' =>
      if is_sep c then EmptyString :: split s'
      else match split s' with
           | h :: t => String c h :: t
           | [] => [String c EmptyString]
           end
  end.

(** ['/'.join(comps)] *)
Fixpoint join_sep (comps : list string) : string :=
  match comps with
  | [] => ""
  | [c] => c
  | c :: rest => c ++ sep ++ join_sep rest
  end.

(** [(p[:i], p[i:])] for [i = p.rfind('/') + 1]. *)
Fixpoint split_last (p : string) : string * string :=
  match p with
  | EmptyString => (EmptyString, EmptyString)
  | String c p' =>
      let '(h, t) := split_last p' in
      if negb (String.eqb h "") then (String c h, t)
      else if is_sep c then (sep, t)
      else (EmptyString, String c t)
  end.

Definition basename (p : string) : string := snd (split_last p).

Definition dirname (p : string) : string :=
  let head := fst (split_last p) in
  if negb (String.eqb head "") && negb (String.eqb (rstrip_sep head) "")
  then rstrip_sep head else head.

Definition isabs (p : string) : bool := startswith p sep.

(** One round of the loop of [join(a, *p)]. *)
Definition join2 (path b : string) : string :=
  if startswith b sep then b
  else if String.eqb path "" || endswith_sep path then path ++ b
  else path ++ sep ++ b.

Definition join (a : string) (p : list string) : string := foldl join2 a p.

(** The loop of [normpath] over the components; [new_comps] is kept
    reversed (its head is [new_comps[-1]]). *)
Fixpoint norm_comps (initial_slashes : bool) (new_comps comps : list string)
  : list string :=
  match comps with
  | [] => rev new_comps
  | comp :: rest =>
      if String.eqb comp "" || String.eqb comp "." then
        norm_comps initial_slashes new_comps rest
      else if negb (String.eqb comp "..")
              || (negb initial_slashes && bool_decide (new_comps = []))
              || match new_comps with
                 | last :: _ => String.eqb last ".."
                 | [] => false
                 end
      then norm_comps initial_slashes (comp :: new_comps) rest
      else norm_comps initial_slashes (tail new_comps) rest
  end.

Definition normpath (path : string) : string :=
  if String.eqb path "" then "."
  else
    let initial_slashes : nat :=
      if startswith path sep then
        if startswith path "//" && negb (startswith path "///")
        then 2%nat else 1%nat
      else 0%nat in
    let comps := norm_comps (negb (Nat.eqb initial_slashes 0)) [] (split path) in
    let path' := join_sep comps in
    let path'' :=
      match initial_slashes with
      | 0%nat => path'
      | 1%nat => sep ++ path'
      | _ => "//" ++ path'
      end in
    if String.eqb path'' "" then "." else path''.

(** [abspath], with the working directory made explicit. *)
Definition abspath (cwd path : string) : string :=
  normpath (if isabs path then path else join cwd [path]).

End posixpath.

(** ** The file system *)

(** The calls of [os], [os.path] and [stat] that the receiver makes, over a
    file system without symbolic links: regular files and directories keyed
    by their canonical absolute path. *)
Module os.

(** [st_mode] is kept whole (file type and permission bits). *)
Record file := mkFile {
  f_mode : Z;
  f_atime : Q;
  f_mtime : Q;
  f_data : string
}.

Record filesystem := mkFS {
  fs_files : gmap string file;
  fs_dirs : gset string;
  fs_cwd : string;
  fs_umask : Z
}.

Definition S_IFREG : Z := 32768.   (* 0o100000 *)
Definition S_IREAD : Z := 256.     (* 0o400 *)

(** [stat.S_IMODE] *)
Definition S_IMODE (mode : Z) : Z := Z.land mode 4095.   (* 0o7777 *)

(** [stat.S_ISREG] *)
Definition S_ISREG (mode : Z) : bool := Z.land mode 61440 =? S_IFREG.  (* 0o170000 *)

Definition with_files (fs : filesystem) (files : gmap string file) : filesystem :=
  mkFS files (fs_dirs fs) (fs_cwd fs) (fs_umask fs).

Definition with_dirs (fs : filesystem) (dirs : gset string) : filesystem :=
  mkFS (fs_files fs) dirs (fs_cwd fs) (fs_umask fs).

(** The canonical path of a stack of components (innermost first). *)
Definition path_of (stack : list string) : string :=
  posixpath.sep ++ posixpath.join_sep (rev stack).

(** The components of a canonical path. *)
Definition comps_of (p : string) : list string :=
  filter (fun c => c <> "") (posixpath.split p).

Definition is_dir_at (fs : filesystem) (p : string) : bool :=
  String.eqb p "/" || bool_decide (p ∈ fs_dirs fs).

Definition is_file_at (fs : filesystem) (p : string) : bool :=
  bool_decide (is_Some (fs_files fs !! p)).

(** Path resolution as the kernel does it: every component that is
    followed must be looked up in a directory; [..] goes to the parent. *)
Fixpoint walk (fs : filesystem) (stack comps : list string) : option (list string) :=
  match comps with
  | [] => Some stack
  | c :: rest =>
      if negb (is_dir_at fs (path_of stack)) then None
      else if String.eqb c "" || String.eqb c "." then walk fs stack rest
      else if String.eqb c ".." then walk fs (tail stack) rest
      else walk fs (c :: stack) rest
  end.

Definition resolve (fs : filesystem) (p : string) : option string :=
  if String.eqb p "" then None
  else
    path_of <$> walk fs (if posixpath.isabs p then [] else rev (comps_of (fs_cwd fs)))
                     (posixpath.split p).

(** [os.path.isfile] *)
Definition isfile (fs : filesystem) (p : string) : bool :=
  match resolve fs p with
  | Some q => is_file_at fs q
  | None => false
  end.

(** [os.path.isdir] *)
Definition isdir (fs : filesystem) (p : string) : bool :=
  match resolve fs p with
  | Some q => is_dir_at fs q
  | None => false
  end.

Definition stat_of (f : file) : stat_result :=
  mkStat (f_mode f) (Z.of_nat (String.length (f_data f))) (f_atime f) (f_mtime f).

(** [os.stat] of a regular file; [None] is an [OSError]. *)
Definition stat (fs : filesystem) (p : string) : option stat_result :=
  q ← resolve fs p; f ← fs_files fs !! q; Some (stat_of f).

(** [os.remove]; [None] is an [OSError]. *)
Definition remove (fs : filesystem) (p : string) : option filesystem :=
  q ← resolve fs p;
  if is_file_at fs q then Some (with_files fs (delete q (fs_files fs))) else None.

(** No file and no directory lies directly in [q]. *)
Definition dir_empty (fs : filesystem) (q : string) : bool :=
  bool_decide (set_Forall (fun k => posixpath.dirname k <> q)
                          (dom (fs_files fs) ∪ fs_dirs fs)).

(** [os.rmdir]; [None] is an [OSError] (also for the root and for a path
    that ends in [.] or [..]). *)
Definition rmdir (fs : filesystem) (p : string) : option filesystem :=
  q ← resolve fs p;
  let last := posixpath.basename (posixpath.rstrip_sep p) in
  if String.eqb last "." || String.eqb last ".." || String.eqb q "/" then None
  else if bool_decide (q ∈ fs_dirs fs) && dir_empty fs q
  then Some (with_dirs fs (fs_dirs fs ∖ {[q]}))
  else None.

(** The directories [os.makedirs] creates along a chain of components. *)
Fixpoint mkdir_chain (fs : filesystem) (dirs : gset string)
         (stack comps : list string) : option (gset string) :=
  match comps with
  | [] => Some dirs
  | c :: rest =>
      let p := path_of (c :: stack) in
      if is_file_at fs p then None
      else mkdir_chain fs ({[p]} ∪ dirs) (c :: stack) rest
  end.

(** [os.makedirs(name)] for a canonical absolute [name], which is how the
    receiver calls it; [None] is an [OSError] (a component is a regular
    file, or [name] exists already). *)
Definition makedirs (fs : filesystem) (name : string) : option filesystem :=
  if is_dir_at fs name then None
  else with_dirs fs <$> mkdir_chain fs (fs_dirs fs) [] (comps_of name).

(** [open(p, 'wb')]: creates or truncates; returns the canonical path the
    descriptor refers to. [None] is an [OSError]. *)
Definition open_wb (fs : filesystem) (now : Q) (p : string)
  : option (string * filesystem) :=
  q ← resolve fs p;
  if is_dir_at fs q then None
  else
    let f := match fs_files fs !! q with
             | Some old => mkFile (f_mode old) (f_atime old) now ""
             | None => mkFile (Z.lor S_IFREG (Z.land 438 (Z.lnot (fs_umask fs))))
                              now now ""
             end in
    Some (q, with_files fs (<[q := f]> (fs_files fs))).

(** [fd.write(data)] on a descriptor opened at [q]. *)
Definition write (fs : filesystem) (q data : string) : filesystem :=
  with_files fs (alter (fun f => mkFile (f_mode f) (f_atime f) (f_mtime f)
                                        (f_data f ++ data)) q (fs_files fs)).

(** [os.utime(p, (atime, mtime))] *)
Definition utime (fs : filesystem) (p : string) (atime mtime : Q) : option filesystem :=
  q ← resolve fs p;
  if is_file_at fs q
  then Some (with_files fs (alter (fun f => mkFile (f_mode f) atime mtime (f_data f))
                                  q (fs_files fs)))
  else None.

(** [os.chmod(p, mode)] *)
Definition chmod (fs : filesystem) (p : string) (mode : Z) : option filesystem :=
  q ← resolve fs p;
  if is_file_at fs q
  then Some (with_files fs
               (alter (fun f => mkFile (Z.lor (Z.land (f_mode f) (Z.lnot 4095))
                                              (Z.land mode 4095))
                                       (f_atime f) (f_mtime f) (f_data f))
                      q (fs_files fs)))
  else None.

End os.

Open Scope list_scope.

(** ** _NetRequest *)

(** The request envelope. [event] is the address of the [Event] object in
    the store (slot unset: [None]); [id] is the correlator, [id(req)] of
    the sender's object when set. *)
Record _NetRequest := mkReq {
  name : string;
  kwargs : gmap string value;
  src : option Location;
  dst : option Location;
  auth : option string;
  event : option Z;
  id : option Z;
  reply : value;
  timeout : option Q
}.

(** [_NetRequest(name, kwargs, src, dst, auth, timeout)], the constructor. *)
Definition NetRequest (name : string) (kwargs : gmap string value)
           (src dst : option Location) (auth : option string)
           (timeout : option Q) : _NetRequest :=
  mkReq name kwargs src dst auth None None VNone timeout.

Definition set_auth (r : _NetRequest) (a : option string) : _NetRequest :=
  mkReq (name r) (kwargs r) (src r) (dst r) a (event r) (id r) (reply r) (timeout r).

Definition set_reply (r : _NetRequest) (v : value) : _NetRequest :=
  mkReq (name r) (kwargs r) (src r) (dst r) (auth r) (event r) (id r) v (timeout r).

Definition set_event (r : _NetRequest) (e : option Z) : _NetRequest :=
  mkReq (name r) (kwargs r) (src r) (dst r) (auth r) e (id r) (reply r) (timeout r).

(** [kwargs.get(k, None)] *)
Definition kwargs_get (r : _NetRequest) (k : string) : value :=
  default VNone (kwargs r !! k).

(** The attribute values of a request object, one shape per slot. *)
Inductive attr :=
| AStr (s : string)
| ADict (d : gmap string value)
| ALoc (l : option Location)
| AAuth (a : option string)
| ARef (e : option Z)
| AValue (v : value)
| ANum (t : option Q).

(** [_NetRequest.__slots__] *)
Definition __slots__ : list string :=
  ["name"; "kwargs"; "src"; "dst"; "auth"; "event"; "id"; "reply"; "timeout"].

(** The fields that the specification enumerates for the envelope. *)
Definition envelope_fields : list string :=
  ["name"; "kwargs"; "src"; "dst"; "auth"; "id"; "reply"; "timeout"].

(** An instance seen as its slots; a slot that was never assigned is
    absent. *)
Definition attrs_of (r : _NetRequest) : gmap string attr :=
  {[ "name" := AStr (name r); "kwargs" := ADict (kwargs r);
     "src" := ALoc (src r); "dst" := ALoc (dst r); "auth" := AAuth (auth r);
     "event" := ARef (event r); "id" := ARef (id r);
     "reply" := AValue (reply r); "timeout" := ANum (timeout r) ]}.

(** [__getstate__]: the dictionary literal, in its order. *)
Definition __getstate__ (self : _NetRequest) : list (string * attr) :=
  [ ("name", AStr (name self)); ("kwargs", ADict (kwargs self));
    ("src", ALoc (src self)); ("dst", ALoc (dst self));
    ("auth", AAuth (auth self)); ("id", ARef (id self));
    ("reply", AValue (reply self)); ("timeout", ANum (timeout self)) ].

(** [setattr] on a class with [__slots__]: an unknown name is an
    [AttributeError] ([None]). *)
Definition setattr (self : gmap string attr) (k : string) (v : attr)
  : option (gmap string attr) :=
  if bool_decide (k ∈ __slots__) then Some (<[k := v]> self) else None.

(** [__setstate__]: [for k, v in state.items(): setattr(self, k, v)]. *)
Definition __setstate__ (self : gmap string attr) (state : list (string * attr))
  : option (gmap string attr) :=
  foldl (fun acc kv => o ← acc; setattr o kv.1 kv.2) (Some self) state.

(** Reading the envelope back from the slots of a received object; the
    [event] slot of such an object was never assigned. *)
Definition request_of_attrs (o : gmap string attr) : option _NetRequest :=
  match o !! "name", o !! "kwargs", o !! "src", o !! "dst",
        o !! "auth", o !! "id", o !! "reply", o !! "timeout" with
  | Some (AStr n), Some (ADict k), Some (ALoc s), Some (ALoc d),
    Some (AAuth a), Some (ARef i), Some (AValue r), Some (ANum t) =>
      Some (mkReq n k s d a
                  (match o !! "event" with Some (ARef e) => e | _ => None end)
                  i r t)
  | _, _, _, _, _, _, _, _ => None
  end.

(** The serialiser is external ([pickle]): it writes the state dictionary
    of an object and, on reading, builds a fresh object (no [__init__]) and
    hands the dictionary to [__setstate__]. *)
Class Serialiser (wire : Type) := {
  dumps : list (string * attr) -> wire;
  loads : wire -> option (list (string * attr))
}.

Definition serialize `{Serialiser wire} (req : _NetRequest) : wire :=
  dumps (__getstate__ req).

Definition unserialize `{Serialiser wire} (msg : wire) : option _NetRequest :=
  state ← loads msg; o ← __setstate__ ∅ state; request_of_attrs o.

(** What the receiver gets for a request the sender serialised. *)
Definition on_wire (r : _NetRequest) : _NetRequest := set_event r None.

(** ** The object store *)

(** Requests that are awaited are shared between the coroutine that waits,
    the queue of the peer and [_requests]; [Event]s are shared likewise. *)
Record Store := mkStore {
  heap : gmap Z _NetRequest;
  events : gmap Z bool
}.

(** [Event.set()] *)
Definition event_set (σ : Store) (e : Z) : Store :=
  mkStore (heap σ) (<[e := true]> (events σ)).

(** [if req.event: req.event.set()] *)
Definition signal (σ : Store) (e : option Z) : Store :=
  match e with Some e => event_set σ e | None => σ end.

(** An assignment to a field of the object at [a]. *)
Definition update (σ : Store) (a : Z) (f : _NetRequest -> _NetRequest) : Store :=
  mkStore (alter f a (heap σ)) (events σ).

(** A new request object. *)
Definition alloc (σ : Store) (r : _NetRequest) : Z * Store :=
  let a := fresh (dom (heap σ)) in (a, mkStore (<[a := r]> (heap σ)) (events σ)).

(** ** _Peer and its drain worker *)

(** An open [AsyncSocket]; only the timeout that was set is kept. *)
Record AsyncSocket := mkSocket { sock_timeout : option Q }.

(** Per-remote state. [reqs] holds the addresses of the queued request
    objects; [conn] is the open connection or [None]. The field [auth] of
    the source is [peer_auth] here ([auth] is the envelope's). *)
Record _Peer := mkPeer {
  location : Location;
  peer_auth : option string;
  keyfile : option string;
  certfile : option string;
  stream : bool;
  conn : option AsyncSocket;
  reqs : list Z;
  reqs_pending : bool
}.

(** [_Peer(location, auth, keyfile, certfile)] *)
Definition Peer (loc : Location) (a : option string) (kf cf : option string) : _Peer :=
  mkPeer loc a kf cf false None [] false.

Definition set_stream (p : _Peer) (b : bool) : _Peer :=
  mkPeer (location p) (peer_auth p) (keyfile p) (certfile p) b (conn p)
         (reqs p) (reqs_pending p).

Definition set_conn (p : _Peer) (c : option AsyncSocket) : _Peer :=
  mkPeer (location p) (peer_auth p) (keyfile p) (certfile p) (stream p) c
         (reqs p) (reqs_pending p).

Definition set_reqs (p : _Peer) (q : list Z) (pending : bool) : _Peer :=
  mkPeer (location p) (peer_auth p) (keyfile p) (certfile p) (stream p) (conn p)
         q pending.

Definition key_of (l : Location) : string * Z := (addr l, port l).

(** [_Peer.send_req(req)] for the request object at address [a]; the
    result is the status and the peer table. [None]: [req.dst] is [None]
    (an [AttributeError]). *)
Definition send_req (peers : gmap (string * Z) _Peer) (σ : Store) (a : Z)
  : option (Z * gmap (string * Z) _Peer) :=
  req ← heap σ !! a;
  d ← dst req;
  match peers !! key_of d with
  | None => Some (-1, peers)
  | Some peer =>
      Some (0, <[key_of d := set_reqs peer (reqs peer ++ [a]) true]> peers)
  end.

(** [_Peer.remove(location)]; the worker of the peer ends with its entry. *)
Definition remove (peers : gmap (string * Z) _Peer) (l : Location)
  : gmap (string * Z) _Peer :=
  delete (key_of l) peers.

(** Exceptions, as far as the handlers of the source tell them apart. *)
Inductive exn :=
| socket_error (hangup : bool)
| socket_timeout
| other_exception.

Inductive io (A : Type) :=
| Ret (a : A)
| Raise (e : exn).
Arguments Ret {A} a.
Arguments Raise {A} e.

(** What the network answers to the worker while it serves one request:
    to [connect], to [send_msg], and to [recv_msg] followed by
    [unserialize]. *)
Record proc_env := mkProcEnv {
  on_connect : io unit;
  on_send : io unit;
  on_recv : io value
}.

(** What the worker does on its socket. *)
Inductive sock_event :=
| Connect (to : Location)
| SendMsg (r : _NetRequest)
| RecvMsg
| Close.

(** One round of the [while 1] loop of [req_proc]. *)
Inductive proc_result :=
| Suspended (p : _Peer) (tr : list sock_event)
    (** the queue is empty: the worker waits on [reqs_pending] *)
| Served (a : Z) (p : _Peer) (σ : Store) (tr : list sock_event)
    (** the head request was taken and settled; the loop goes on *)
| Died.
    (** an exception left the generator *)

(** [if req.timeout:] *)
Definition timeout_set (t : option Q) : bool :=
  match t with Some q => negb (Qeq_bool q 0) | None => false end.

(** The [try] statement around the exchange: the three [except] clauses
    and the [finally] clause. *)
Definition exchange (p : _Peer) (σ : Store) (a : Z) (req : _NetRequest)
           (env : proc_env) (tr : list sock_event) : proc_result :=
  let σ1 := update σ a (fun r => set_auth r (peer_auth p)) in
  let sent := tr ++ [SendMsg (on_wire (set_auth req (peer_auth p)))] in
  let body : io value * list sock_event :=
    match on_send env with
    | Raise e => (Raise e, sent)
    | Ret _ => (on_recv env, sent ++ [RecvMsg])
    end in
  let '(p2, σ2, tr2) :=
    match body.1 with
    | Ret v => (p, update σ1 a (fun r => set_reply r v), body.2)
    | Raise (socket_error _) =>
        (set_conn p None, update σ1 a (fun r => set_reply r VNone), body.2 ++ [Close])
    | Raise socket_timeout =>
        (set_conn p None, update σ1 a (fun r => set_reply r VNone), body.2 ++ [Close])
    | Raise other_exception =>
        (set_conn p None, update σ1 a (fun r => set_reply r VNone), body.2 ++ [Close])
    end in
  Served a p2 (signal σ2 (event req)) tr2.

Definition req_proc_round (self : _Peer) (σ : Store) (env : proc_env) : proc_result :=
  match reqs self with
  | [] =>
      if negb (stream self) && bool_decide (is_Some (conn self))
      then Suspended (set_reqs (set_conn self None) [] false) [Close]
      else Suspended (set_reqs self [] false) []
  | a :: rest =>
      match heap σ !! a with
      | None => Died
      | Some req =>
          let self := set_reqs self rest (reqs_pending self) in
          match conn self with
          | None =>
              let sock := mkSocket (if timeout_set (timeout req) then timeout req else None) in
              match on_connect env with
              | Raise _ =>
                  Served a (set_conn self None)
                         (signal (update σ a (fun r => set_reply r VNone)) (event req))
                         [Connect (location self)]
              | Ret _ =>
                  exchange (set_conn self (Some sock)) σ a req env
                           [Connect (location self)]
              end
          | Some _ =>
              exchange (set_conn self (Some (mkSocket (timeout req)))) σ a req env []
          end
      end
  end.

(** The worker, for as long as the environment answers: it stops when it
    has to wait for [reqs_pending]. *)
Fixpoint req_proc (self : _Peer) (σ : Store) (envs : list proc_env)
  : option (_Peer * Store * list sock_event) :=
  match envs with
  | [] => Some (self, σ, [])
  | env :: envs' =>
      match req_proc_round self σ env with
      | Suspended p tr => Some (p, σ, tr)
      | Served _ p σ' tr =>
          '(p', σ'', tr') ← req_proc p σ' envs'; Some (p', σ'', tr ++ tr')
      | Died => None
      end
  end.

(** ** AsynCoro: the state of an instance *)

(** The attributes of the scheduler instance that the transport reads or
    writes. [peers] is [_Peer.peers] (the instance is a singleton of its
    process); [store] holds the shared request and event objects; [fs] is
    the file system of the host; [scheduler] is the state of the local
    scheduler, which the transport only reaches through its interface.
    [__version__] is the module constant of asyncoro3. *)
Record AsynCoro (S : Type) := mkAsynCoro {
  __version__ : string;
  _name : string;
  _location : Location;
  _secret : option string;
  _signature : option string;
  _auth_code : option string;
  _keyfile : option string;
  _certfile : option string;
  _stream_peers : gset (string * Z);
  _rcoros : gmap string value;
  _rchannels : gmap string value;
  _rcis : gmap string value;
  _requests : gmap Z Z;
  dest_path_prefix : string;
  max_file_size : option Z;
  peers : gmap (string * Z) _Peer;
  store : Store;
  fs : os.filesystem;
  scheduler : S
}.
Arguments mkAsynCoro {S}.
Arguments __version__ {S}.
Arguments _name {S}.
Arguments _location {S}.
Arguments _secret {S}.
Arguments _signature {S}.
Arguments _auth_code {S}.
Arguments _keyfile {S}.
Arguments _certfile {S}.
Arguments _stream_peers {S}.
Arguments _rcoros {S}.
Arguments _rchannels {S}.
Arguments _rcis {S}.
Arguments _requests {S}.
Arguments dest_path_prefix {S}.
Arguments max_file_size {S}.
Arguments peers {S}.
Arguments store {S}.
Arguments fs {S}.
Arguments scheduler {S}.

Section Setters.
Context {S : Type}.
Implicit Type self : AsynCoro S.

Definition set_stream_peers self (sp : gset (string * Z)) : AsynCoro S :=
  mkAsynCoro (__version__ self) (_name self) (_location self) (_secret self)
    (_signature self) (_auth_code self) (_keyfile self) (_certfile self)
    sp (_rcoros self) (_rchannels self) (_rcis self) (_requests self)
    (dest_path_prefix self) (max_file_size self) (peers self) (store self)
    (fs self) (scheduler self).

Definition set_requests self (rq : gmap Z Z) : AsynCoro S :=
  mkAsynCoro (__version__ self) (_name self) (_location self) (_secret self)
    (_signature self) (_auth_code self) (_keyfile self) (_certfile self)
    (_stream_peers self) (_rcoros self) (_rchannels self) (_rcis self) rq
    (dest_path_prefix self) (max_file_size self) (peers self) (store self)
    (fs self) (scheduler self).

Definition set_peers self (ps : gmap (string * Z) _Peer) : AsynCoro S :=
  mkAsynCoro (__version__ self) (_name self) (_location self) (_secret self)
    (_signature self) (_auth_code self) (_keyfile self) (_certfile self)
    (_stream_peers self) (_rcoros self) (_rchannels self) (_rcis self)
    (_requests self) (dest_path_prefix self) (max_file_size self) ps
    (store self) (fs self) (scheduler self).

Definition set_store self (σ : Store) : AsynCoro S :=
  mkAsynCoro (__version__ self) (_name self) (_location self) (_secret self)
    (_signature self) (_auth_code self) (_keyfile self) (_certfile self)
    (_stream_peers self) (_rcoros self) (_rchannels self) (_rcis self)
    (_requests self) (dest_path_prefix self) (max_file_size self) (peers self)
    σ (fs self) (scheduler self).

Definition set_fs self (f : os.filesystem) : AsynCoro S :=
  mkAsynCoro (__version__ self) (_name self) (_location self) (_secret self)
    (_signature self) (_auth_code self) (_keyfile self) (_certfile self)
    (_stream_peers self) (_rcoros self) (_rchannels self) (_rcis self)
    (_requests self) (dest_path_prefix self) (max_file_size self) (peers self)
    (store self) f (scheduler self).

Definition set_scheduler self (s : S) : AsynCoro S :=
  mkAsynCoro (__version__ self) (_name self) (_location self) (_secret self)
    (_signature self) (_auth_code self) (_keyfile self) (_certfile self)
    (_stream_peers self) (_rcoros self) (_rchannels self) (_rcis self)
    (_requests self) (dest_path_prefix self) (max_file_size self) (peers self)
    (store self) (fs self) s.
End Setters.

(** ** External collaborators *)

(** The local scheduler (asyncoro3), as the dispatcher uses it. Local
    coroutines are named by their id, local channels by their name.
    - [coros_has s cid]: [self._coros.get(cid, None) is not None];
    - [coro_send cid msg]: [coro.send(msg)], with its return value;
    - [channels_has], [channel_send], [channel_deliver]: the same for
      [self._channels], [channel.send(msg)] and
      [yield channel.deliver(msg, timeout=, n=)];
    - [scheduler_verb]: the handlers of [run_rci], [subscribe],
      [unsubscribe], [monitor] and [exception], which act on the scheduler
      alone and end with one [conn.send_msg(serialize(reply))]; [None] is
      an exception that leaves the task. *)
Class LocalScheduler (S : Type) := {
  coros_has : S -> Z -> bool;
  coro_send : Z -> value -> S -> value * S;
  channels_has : S -> string -> bool;
  channel_send : string -> value -> S -> value * S;
  channel_deliver : string -> value -> option Q -> value -> S -> value * S;
  scheduler_verb : AsynCoro S -> _NetRequest -> option (value * S)
}.

(** What a fresh connection to a peer yields: the socket is connected, one
    message is sent and, where the code reads one, one raw message comes
    back. *)
Inductive net_outcome :=
| connect_failed
| send_failed
| recv_failed
| received (b : string).

(** The environment of one round of the dispatcher. *)
Record tcp_env := mkTcpEnv {
  net : Location -> _NetRequest -> net_outcome;
     (** a fresh socket to a location and a message sent on it *)
  conn_ok : bool;
     (** whether [send_msg] on the accepted connection succeeds *)
  recvall : list (io string);
     (** what [conn.recvall] returns, call after call; past the end of the
         list the call raises *)
  now : Q
     (** the clock, for the time stamps of files that are written *)
}.

(** What one round does on its sockets. *)
Inductive action :=
| conn_send_msg (v : value)          (** [conn.send_msg(serialize(v))] *)
| conn_send_raw (b : string)         (** [conn.send_msg(b)] *)
| sock_connect (to : Location)       (** [sock.connect] on a fresh socket *)
| sock_send_msg (to : Location) (r : _NetRequest)
                                     (** [sock.send_msg(serialize(r))] *)
| conn_close                         (** [conn.close()] *)
| udp_sendto (to : string * Z) (info : gmap string value).
                                     (** [sock.sendto(b'ping:' + serialize(info), to)] *)

(** How a round of the [while True] loop ends: the loop goes on, a [break]
    leads to [conn.close()], or an exception leaves the generator. *)
Inductive status := Continue | Break | Crashed.

Record result (S : Type) := mkResult {
  r_state : AsynCoro S;
  r_trace : list action;
  r_status : status
}.
Arguments mkResult {S}.
Arguments r_state {S}.
Arguments r_trace {S}.
Arguments r_status {S}.

(** The messages of [r_trace] that went back on the accepted connection. *)
Definition replies (tr : list action) : list value :=
  omap (fun a => match a with conn_send_msg v => Some v | _ => None end) tr.

(** The messages of [r_trace] that went out on fresh sockets. *)
Definition sent_to (tr : list action) : list (Location * _NetRequest) :=
  omap (fun a => match a with sock_send_msg l r => Some (l, r) | _ => None end) tr.

(** ** AsynCoro._tcp_task: the inbound dispatcher *)

Section Dispatcher.
Context {S : Type} `{!LocalScheduler S} `{!Library}.
Implicit Type self : AsynCoro S.
Implicit Type req : _NetRequest.
Implicit Type env : tcp_env.

Definition minus_one : value := VInt (-1).

(** A handler's last statement [yield conn.send_msg(serialize(reply))]:
    when the send raises, the exception leaves the task. *)
Definition send_reply env self (tr : list action) (v : value) : result S :=
  mkResult self (tr ++ [conn_send_msg v]) (if conn_ok env then Continue else Crashed).

(** [src is None] and [dst == self._location], the assertions of the
    synchronous handlers. *)
Definition src_is_none req : bool := bool_decide (src req = None).
Definition dst_is_self self req : bool := bool_decide (dst req = Some (_location self)).

(** A fresh socket to [to], [connect] and one [send_msg(serialize(msg))]
    inside [try: ... except: pass]. *)
Definition send_on_fresh_socket env (to : Location) (msg : _NetRequest) : list action :=
  sock_connect to ::
  match net env to msg with
  | connect_failed => []
  | _ => [sock_send_msg to (on_wire msg)]
  end.

(** *** send and deliver *)

Definition handle_send env self req : result S :=
  if negb (src_is_none req) then mkResult self [] Crashed
  else if negb (dst_is_self self req) then send_reply env self [] minus_one
  else
    let cid := kwargs_get req "coro" in
    if negb (bool_decide (cid = VNone)) then
      match py_int cid with
      | None => mkResult self [] Crashed
      | Some c =>
          if coros_has (scheduler self) c then
            match kwargs req !! "message" with
            | None => mkResult self [] Crashed
            | Some m =>
                let '(reply, s) := coro_send c m (scheduler self) in
                send_reply env (set_scheduler self s) [] reply
            end
          else send_reply env self [] minus_one
      end
    else
      match kwargs_get req "name" with
      | VNone => send_reply env self [] minus_one
      | VStr n =>
          if channels_has (scheduler self) n then
            match kwargs req !! "message" with
            | None => mkResult self [] Crashed
            | Some m =>
                let '(reply, s) := channel_send n m (scheduler self) in
                send_reply env (set_scheduler self s) [] reply
            end
          else send_reply env self [] minus_one
      | _ => send_reply env self [] minus_one
      end.

Definition handle_deliver env self req : result S :=
  if negb (src_is_none req) then mkResult self [] Crashed
  else if negb (dst_is_self self req) then send_reply env self [] minus_one
  else
    let cid := kwargs_get req "coro" in
    if negb (bool_decide (cid = VNone)) then
      match py_int cid with
      | None => mkResult self [] Crashed
      | Some c =>
          if coros_has (scheduler self) c then
            match kwargs req !! "message" with
            | None => mkResult self [] Crashed
            | Some m =>
                let '(_, s) := coro_send c m (scheduler self) in
                send_reply env (set_scheduler self s) [] (VInt 1)
            end
          else send_reply env self [] minus_one
      end
    else
      match kwargs_get req "name" with
      | VNone => send_reply env self [] minus_one
      | VStr n =>
          if channels_has (scheduler self) n then
            match kwargs req !! "message", kwargs req !! "n" with
            | Some m, Some k =>
                let '(reply, s) := channel_deliver n m (timeout req) k (scheduler self) in
                send_reply env (set_scheduler self s) [] reply
            | _, _ => mkResult self [] Crashed
            end
          else send_reply env self [] minus_one
      | _ => send_reply env self [] minus_one
      end.

(** *** locate_channel, locate_coro, locate_rci, locate_peer *)

(** The tail that the four [locate_*] handlers share: with [req.src] set
    the answer travels in [req.reply] on a fresh socket to [req.src], and
    only when [req.src] is a peer of the table; without it the answer goes
    back on the accepted connection. *)
Definition answer env self req (obj : value) : result S :=
  match src req with
  | Some s =>
      match peers self !! key_of s with
      | Some peer =>
          mkResult self
            (send_on_fresh_socket env s (set_reply (set_auth req (peer_auth peer)) obj))
            Continue
      | None => mkResult self [] Continue
      end
  | None => send_reply env self [] obj
  end.

(** [registry.get(req.kwargs['name'], None)] *)
Definition registry_get (registry : gmap string value) (n : value) : value :=
  match n with
  | VStr s => default VNone (registry !! s)
  | _ => VNone
  end.

Definition handle_locate (registry : gmap string value) env self req : result S :=
  match kwargs req !! "name" with
  | None => mkResult self [] Crashed
  | Some n =>
      let obj := registry_get registry n in
      if negb (bool_decide (obj = VNone)) || dst_is_self self req
      then answer env self req obj
      else mkResult self [] Continue
  end.

Definition handle_locate_peer env self req : result S :=
  match kwargs req !! "name" with
  | None => mkResult self [] Crashed
  | Some n =>
      if bool_decide (n = VStr (_name self)) || dst_is_self self req then
        let loc := if bool_decide (n = VStr (_name self))
                   then VLoc (_location self) else VNone in
        answer env self req loc
      else mkResult self [] Continue
  end.

(** *** ping and pong: the handshake *)

(** [hashlib.sha1(bytes(signature + self._secret, 'ascii')).hexdigest()],
    or [None] of Python without a secret. The outer [None] is an exception
    (a signature that is not a string, a character outside ASCII). *)
Definition auth_code_for (secret : option string) (signature : option value)
  : option (option string) :=
  match secret with
  | None => Some None
  | Some sec =>
      match signature with
      | Some (VStr sig) =>
          if is_ascii (sig ++ sec)%string
          then Some (Some (sha1_hexdigest (sig ++ sec)%string))
          else None
      | _ => None
      end
  end.

(** [self._signature] as a value. *)
Definition signature_value self : value :=
  match _signature self with Some s => VStr s | None => VNone end.

(** The [kwargs] of the [ping] and [pong] that an instance sends. *)
Definition hello self : gmap string value :=
  {[ "peer" := VLoc (_location self); "signature" := signature_value self;
     "version" := VStr (__version__ self) ]}.

(** [assert req.kwargs['version'] == __version__] *)
Definition version_ok self req : bool :=
  bool_decide (kwargs req !! "version" = Some (VStr (__version__ self))).

(** The relay of a ping to the other instances on this host: for every
    peer at the own address and another port, a [ping] for [req_peer] is
    queued with [_Peer.send_req]. [None]: [req.kwargs['signature']] is
    missing when the first relay is built (a [KeyError]). The order of the
    enumeration is that of the table. *)
Definition relay self req (req_peer : Location) : option (AsynCoro S) :=
  foldl (fun acc kp =>
           self ← acc;
           let '((a, p), _) := (kp : string * Z * _Peer) in
           if String.eqb a (addr (_location self)) && negb (p =? port (_location self)) then
             sig ← kwargs req !! "signature";
             let relay_req :=
               NetRequest "ping"
                 {[ "peer" := VLoc req_peer; "version" := VStr (__version__ self);
                    "signature" := sig ]}
                 None (Some (mkLocation (addr (_location self)) p)) None (Some 1%Q) in
             let '(ad, σ) := alloc (store self) relay_req in
             '(_, ps) ← send_req (peers self) σ ad;
             Some (set_peers (set_store self σ) ps)
           else Some self)
        (Some self) (map_to_list (peers self)).

(** [_Peer(req_peer, auth_code, ...)] and the [stream] flag. *)
Definition install self (req_peer : Location) (auth_code : option string) : AsynCoro S :=
  let peer := Peer req_peer auth_code (_keyfile self) (_certfile self) in
  let peer :=
    if bool_decide (key_of req_peer ∈ _stream_peers self)
       || bool_decide ((addr req_peer, 0) ∈ _stream_peers self)
    then set_stream peer true else peer in
  set_peers self (<[key_of req_peer := peer]> (peers self)).

(** The pending requests that are sent to the new peer: those of
    [_requests] with [dst] unset or equal to the peer, each copied,
    stamped with the peer's auth code and sent on a fresh socket. *)
Definition pending_reqs self (req_peer : Location) : list _NetRequest :=
  omap (fun ia => r ← heap (store self) !! ia.2;
                  if bool_decide (dst r = None) || bool_decide (dst r = Some req_peer)
                  then Some r else None)
       (map_to_list (_requests self)).

Definition drain env self (req_peer : Location) (auth_code : option string) : list action :=
  flat_map (fun r => send_on_fresh_socket env req_peer (set_auth r auth_code))
           (pending_reqs self req_peer).

(** What [ping] and [pong] share once the peer is confirmed: relay,
    second look at the table, installation, drain. *)
Definition add_peer env self req (req_peer : Location) (auth_code : option string)
           (tr : list action) : result S :=
  match relay self req req_peer with
  | None => mkResult self tr Crashed
  | Some self1 =>
      if bool_decide (is_Some (peers self1 !! key_of req_peer))
      then mkResult self1 tr Break
      else
        let self2 := install self1 req_peer auth_code in
        mkResult self2 (tr ++ drain env self2 req_peer auth_code) Continue
  end.

(** [peer and peer.auth == auth_code] *)
Definition known_with self (req_peer : Location) (auth_code : option string) : bool :=
  match peers self !! key_of req_peer with
  | Some peer => bool_decide (peer_auth peer = auth_code)
  | None => false
  end.

Definition handle_ping env self req : result S :=
  match kwargs req !! "peer",
        auth_code_for (_secret self) (kwargs req !! "signature"),
        version_ok self req with
  | Some peer_v, Some auth_code, true =>
      match peer_v with
      | VLoc req_peer =>
          if bool_decide (req_peer = _location self) then mkResult self [] Break
          else if known_with self req_peer auth_code then mkResult self [] Break
          else
            let pong := NetRequest "pong" (hello self) None (Some req_peer) auth_code None in
            let tr := send_on_fresh_socket env req_peer pong in
            match net env req_peer pong with
            | received b =>
                if String.eqb b "ack" then add_peer env self req req_peer auth_code tr
                else mkResult self tr Break
            | _ => mkResult self tr Break
            end
      | _ => mkResult self [] Crashed
      end
  | _, _, _ => mkResult self [] Break
  end.

(** In [pong] the [except] clause formats [req_peer]: without a ['peer']
    key that name is not bound by this message, and the clause itself
    raises. *)
Definition handle_pong env self req : result S :=
  match kwargs req !! "peer" with
  | None => mkResult self [] Crashed
  | Some peer_v =>
      match version_ok self req,
            auth_code_for (_secret self) (kwargs req !! "signature"), peer_v with
      | true, Some auth_code, VLoc req_peer =>
          if known_with self req_peer auth_code
          then mkResult self [conn_send_raw "nak"] Break
          else if conn_ok env
               then add_peer env self req req_peer auth_code [conn_send_raw "ack"]
               else mkResult self [conn_send_raw "ack"] Break
      | _, _, _ => mkResult self [] Break
      end
  end.

(** *** terminate *)

Definition handle_terminate env self req : result S :=
  if negb (src_is_none req) then mkResult self [] Crashed
  else
    let peer := kwargs_get req "peer" in
    if truthy peer then
      match peer with
      | VLoc l => mkResult (set_peers self (remove (peers self) l))
                           [conn_send_msg (VBytes "ack")] Break
      | _ => mkResult self [] Crashed
      end
    else mkResult self [conn_send_msg (VBytes "ack")] Break.

(** *** send_file and del_file *)

(** [stat_buf.st_size] and the like: an attribute of a value that is not a
    stat structure raises. *)
Definition as_stat (v : value) : option stat_result :=
  match v with VStat s => Some s | _ => None end.

(** [self.max_file_size and ...]: the limit, when one is set. *)
Definition size_limit self : option Z :=
  match max_file_size self with
  | Some m => if m =? 0 then None else Some m
  | None => None
  end.

(** The target of [send_file]:
    [abspath(join(dest_path_prefix, join(dest_path, basename(file))))]. *)
Definition send_file_target self (file : string) (dest_path : value) : string :=
  let tgt := posixpath.basename file in
  let tgt := match dest_path with
             | VStr d => posixpath.join d [tgt]
             | _ => tgt
             end in
  posixpath.abspath (os.fs_cwd (fs self)) (posixpath.join (dest_path_prefix self) [tgt]).

(** The target of [del_file]: [join(dest_path_prefix, join(dest_path,
    basename(file)))], as the source writes it. *)
Definition del_file_target self (file : string) (dest_path : value) : string :=
  let tgt := posixpath.basename file in
  let tgt := match dest_path with
             | VStr d => if negb (String.eqb d "") then posixpath.join d [tgt] else tgt
             | _ => tgt
             end in
  posixpath.join (dest_path_prefix self) [tgt].

(** The same metadata: [st_mtime] within one second, equal [st_size],
    equal permission bits. *)
Definition same_metadata (stat_buf sbuf : stat_result) : bool :=
  Qle_bool (Qabs (st_mtime stat_buf - st_mtime sbuf)) 1
  && (st_size stat_buf =? st_size sbuf)
  && (os.S_IMODE (st_mode stat_buf) =? os.S_IMODE (st_mode sbuf)).

(** The two [elif] branches after the test on the size: the target must
    start with [dest_path_prefix]; a target that is a file is compared
    with the sender's metadata. [None] is an exception that leaves the
    task. *)
Definition target_check self (tgt : string) (stat_buf : value) (overwrite : option value)
  : option value :=
  if negb (posixpath.startswith tgt (dest_path_prefix self)) then Some minus_one
  else if os.isfile (fs self) tgt then
    sbuf ← os.stat (fs self) tgt;
    sb ← as_stat stat_buf;
    if same_metadata sb sbuf then Some (VInt 1)
    else ov ← overwrite;
         if negb (truthy ov) then Some (VStat sbuf) else Some (VInt 0)
  else Some (VInt 0).

(** The [if]/[elif] chain that sets [resp] before anything is written. *)
Definition preflight self (tgt : string) (stat_buf : value) (overwrite : option value)
  : option value :=
  match size_limit self with
  | Some m =>
      sb ← as_stat stat_buf;
      if m <? st_size sb then Some minus_one
      else target_check self tgt stat_buf overwrite
  | None => target_check self tgt stat_buf overwrite
  end.

(** [try: makedirs(dirname(tgt)) unless it is a directory; fd = open(tgt,
    'wb')]; [None] is the [except] branch. *)
Definition create_target env self (tgt : string) : option (string * os.filesystem) :=
  fs1 ← (if os.isdir (fs self) (posixpath.dirname tgt) then Some (fs self)
         else os.makedirs (fs self) (posixpath.dirname tgt));
  os.open_wb fs1 (now env) tgt.

(** The receiving loop: [while n < st_size] read at most 10240000 bytes,
    stop on an empty read or on an exception, else write. [recvall]
    returns no more than it was asked for. *)
Fixpoint receive (f : os.filesystem) (q : string) (size n : Z) (chunks : list (io string))
  : Z * os.filesystem :=
  match chunks with
  | [] => (n, f)
  | c :: rest =>
      if n <? size then
        match c with
        | Raise _ => (n, f)
        | Ret data =>
            let data := substring 0 (Z.to_nat (Z.min (size - n) 10240000)) data in
            if String.eqb data "" then (n, f)
            else receive (os.write f q data) q size (n + Z.of_nat (String.length data)) rest
        end
      else (n, f)
  end.

(** After the payload: a short read removes the target and answers [-1];
    otherwise the times and the mode of the sender's file are restored. *)
Definition finish_transfer env self (tgt q : string) (stat_buf : value)
           (f : os.filesystem) (tr : list action) : result S :=
  let '(n, f1) :=
    match as_stat stat_buf with
    | Some sb => receive f q (st_size sb) 0 (recvall env)
    | None => (0, f)
    end in
  match as_stat stat_buf with
  | None => mkResult (set_fs self f1) tr Crashed
  | Some sb =>
      if n <? st_size sb then
        match os.remove f1 tgt with
        | Some f2 => send_reply env (set_fs self f2) tr minus_one
        | None => mkResult (set_fs self f1) tr Crashed
        end
      else
        match f2 ← os.utime f1 tgt (st_atime sb) (st_mtime sb);
              os.chmod f2 tgt (os.S_IMODE (st_mode sb)) with
        | Some f3 => send_reply env (set_fs self f3) tr (VInt 0)
        | None => mkResult (set_fs self f1) tr Crashed
        end
  end.

Definition handle_send_file env self req : result S :=
  if negb (src_is_none req) || negb (dst_is_self self req) then mkResult self [] Crashed
  else
    match kwargs req !! "file", kwargs req !! "dest_path", kwargs req !! "stat_buf" with
    | Some (VStr file), Some dest_path, Some stat_buf =>
        let tgt := send_file_target self file dest_path in
        match preflight self tgt stat_buf (kwargs req !! "overwrite") with
        | None => mkResult self [] Crashed
        | Some resp =>
            if bool_decide (resp = VInt 0) then
              match create_target env self tgt with
              | None => send_reply env self [] minus_one
              | Some (q, f) =>
                  if conn_ok env
                  then finish_transfer env self tgt q stat_buf f [conn_send_msg (VInt 0)]
                  else mkResult (set_fs self f) [conn_send_msg (VInt 0)] Crashed
              end
            else send_reply env self [] resp
        end
    | _, _, _ => mkResult self [] Crashed
    end.

(** [while d > self.dest_path_prefix and os.path.isdir(d): os.rmdir(d);
    d = os.path.dirname(d)] inside [try: ... except: pass]. Every round
    shortens [d], so the length of [d] bounds the rounds
    ([remove_empty_dirs_rounds] below). *)
Fixpoint remove_empty_dirs (rounds : nat) (prefix : string) (f : os.filesystem) (d : string)
  : os.filesystem :=
  match rounds with
  | O => f
  | Datatypes.S k =>
      if String.ltb prefix d && os.isdir f d then
        match os.rmdir f d with
        | Some f' => remove_empty_dirs k prefix f' (posixpath.dirname d)
        | None => f
        end
      else f
  end.

Definition handle_del_file env self req : result S :=
  if negb (src_is_none req) || negb (dst_is_self self req) then mkResult self [] Crashed
  else
    match kwargs req !! "file", kwargs req !! "dest_path" with
    | Some (VStr file), Some dest_path =>
        let tgt := del_file_target self file dest_path in
        if posixpath.startswith tgt (dest_path_prefix self) && os.isfile (fs self) tgt then
          match os.remove (fs self) tgt with
          | None => mkResult self [] Crashed
          | Some f1 =>
              let d := posixpath.dirname tgt in
              let f2 := remove_empty_dirs (Datatypes.S (String.length d))
                                          (dest_path_prefix self) f1 d in
              send_reply env (set_fs self f2) [] (VInt 0)
          end
        else send_reply env self [] minus_one
    | _, _ => mkResult self [] Crashed
    end.

(** *** The dispatcher *)

(** The closed set of verbs. *)
Inductive verb :=
| v_send | v_deliver | v_run_rci | v_locate_channel | v_locate_coro
| v_locate_rci | v_subscribe | v_monitor | v_exception | v_ping | v_pong
| v_unsubscribe | v_locate_peer | v_send_file | v_del_file | v_terminate.

Definition verbs : list (string * verb) :=
  [ ("send", v_send); ("deliver", v_deliver); ("run_rci", v_run_rci);
    ("locate_channel", v_locate_channel); ("locate_coro", v_locate_coro);
    ("locate_rci", v_locate_rci); ("subscribe", v_subscribe);
    ("monitor", v_monitor); ("exception", v_exception); ("ping", v_ping);
    ("pong", v_pong); ("unsubscribe", v_unsubscribe);
    ("locate_peer", v_locate_peer); ("send_file", v_send_file);
    ("del_file", v_del_file); ("terminate", v_terminate) ].

(** The [if req.name == ... elif ...] chain; [None] is its [else]. *)
Definition verb_of (n : string) : option verb :=
  snd <$> find (fun nv => String.eqb n nv.1) verbs.

(** The handlers that only concern the local scheduler. *)
Definition handle_scheduler_verb env self req : result S :=
  match scheduler_verb self req with
  | Some (reply, s) => send_reply env (set_scheduler self s) [] reply
  | None => mkResult self [] Crashed
  end.

Definition dispatch env self req : result S :=
  match verb_of (name req) with
  | Some v_send => handle_send env self req
  | Some v_deliver => handle_deliver env self req
  | Some v_locate_channel => handle_locate (_rchannels self) env self req
  | Some v_locate_coro => handle_locate (_rcoros self) env self req
  | Some v_locate_rci => handle_locate (_rcis self) env self req
  | Some v_locate_peer => handle_locate_peer env self req
  | Some v_ping => handle_ping env self req
  | Some v_pong => handle_pong env self req
  | Some v_send_file => handle_send_file env self req
  | Some v_del_file => handle_del_file env self req
  | Some v_terminate => handle_terminate env self req
  | Some (v_run_rci | v_subscribe | v_unsubscribe | v_monitor | v_exception) =>
      handle_scheduler_verb env self req
  | None => mkResult self [] Continue
  end.

(** A message whose [src] is the own location is the answer to a pending
    request: the entry of [_requests] is popped, the answer is stored in
    the waiting object and its event is set. *)
Definition async_reply self (async_reply : _NetRequest) : result S :=
  match i ← id async_reply; a ← _requests self !! i; Some (i, a) with
  | None => mkResult self [] Break
  | Some (i, a) =>
      let self1 := set_requests self (delete i (_requests self)) in
      match heap (store self) !! a with
      | None => mkResult self1 [] Crashed
      | Some req =>
          let σ := update (store self) a (fun r => set_reply r (reply async_reply)) in
          match event req with
          | Some e => mkResult (set_store self1 (event_set σ e)) [] Break
          | None => mkResult (set_store self1 σ) [] Crashed
          end
      end
  end.

(** [assert req.auth == self._auth_code] *)
Definition auth_ok self req : bool := bool_decide (auth req = _auth_code self).

(** [req.dst is not None and req.dst != self._location] *)
Definition misaddressed self req : bool :=
  match dst req with
  | Some d => negb (bool_decide (d = _location self))
  | None => false
  end.

(** What [recv_msg] and [unserialize] hand to the loop. *)
Inductive inbound :=
| no_message                      (** [recv_msg] returned nothing *)
| not_unserializable              (** [unserialize] raised *)
| not_a_request (v : value)       (** an object without the envelope's fields *)
| request (req : _NetRequest).

(** A message that passed [unserialize] and the assertion on [auth], or
    that is a [ping]. *)
Definition validated env self req : result S :=
  if misaddressed self req then mkResult self [] Break
  else if bool_decide (src req = Some (_location self)) then async_reply self req
  else dispatch env self req.

(** One round of the [while True] loop of [_tcp_task]. *)
Definition _tcp_task_round env self (msg : inbound) : result S :=
  match msg with
  | no_message => mkResult self [] Break
  | not_unserializable => mkResult self [] Break
  | not_a_request v => mkResult self [] (if truthy v then Crashed else Break)
  | request req =>
      if auth_ok self req then validated env self req
      else if negb (String.eqb (name req) "ping") then mkResult self [] Break
      else validated env self req
  end.

(** The task of one accepted connection: rounds until a [break] (then
    [conn.close()]) or an exception; it is still reading when the inputs
    are used up. *)
Fixpoint _tcp_task self (inputs : list (tcp_env * inbound)) : result S :=
  match inputs with
  | [] => mkResult self [] Continue
  | (env, msg) :: rest =>
      let r := _tcp_task_round env self msg in
      match r_status r with
      | Continue =>
          let r' := _tcp_task (r_state r) rest in
          mkResult (r_state r') (r_trace r ++ r_trace r') (r_status r')
      | Break => mkResult (r_state r) (r_trace r ++ [conn_close]) Break
      | Crashed => r
      end
  end.

End Dispatcher.

(** ** AsynCoro.peer and the UDP listener *)

Section Discovery.
Context {S : Type} `{!LocalScheduler S} `{!Library}.
Implicit Type self : AsynCoro S.

(** The dictionary of the UDP [ping:] datagram. *)
Definition ping_info self : gmap string value :=
  {[ "location" := VLoc (_location self); "signature" := signature_value self;
     "version" := VStr (__version__ self) ]}.

(** The environment of one call of [peer]: the resolver, the UDP send and
    the TCP connection to the peer. *)
Record peer_env := mkPeerEnv {
  gethostbyname : string -> option string;
  on_sendto : io unit;
  on_tcp_ping : net_outcome
}.

(** The peers that [peer] selects: those at [node], on [tcp_port] when one
    is given. *)
Definition selected (node : string) (tcp_port : Z) (k : string * Z) : bool :=
  String.eqb k.1 node && ((tcp_port =? 0) || (tcp_port =? k.2)).

(** [AsynCoro.peer(node, udp_port, tcp_port, stream_send)]: the value of
    its [StopIteration], the state and what it sent. *)
Definition peer self (node : string) (udp_port tcp_port : Z) (stream_send : bool)
           (env : peer_env) : Z * AsynCoro S * list action :=
  match gethostbyname env node with
  | None => (-1, self, [])
  | Some node =>
      let udp_port := if udp_port =? 0 then 51350 else udp_port in
      let stream_peers := filter (fun kp => selected node tcp_port kp.1 = true) (peers self) in
      let ps := map_imap (fun k p => Some (if selected node tcp_port k
                                           then set_stream p stream_send else p))
                         (peers self) in
      let sp := if stream_send then {[ (node, tcp_port) ]} ∪ _stream_peers self
                else (_stream_peers self ∖ dom stream_peers) ∖ {[ (node, tcp_port) ]} in
      let self := set_stream_peers (set_peers self ps) sp in
      let udp := [udp_sendto (node, udp_port) (ping_info self)] in
      let tcp :=
        if tcp_port =? 0 then []
        else
          let to := mkLocation node tcp_port in
          let req := NetRequest "ping" (hello self) None (Some to) None None in
          sock_connect to ::
          match on_tcp_ping env with
          | connect_failed => []
          | _ => [sock_send_msg to (on_wire req)]
          end in
      (0, self, udp ++ tcp)
  end.

(** What [recvfrom] hands to the loop of [_udp_proc]. *)
Inductive datagram :=
| stray                                     (** no [ping:] prefix *)
| ping_datagram (info : option (gmap string value)).
                                            (** [None]: [unserialize] raised *)

(** One round of the loop of [_udp_proc]: a valid ping of another
    instance that is not yet a peer with the derived auth code is answered
    with a TCP [ping]. *)
Definition _udp_proc_round (env : tcp_env) self (msg : datagram) : list action :=
  match msg with
  | stray => []
  | ping_datagram None => []
  | ping_datagram (Some info) =>
      match info !! "version", info !! "location" with
      | Some v, Some (VLoc req_peer) =>
          if negb (bool_decide (v = VStr (__version__ self))) then []
          else
            match auth_code_for (_secret self) (info !! "signature") with
            | None => []
            | Some auth_code =>
                if bool_decide (req_peer = _location self) then []
                else if known_with self req_peer auth_code then []
                else
                  send_on_fresh_socket env req_peer
                    (NetRequest "ping" (hello self) None (Some req_peer) auth_code None)
            end
      | _, _ => []
      end
  end.

End Discovery.

(** ** Two instances on one network *)

Section Network.
Context {S : Type} `{!LocalScheduler S} `{!Library}.
Implicit Type A B : AsynCoro S.

(** The raw messages of a trace that went back on the accepted
    connection. *)
Definition raw_replies (tr : list action) : list string :=
  omap (fun a => match a with conn_send_raw b => Some b | _ => None end) tr.

(** A fresh connection to the instance [A] that carries one message: the
    task of [A] for that connection runs one round; the caller reads the
    first raw message that comes back, or nothing when [A] closes. *)
Definition serve (envA : tcp_env) A (msg : _NetRequest) : AsynCoro S * net_outcome :=
  let r := _tcp_task_round envA A (request (on_wire msg)) in
  (r_state r, received (default "" (head (raw_replies (r_trace r))))).

(** The network as [B] sees it when [A] listens at its location. *)
Definition network_with (envA : tcp_env) A (elsewhere : Location -> _NetRequest -> net_outcome)
  : Location -> _NetRequest -> net_outcome :=
  fun to msg => if bool_decide (to = _location A) then (serve envA A msg).2
                else elsewhere to msg.

(** The state of [A] after the messages that a trace of [B] sent to it. *)
Definition after_messages (envA : tcp_env) A (tr : list action) : AsynCoro S :=
  foldl (fun A' lm => if bool_decide (lm.1 = _location A) then (serve envA A' lm.2).1 else A')
        A (sent_to tr).

(** [B] receives a message while [A] is on the network: the round of [B],
    and [A] after what [B] sent to it in that round. *)
Definition exchange_with (envA envB : tcp_env) A B (msg : _NetRequest)
  : AsynCoro S * result S :=
  let env := mkTcpEnv (network_with envA A (net envB)) (conn_ok envB) (recvall envB) (now envB) in
  let r := _tcp_task_round env B (request (on_wire msg)) in
  (after_messages envA A (r_trace r), r).

(** The credentials that [__init__] derives from the secret: without a
    secret neither signature nor auth code; with one, the signature is the
    hexadecimal rendering of 20 random bytes and the auth code the digest
    of signature and secret. *)
Definition init_credentials (secret : option string) (random_hex : string)
  : option string * option string :=
  match secret with
  | None => (None, None)
  | Some sec => (Some random_hex, Some (sha1_hexdigest (random_hex ++ sec)%string))
  end.

Definition credentials_ok A : Prop :=
  exists random_hex,
    (_signature A, _auth_code A) = init_credentials (_secret A) random_hex.

End Network.

(** ** A host for the examples *)

(** A local scheduler whose coroutines are mailboxes: [send] appends the
    message and returns [0]; it has no channels and serves no scheduler
    verb. *)
#[global] Instance mailbox_scheduler : LocalScheduler (gmap Z (list value)) := {|
  coros_has s c := bool_decide (is_Some (s !! c));
  coro_send c m s := (VInt 0, alter (fun box => box ++ [m]) c s);
  channels_has _ _ := false;
  channel_send _ _ s := (VInt (-1), s);
  channel_deliver _ _ _ _ s := (VInt 0, s);
  scheduler_verb _ _ := None
|}.

(** [int] on a text of decimal digits. *)
Fixpoint decimal (acc : Z) (s : string) : option Z :=
  match s with
  | EmptyString => Some acc
  | String c s' =>
      let n := nat_of_ascii c in
      if ((48 <=? n) && (n <=? 57))%nat
      then decimal (10 * acc + Z.of_nat (n - 48)) s'
      else None
  end.

(** A library for the examples: the digest of a text is the text itself
    (it has no collisions), and [int] reads decimal digits. *)
Definition plain_library : Library :=
  {| sha1_hexdigest s := s;
     int_of_text s := if String.eqb s "" then None else decimal 0 s |}.

(** A serialiser whose wire format is the state dictionary. *)
Definition plain_serialiser : Serialiser (list (string * attr)) :=
  {| dumps state := state; loads msg := Some msg |}.

Definition example_file : os.file := os.mkFile 33188 100 100 "data".

(** [/tmp/asyncoro] is the root of the transfers; [/tmp/f] and
    [/tmp/asyncoro2/g] lie outside of it. *)
Definition example_fs : os.filesystem :=
  os.mkFS {[ "/tmp/f" := example_file; "/tmp/asyncoro/sub/data" := example_file ]}
          {[ "/tmp"; "/tmp/asyncoro"; "/tmp/asyncoro/sub"; "/tmp/asyncoro2" ]}
          "/" 18.

Definition quiet_env : tcp_env :=
  mkTcpEnv (fun _ _ => connect_failed) true [] 200.

(** An instance named [name] at [loc] with the given secret and
    signature, no peers and no pending requests; the coroutine 7 runs on
    it. *)
Definition example_instance `{!Library} (n : string) (loc : Location)
           (secret signature : option string) : AsynCoro (gmap Z (list value)) :=
  mkAsynCoro "3.0" n loc secret signature
    (match secret, signature with
     | Some sec, Some sig => Some (sha1_hexdigest (sig ++ sec)%string)
     | _, _ => None
     end)
    None None ∅ ∅ ∅ ∅ ∅ "/tmp/asyncoro" None ∅ (mkStore ∅ ∅) example_fs {[ 7 := [] ]}.

Definition loc_a : Location := mkLocation "10.0.0.1" 5001.
Definition loc_b : Location := mkLocation "10.0.0.2" 5002.

Definition host_a : AsynCoro (gmap Z (list value)) :=
  @example_instance plain_library "a" loc_a (Some "alpha") (Some "5a").

Definition host_b : AsynCoro (gmap Z (list value)) :=
  @example_instance plain_library "b" loc_b (Some "beta") (Some "7b").

(** A request with every field set, for the round trip. *)
Definition example_request : _NetRequest :=
  mkReq "locate_peer" {[ "name" := VStr "b" ]} (Some loc_a) None (Some "5aalpha")
        (Some 3) (Some 140231) VNone (Some 2%Q).

(** A peer with one request in its queue; the request lives at address 1
    and its event at address 9. *)
Definition waiting_request : _NetRequest :=
  mkReq "send" {[ "coro" := VInt 7; "message" := VStr "hello" ]} None (Some loc_b)
        None (Some 9) None VNone (Some 2%Q).

Definition example_store : Store := mkStore {[ 1 := waiting_request ]} {[ 9 := false ]}.

Definition example_peer : _Peer :=
  mkPeer loc_b (Some "7balpha") None None false None [1] true.

(** A network that refuses the connection. *)
Definition refusing : proc_env :=
  mkProcEnv (Raise (socket_error false)) (Ret ()) (Ret VNone).

(** [host_a] while a coroutine waits in [locate]: the request is at
    address 1 under the id 140231, its event at address 9. *)
Definition locate_request : _NetRequest :=
  mkReq "locate_peer" {[ "name" := VStr "b" ]} (Some loc_a) None None
        (Some 9) (Some 140231) VNone None.

Definition host_a_waiting : AsynCoro (gmap Z (list value)) :=
  set_store (set_requests host_a {[ 140231 := 1 ]})
            (mkStore {[ 1 := locate_request ]} {[ 9 := false ]}).

(** The answer of [host_b] to that request, as it arrives at [host_a]. *)
Definition locate_answer : _NetRequest :=
  mkReq "locate_peer" {[ "name" := VStr "b" ]} (Some loc_a) (Some loc_a)
        (Some "5aalpha") None (Some 140231) (VLoc loc_b) None.

(** A [deliver] for the coroutine 7 of [host_a]. *)
Definition deliver_request : _NetRequest :=
  mkReq "deliver" {[ "coro" := VInt 7; "message" := VStr "hello" ]} None (Some loc_a)
        (Some "5aalpha") None None VNone (Some 2%Q).

(** A [locate_peer] for the name of [host_a]: synchronous, and with the
    answer expected at [loc_b], which is not a peer of [host_a]. *)
Definition locate_a_inline : _NetRequest :=
  mkReq "locate_peer" {[ "name" := VStr "a" ]} None None (Some "5aalpha")
        None None VNone None.

Definition locate_a_from_b : _NetRequest :=
  mkReq "locate_peer" {[ "name" := VStr "a" ]} (Some loc_b) None (Some "5aalpha")
        None (Some 140555) VNone None.

(** [send_file] requests for [host_a]: the file [data] of 4 bytes into
    [sub], where a file of that name, size and mode lies already; and the
    file [g] of 3 bytes into [../asyncoro2]. *)
Definition send_data_request : _NetRequest :=
  mkReq "send_file"
        {[ "file" := VStr "data"; "dest_path" := VStr "sub";
           "stat_buf" := VStat (mkStat 33188 4 90 (201 # 2)); "overwrite" := VBool false ]}
        None (Some loc_a) (Some "5aalpha") None None VNone None.

Definition send_outside_request : _NetRequest :=
  mkReq "send_file"
        {[ "file" := VStr "g"; "dest_path" := VStr "../asyncoro2";
           "stat_buf" := VStat (mkStat 33188 3 50 60); "overwrite" := VBool false ]}
        None (Some loc_a) (Some "5aalpha") None None VNone None.

(** The payload of [g] arrives in one piece. *)
Definition payload_env : tcp_env :=
  mkTcpEnv (fun _ _ => connect_failed) true [Ret "abc"] 200.

(** A [del_file] request for [host_a]: the file [f] with [dest_path]
    [..], which the sender's check on absolute paths lets through. *)
Definition del_outside_request : _NetRequest :=
  mkReq "del_file" {[ "file" := VStr "f"; "dest_path" := VStr ".." ]}
        None (Some loc_a) (Some "5aalpha") None None VNone None.

(** A digest with the shape of SHA-1: 40 hexadecimal digits, computed
    from the code points of the text by a polynomial modulo [16^40]. Like
    every digest of bounded length it has collisions. *)
Definition hex_digit (n : Z) : ascii :=
  ascii_of_nat (Z.to_nat (if n <? 10 then 48 + n else 87 + n)).

Fixpoint hex_of (digits : nat) (z : Z) : string :=
  match digits with
  | O => EmptyString
  | Datatypes.S k => (hex_of k (z / 16) ++ String (hex_digit (z mod 16)) EmptyString)%string
  end.

Definition folded_digest (s : string) : string :=
  hex_of 40 (fold_left
               (fun h c => (h * 210306068529402873165736369884012333109
                            + Z.of_nat (nat_of_ascii c) + 1) mod 16 ^ 40)
               (list_ascii_of_string s) 7).

Definition folding_library : Library :=
  {| sha1_hexdigest := folded_digest;
     int_of_text s := if String.eqb s "" then None else decimal 0 s |}.

(** [host_a] and [host_b] with the credentials that this digest gives
    them. *)
Definition host_a_folded : AsynCoro (gmap Z (list value)) :=
  @example_instance folding_library "a" loc_a (Some "alpha") (Some "5a").

Definition host_b_folded : AsynCoro (gmap Z (list value)) :=
  @example_instance folding_library "b" loc_b (Some "beta") (Some "7b").

(** [host_c] has the secret of [host_a]; in [a_paired] and [c_paired] the
    handshake is done: each holds the other under the other's auth code. *)
Definition host_c : AsynCoro (gmap Z (list value)) :=
  @example_instance plain_library "c" loc_b (Some "alpha") (Some "7b").

Definition a_paired : AsynCoro (gmap Z (list value)) :=
  set_peers host_a {[ key_of loc_b := Peer loc_b (Some "7balpha") None None ]}.

Definition c_paired : AsynCoro (gmap Z (list value)) :=
  set_peers host_c {[ key_of loc_a := Peer loc_a (Some "5aalpha") None None ]}.

(** A network that delivers every message. *)
Definition delivering_env : tcp_env :=
  mkTcpEnv (fun _ _ => received "") true [] 200.

(** [host_a] with [max_file_size] set to 2 bytes. *)
Definition host_a_limited : AsynCoro (gmap Z (list value)) :=
  mkAsynCoro (__version__ host_a) (_name host_a) (_location host_a) (_secret host_a)
    (_signature host_a) (_auth_code host_a) (_keyfile host_a) (_certfile host_a)
    (_stream_peers host_a) (_rcoros host_a) (_rchannels host_a) (_rcis host_a)
    (_requests host_a) (dest_path_prefix host_a) (Some 2) (peers host_a) (store host_a)
    (fs host_a) (scheduler host_a).

(** [send_data_request] for a file that was modified 100 seconds after
    the one at the target. *)
Definition send_newer_request : _NetRequest :=
  mkReq "send_file"
        {[ "file" := VStr "data"; "dest_path" := VStr "sub";
           "stat_buf" := VStat (mkStat 33188 4 90 200); "overwrite" := VBool false ]}
        None (Some loc_a) (Some "5aalpha") None None VNone None.

(** The answer to [locate_a_from_b] that [a_paired] sends to [loc_b]: the
    request with the location in [reply], under the auth code of the
    peer. *)
Definition locate_a_answer : _NetRequest :=
  mkReq "locate_peer" {[ "name" := VStr "a" ]} (Some loc_b) None (Some "7balpha")
        None (Some 140555) (VLoc loc_a) None.

(** What the senders [AsynCoro.send_file] and [AsynCoro.del_file] do with
    [dest_path] before they build the request: a non-empty string is
    stripped, and rejected when it is absolute
    ([os.path.join(os.sep, dest_path) == dest_path]). [None]: the call
    returns [-1] and nothing is sent. *)
Definition sender_dest_path (dest_path : value) : option value :=
  match dest_path with
  | VStr d =>
      if negb (String.eqb d "") then
        let d := strip d in
        if String.eqb (posixpath.join posixpath.sep [d]) d then None else Some (VStr d)
      else Some dest_path
  | _ => Some dest_path
  end.

(** The containment that the specification asks for: the canonical path
    [p] is the directory [prefix] or lies below it. *)
Definition lies_under (prefix p : string) : bool :=
  String.eqb p prefix || posixpath.startswith p (prefix ++ posixpath.sep)%string.

(** ** The registries of named coroutines and channels *)

Section Registries.
Context {S : Type}.
Implicit Type self : AsynCoro S.

Definition set_rcoros self (r : gmap string value) : AsynCoro S :=
  mkAsynCoro (__version__ self) (_name self) (_location self) (_secret self)
    (_signature self) (_auth_code self) (_keyfile self) (_certfile self)
    (_stream_peers self) r (_rchannels self) (_rcis self) (_requests self)
    (dest_path_prefix self) (max_file_size self) (peers self) (store self)
    (fs self) (scheduler self).

Definition set_rchannels self (r : gmap string value) : AsynCoro S :=
  mkAsynCoro (__version__ self) (_name self) (_location self) (_secret self)
    (_signature self) (_auth_code self) (_keyfile self) (_certfile self)
    (_stream_peers self) (_rcoros self) r (_rcis self) (_requests self)
    (dest_path_prefix self) (max_file_size self) (peers self) (store self)
    (fs self) (scheduler self).

(** What [_register_coro] and [_register_channel] do with their
    dictionary: [if d.get(name, None) is None: d[name] = obj; return 0],
    else [-1]. *)
Definition register (d : gmap string value) (obj : value) (name : string)
  : Z * gmap string value :=
  if bool_decide (registry_get d (VStr name) = VNone)
  then (0, <[name := obj]> d) else (-1, d).

(** What [_unregister_coro] and [_unregister_channel] do with their
    dictionary: [if d.get(name, None) is obj: d.pop(name); return 0], else
    [-1]. The registered objects are coroutines and channels, which the
    values of the model name; [is] on them is equality of the names.
    [None] is the [KeyError] of [d.pop(name)], which [obj = None] for a
    name that is not there runs into. *)
Definition unregister (d : gmap string value) (obj : value) (name : string)
  : option (Z * gmap string value) :=
  if bool_decide (registry_get d (VStr name) = obj) then
    match d !! name with
    | Some _ => Some (0, delete name d)
    | None => None
    end
  else Some (-1, d).

Definition _register_channel self (channel : value) (name : string) : Z * AsynCoro S :=
  let '(status, d) := register (_rchannels self) channel name in
  (status, set_rchannels self d).

Definition _unregister_channel self (channel : value) (name : string)
  : option (Z * AsynCoro S) :=
  '(status, d) ← unregister (_rchannels self) channel name;
  Some (status, set_rchannels self d).

Definition _register_coro self (coro : value) (name : string) : Z * AsynCoro S :=
  let '(status, d) := register (_rcoros self) coro name in
  (status, set_rcoros self d).

Definition _unregister_coro self (coro : value) (name : string)
  : option (Z * AsynCoro S) :=
  '(status, d) ← unregister (_rcoros self) coro name;
  Some (status, set_rcoros self d).

End Registries.

(** ** The coroutines of the local side *)

(** [Event()]: a new event, not set. *)
Definition new_event (σ : Store) : Z * Store :=
  let e := fresh (dom (events σ)) in (e, mkStore (heap σ) (<[e := false]> (events σ))).

(** [event.is_set()] *)
Definition is_set (σ : Store) (e : Z) : bool := bool_decide (events σ !! e = Some true).

Definition set_id (r : _NetRequest) (i : option Z) : _NetRequest :=
  mkReq (name r) (kwargs r) (src r) (dst r) (auth r) (event r) i (reply r) (timeout r).

(** What [yield event.wait(timeout)] evaluates to when the coroutine is
    resumed: [False] after a timeout ([timed_out]), and not [False] when
    the event was set. *)
Inductive wake := event_was_set | timed_out.

(** A generator of the transport between two of its [yield]s. It has
    returned a value (its [StopIteration]), an exception has left it, or
    it is suspended: on an event, or on a fresh socket on which it
    connects to [to] and, once connected, sends [msg]. A suspended
    generator goes on from the state of the instance that it finds when
    the scheduler resumes it: the other coroutines have run meanwhile. *)
Inductive coroutine (S A : Type) : Type :=
| returned (v : A) (self : AsynCoro S)
| raised (self : AsynCoro S)
| waits (e : Z) (timeout : option Q) (self : AsynCoro S)
        (resume : AsynCoro S -> wake -> coroutine S A)
| sends (to : Location) (msg : _NetRequest) (self : AsynCoro S)
        (resume : AsynCoro S -> net_outcome -> coroutine S A).
Arguments returned {S A} v self.
Arguments raised {S A} self.
Arguments waits {S A} e timeout self resume.
Arguments sends {S A} to msg self resume.

(** [x = yield c; f(x)]: a generator that runs another one to its end. *)
Fixpoint bind {S A B : Type} (c : coroutine S A) (f : A -> AsynCoro S -> coroutine S B)
  : coroutine S B :=
  match c with
  | returned v self => f v self
  | raised self => raised self
  | waits e t self k => waits e t self (fun s w => bind (k s w) f)
  | sends to m self k => sends to m self (fun s o => bind (k s o) f)
  end.

Section Requests.
Context {S : Type} `{!LocalScheduler S} `{!Library}.
Implicit Type self : AsynCoro S.

(** [_async_reply(req, peer, dst)] for the request object at [a]. The
    connection and the send are one suspension. Every exception is
    caught: a request without destination ([dst.addr] raises) and a
    failed connection leave the request as it was; after the connection
    is made, [req.auth] is the auth code of [peer]. *)
Definition _async_reply self (a : Z) (peer : _Peer) (dst' : option Location)
  : coroutine S unit :=
  match heap (store self) !! a with
  | None => raised self
  | Some req =>
      match (match dst' with Some d => Some d | None => dst req end) with
      | None => returned () self
      | Some d =>
          sends d (on_wire (set_auth req (peer_auth peer))) self
                (fun self out =>
                   match out with
                   | connect_failed => returned () self
                   | _ => returned ()
                            (set_store self
                               (update (store self) a
                                       (fun r => set_auth r (peer_auth peer))))
                   end)
      end
  end.

(** [_sync_reply(req, alarm_value)] for the request object at [a]: the
    assertion on [src], a new event in [req.event], [_Peer.send_req(req)]
    (its status is dropped), then the wait on the event with
    [req.timeout]. *)
Definition _sync_reply self (a : Z) (alarm_value : value) : coroutine S value :=
  match heap (store self) !! a with
  | None => raised self
  | Some req =>
      if negb (src_is_none req) then raised self
      else
        let '(e, σ) := new_event (store self) in
        let σ := update σ a (fun r => set_event r (Some e)) in
        match send_req (peers self) σ a with
        | None => raised (set_store self σ)
        | Some (_, ps) =>
            waits e (timeout req) (set_peers (set_store self σ) ps)
                  (fun self w =>
                     match w with
                     | timed_out => returned alarm_value self
                     | event_was_set =>
                         match heap (store self) !! a with
                         | Some r => returned (reply r) self
                         | None => raised self
                         end
                     end)
        end
  end.

(** The loop [for (addr, port), peer in list(_Peer.peers.items())] of
    [locate] over the items [todo]: it is left by [break] when the event
    is set ([true]), or it runs out ([false]). The list is a copy: peers
    that come or go while the loop runs do not change it. *)
Fixpoint locate_loop (a e : Z) (todo : list (string * Z * _Peer)) self
  : coroutine S bool :=
  match todo with
  | [] => returned false self
  | (k, peer) :: rest =>
      if is_set (store self) e then returned true self
      else bind (_async_reply self a peer (Some (mkLocation k.1 k.2)))
                (fun _ self => locate_loop a e rest self)
  end.

(** What [AsynCoro.locate] and, without a location, [RCI.locate] do for
    the verb [verb]: the request with [src] the own location gets an
    event and its own [id(req)] (the number [i]) and is entered in
    [_requests]; it is sent to the peers of the table until the event is
    set; then, unless the loop was left by [break], the coroutine waits
    for the event, and after a timeout the entry is popped and the reply
    is [None]. The result is [req.reply]. The items of the dictionary
    are taken in the order of [map_to_list]. *)
Definition locate_at_peers self (verb : string) (n : string) (timeout : option Q) (i : Z)
  : coroutine S value :=
  let req := NetRequest verb {[ "name" := VStr n ]} (Some (_location self)) None None None in
  let '(e, σ) := new_event (store self) in
  let '(a, σ) := alloc σ (set_id (set_event req (Some e)) (Some i)) in
  let self := set_requests (set_store self σ) (<[i := a]> (_requests self)) in
  let result self :=
    match heap (store self) !! a with
    | Some r => returned (reply r) self
    | None => raised self
    end in
  bind (locate_loop a e (map_to_list (peers self)) self)
       (fun broke self =>
          if broke then result self
          else waits e timeout self
                     (fun self w =>
                        match w with
                        | event_was_set => result self
                        | timed_out =>
                            result (set_store
                                      (set_requests self (delete i (_requests self)))
                                      (update (store self) a (fun r => set_reply r VNone)))
                        end)).

(** [AsynCoro.locate(name, timeout)] *)
Definition locate self (n : string) (timeout : option Q) (i : Z) : coroutine S value :=
  locate_at_peers self "locate_peer" n timeout i.

(** [RCI.locate(name, location, timeout)]; [RCI._asyncoro] is the
    instance. *)
Definition RCI_locate self (n : string) (location : option Location)
           (timeout : option Q) (i : Z) : coroutine S value :=
  match location with
  | None => locate_at_peers self "locate_rci" n timeout i
  | Some l =>
      let req := NetRequest "locate_rci" {[ "name" := VStr n ]} None (Some l) None timeout in
      let '(a, σ) := alloc (store self) req in
      _sync_reply (set_store self σ) a VNone
  end.

(** [AsynCoro.del_file(location, file, dest_path, timeout)] *)
Definition del_file self (location : Location) (file : string) (dest_path : value)
           (timeout : option Q) : coroutine S value :=
  match sender_dest_path dest_path with
  | None => returned minus_one self
  | Some dest_path =>
      let kwargs : gmap string value :=
        {[ "file" := VStr (posixpath.basename file); "dest_path" := dest_path ]} in
      let req := NetRequest "del_file" kwargs None (Some location) None timeout in
      let '(a, σ) := alloc (store self) req in
      bind (_sync_reply (set_store self σ) a VNone)
           (fun reply self =>
              returned (if bool_decide (reply = VNone) then minus_one else reply) self)
  end.

End Requests.

(** ** AsynCoro.send_file: the sender *)

(** [open(p, 'rb')] and what is left to read: the bytes of the file.
    [None] is an [OSError]. *)
Definition open_rb (f : os.filesystem) (p : string) : option string :=
  q ← os.resolve f p; os.f_data <$> os.fs_files f !! q.

(** [fd.read(n)]: at most [n] bytes, and what is left to read. *)
Fixpoint read (n : Z) (fd : string) : string * string :=
  match fd with
  | EmptyString => (EmptyString, EmptyString)
  | String c fd' =>
      if n <=? 0 then (EmptyString, fd)
      else let '(data, rest) := read (n - 1) fd' in (String c data, rest)
  end.

(** The reads of [n] bytes up to the first empty one; every read but the
    last takes a byte, so the length of the rest bounds the rounds. *)
Fixpoint pieces (rounds : nat) (n : Z) (fd : string) : list string :=
  match rounds with
  | O => []
  | Datatypes.S k =>
      let '(data, rest) := read n fd in
      if String.eqb data "" then [] else data :: pieces k n rest
  end.

(** [x == 0] and [x == True] on the values of the model. *)
Definition eq_zero (v : value) : bool :=
  match v with VInt z => z =? 0 | VBool b => negb b | _ => false end.

Definition eq_true (v : value) : bool :=
  match v with VInt z => z =? 1 | VBool b => b | _ => false end.

(** What the network and the peer answer to the sender, step by step:
    to [connect], to [send_msg], to the first [recv_msg] (with
    [unserialize]), to the [sendall] of the piece number [i], and to the
    second [recv_msg]. *)
Record transfer_env := mkTransferEnv {
  t_connect : io unit;
  t_send : io unit;
  t_reply : io value;
  t_sendall : nat -> io unit;
  t_resp : io value
}.

(** What the sender does on its socket: it calls [connect] (which may
    fail), sends the request, sends a piece of the file, and closes the
    socket. *)
Inductive transfer_event :=
| t_connected (to : Location)
| t_sent (r : _NetRequest)
| t_data (piece : string)
| t_closed.

Section Sender.
Context {S : Type}.
Implicit Type self : AsynCoro S.

(** The checks of [send_file] before it opens a socket, and the request
    it builds: the file must be a regular file that its owner may read,
    [dest_path] must not be absolute, and [location] must be a peer.
    [os.stat] raises for what does not exist; for what is not a regular
    file the test on the mode fails: both give [None] here, and [-1] in
    [send_file]. *)
Definition send_file_request self (location : Location) (file : string) (dest_path : value)
           (overwrite : value) (timeout : option Q) : option (_Peer * _NetRequest) :=
  stat_buf ← os.stat (fs self) file;
  if negb (negb (Z.land (os.S_IMODE (st_mode stat_buf)) os.S_IREAD =? 0)
           && os.S_ISREG (st_mode stat_buf))
  then None
  else
    dest_path ← sender_dest_path dest_path;
    peer ← peers self !! key_of location;
    let kwargs : gmap string value :=
      {[ "file" := VStr (posixpath.basename file); "stat_buf" := VStat stat_buf;
         "overwrite" := VBool (eq_true overwrite); "dest_path" := dest_path ]} in
    Some (peer, NetRequest "send_file" kwargs None (Some location) None timeout).

(** The loop that sends the file piece by piece, up to the first
    [sendall] that raises ([false]). *)
Fixpoint send_pieces (env : transfer_env) (i : nat) (ps : list string)
  : bool * list transfer_event :=
  match ps with
  | [] => (true, [])
  | p :: rest =>
      match t_sendall env i with
      | Raise _ => (false, [])
      | Ret _ =>
          let '(ok, tr) := send_pieces env (Datatypes.S i) rest in
          (ok, t_data p :: tr)
      end
  end.

(** [AsynCoro.send_file(location, file, dest_path, overwrite, timeout)]:
    the value of its [StopIteration] and what it did on its socket. Every
    exception inside the [try] gives [-1], and the socket is closed in
    all cases. *)
Definition send_file self (location : Location) (file : string) (dest_path : value)
           (overwrite : value) (timeout : option Q) (env : transfer_env)
  : value * list transfer_event :=
  match send_file_request self location file dest_path overwrite timeout with
  | None => (minus_one, [])
  | Some (peer, req) =>
      let failed tr := (minus_one, tr ++ [t_closed]) in
      match t_connect env with
      | Raise _ => failed [t_connected location]
      | Ret _ =>
          let req := set_auth req (peer_auth peer) in
          let tr := [t_connected location; t_sent (on_wire req)] in
          match t_send env with
          | Raise _ => failed tr
          | Ret _ =>
              match t_reply env with
              | Raise _ => failed tr
              | Ret reply =>
                  if eq_zero reply then
                    match open_rb (fs self) file with
                    | None => failed tr
                    | Some fd =>
                        let '(ok, sent) :=
                          send_pieces env 0 (pieces (Datatypes.S (String.length fd))
                                                    1024000 fd) in
                        if ok then
                          match t_resp env with
                          | Ret resp =>
                              (if eq_zero resp then VInt 0 else minus_one,
                               tr ++ sent ++ [t_closed])
                          | Raise _ => failed (tr ++ sent)
                          end
                        else failed (tr ++ sent)
                    end
                  else (reply, tr ++ [t_closed])
              end
          end
      end
  end.

End Sender.

(** ** Coroutines on a schedule *)

(** What the rest of the system has done when a suspended coroutine is
    resumed: the outcome of its connection and send with the instance as
    it is then, and what its wait ended with ([None]: it is never
    resumed). *)
Record schedule (S : Type) := mkSchedule {
  after_send : AsynCoro S -> Location -> _NetRequest -> net_outcome * AsynCoro S;
  after_wait : AsynCoro S -> Z -> option Q -> option (wake * AsynCoro S)
}.
Arguments mkSchedule {S}.
Arguments after_send {S}.
Arguments after_wait {S}.

Inductive outcome (S A : Type) :=
| finished (v : A) (self : AsynCoro S)
| failed (self : AsynCoro S)
| blocked (self : AsynCoro S).
Arguments finished {S A} v self.
Arguments failed {S A} self.
Arguments blocked {S A} self.

(** A coroutine run on a schedule, with the messages it sent. *)
Fixpoint run {S A : Type} (w : schedule S) (c : coroutine S A)
  : outcome S A * list (Location * _NetRequest) :=
  match c with
  | returned v self => (finished v self, [])
  | raised self => (failed self, [])
  | waits e t self k =>
      match after_wait w self e t with
      | Some (wk, self') => run w (k self' wk)
      | None => (blocked self, [])
      end
  | sends to m self k =>
      let '(out, self') := after_send w self to m in
      let '(r, tr) := run w (k self' out) in
      (r, match out with connect_failed => tr | _ => (to, m) :: tr end)
  end.

(** A wait during which nothing else happens: the coroutine goes on at
    once when the event is set, after the timeout when there is one, and
    never otherwise. *)
Definition quiet_wait {S : Type} (self : AsynCoro S) (e : Z) (timeout : option Q)
  : option (wake * AsynCoro S) :=
  if is_set (store self) e then Some (event_was_set, self)
  else match timeout with
       | Some _ => Some (timed_out, self)
       | None => None
       end.

Section Schedules.
Context {S : Type} `{!LocalScheduler S} `{!Library}.
Implicit Type A B : AsynCoro S.

(** What [recv_msg] and [unserialize] give to the other side of a
    connection when it reads for the [i]-th time during a round of [B]:
    the reply number [i] of the round, when [B] sent one and its sends
    succeed. Without such a reply, a round that left the loop of the task
    has closed the connection ([conn.close()] is the last statement of
    [_tcp_task]): nothing is read and [unserialize] raises. A round that
    stays in its loop keeps the connection open and sends nothing more,
    and so does a task that an exception has left without closing:
    [recv_msg] does not return ([None]). *)
Definition reads (envB : tcp_env) (r : result S) (i : nat) : option (io value) :=
  match (if conn_ok envB then replies (r_trace r) !! i else None) with
  | Some v => Some (Ret v)
  | None =>
      match r_status r with
      | Break => Some (Raise other_exception)
      | Continue | Crashed => None
      end
  end.

(** The worker of [p] while it waits in [recv_msg] for the answer to the
    request at [a]: it has taken the request from the queue, has opened a
    connection if it had none, has set [req.auth] and has sent the
    request. *)
Definition sent_and_waiting (p : _Peer) (σ : Store) (a : Z) (req : _NetRequest)
  : _Peer * Store :=
  let sock := match conn p with
              | None => mkSocket (if timeout_set (timeout req) then timeout req else None)
              | Some _ => mkSocket (timeout req)
              end in
  (set_conn (set_reqs p (tail (reqs p)) (reqs_pending p)) (Some sock),
   update σ a (fun r => set_auth r (peer_auth p))).

(** The message that the worker put on its socket. *)
Definition sent_message (tr : list sock_event) : option _NetRequest :=
  head (omap (fun e => match e with SendMsg m => Some m | _ => None end) tr).

(** The worker of the peer at [l] takes the request at the head of its
    queue while the instance [B] listens at [l], on a network that
    connects and delivers: the task of [B] runs one round on the message
    that the worker sent, and the worker reads the first reply of that
    round, or waits for it. What the worker sends does not depend on
    what it reads afterwards: the message is taken from its round with a
    read that fails. *)
Definition worker_round (envB : tcp_env) B (l : Location) A : AsynCoro S :=
  match peers A !! key_of l with
  | Some p =>
      let round answer :=
        req_proc_round p (store A) (mkProcEnv (Ret ()) (Ret ()) answer) in
      match round (Raise other_exception) with
      | Served a _ _ tr =>
          match sent_message tr, heap (store A) !! a with
          | Some msg, Some req =>
              match reads envB (_tcp_task_round envB B (request msg)) 0 with
              | Some answer =>
                  match round answer with
                  | Served _ p' σ' _ =>
                      set_peers (set_store A σ') (<[key_of l := p']> (peers A))
                  | _ => A
                  end
              | None =>
                  let '(p', σ') := sent_and_waiting p (store A) a req in
                  set_peers (set_store A σ') (<[key_of l := p']> (peers A))
              end
          | _, _ => A
          end
      | _ => A
      end
  | None => A
  end.

(** The schedule of a synchronous request to [l]: while the coroutine
    waits, the worker of the peer takes the request. The coroutine goes
    on when the worker has set the event of the request; when the worker
    itself waits for [B], the wait of the coroutine ends with its
    timeout, if it has one. *)
Definition served_by (envB : tcp_env) B (l : Location) : schedule S :=
  mkSchedule (fun A _ _ => (connect_failed, A))
             (fun A e t => quiet_wait (worker_round envB B l A) e t).

(** The schedule of [locate] with [B] on the network: a message to [B]
    is handled by [B] before the coroutine goes on, and so is what [B]
    then sends to [A]; the other peers take the message and stay silent. *)
Definition answered_by (envA envB : tcp_env) B : schedule S :=
  mkSchedule (fun A to m =>
                if bool_decide (to = _location B)
                then (received "", (exchange_with envA envB A B m).1)
                else (net envA to m, A))
             quiet_wait.

(** The request that the sender put on its socket, and the bytes that
    it sent after it. *)
Definition sent_request (tr : list transfer_event) : option _NetRequest :=
  head (omap (fun e => match e with t_sent r => Some r | _ => None end) tr).

Definition sent_bytes (tr : list transfer_event) : string :=
  foldr (fun e rest => match e with t_data piece => (piece ++ rest)%string | _ => rest end)
        EmptyString tr.

(** [send_file] at [A] with [B] at the other end of its socket, on a
    network that connects and delivers what is sent. [B] gets the
    request that [send_file] sent. The first reply of [B] does not wait
    for the payload: it is the first reply of the round of [B] on no
    payload, and [send_file] goes on from it. [B] then gets as payload
    the bytes that [send_file] sent, in the pieces its [recvall] asks
    for, and [send_file] reads the second reply of that round; it only
    reads a second time after a first reply [0]. The result is the value
    that [send_file] returns and [B] afterwards; [None]: [send_file]
    waits in [recv_msg] for a reply that does not come. *)
Definition transfer (envB : tcp_env) A B (file : string) (dest_path overwrite : value)
           (timeout : option Q) : option (value * AsynCoro S) :=
  let sender reply resp :=
    send_file A (_location B) file dest_path overwrite timeout
              (mkTransferEnv (Ret ()) (Ret ()) reply (fun _ => Ret ()) resp) in
  let nothing : io value := Raise other_exception in
  match sent_request (sender nothing nothing).2 with
  | None => Some ((sender nothing nothing).1, B)
  | Some msg =>
      let listen payload :=
        _tcp_task_round (mkTcpEnv (net envB) (conn_ok envB) payload (now envB))
                        B (request msg) in
      first ← reads envB (listen []) 0;
      let stream := sent_bytes (sender first nothing).2 in
      let rB := listen (Ret <$> pieces (Datatypes.S (String.length stream)) 10240000 stream) in
      match first with
      | Ret v =>
          if eq_zero v
          then second ← reads envB rB 1; Some ((sender first second).1, r_state rB)
          else Some ((sender first nothing).1, r_state rB)
      | Raise _ => Some ((sender first nothing).1, r_state rB)
      end
  end.

End Schedules.

(** ** Abbreviations of the properties *)

(** What one round keeps: the identity of the peer, the events that are
    set, and the [event] slot of every request. *)
Definition round_keeps (self : _Peer) (σ : Store) (p' : _Peer) (σ' : Store) : Prop :=
  location p' = location self /\ peer_auth p' = peer_auth self /\ stream p' = stream self
  /\ (forall b, event <$> heap σ' !! b = event <$> heap σ !! b)
  /\ (forall e, events σ !! e = Some true -> events σ' !! e = Some true).

(** A network on which the exchange succeeds and the peer answers [v]. *)
Definition answering (v : value) : proc_env := mkProcEnv (Ret ()) (Ret ()) (Ret v).

(** The message that the worker of [p] writes for the request [r]. *)
Definition stamped (p : _Peer) (r : _NetRequest) : _NetRequest :=
  on_wire (set_auth r (peer_auth p)).

(** The [connect] that precedes the first request when no connection is
    open. *)
Definition opening (p : _Peer) : list sock_event :=
  match conn p, reqs p with
  | None, _ :: _ => [Connect (location p)]
  | _, _ => []
  end.

(** The actions of a trace other than [conn.close()]. *)
Definition open_trace (tr : list action) : Prop := Forall (fun a => a <> conn_close) tr.

(** The request that [locate] enters in [_requests]. *)
Definition pending_locate {S : Type} (self : AsynCoro S) (n : string) (e i : Z)
  : _NetRequest :=
  set_id (set_event (NetRequest "locate_peer" {[ "name" := VStr n ]}
                                (Some (_location self)) None None None)
                    (Some e))
         (Some i).

(** The instance [Ax] of the coroutine of [A] that still waits for the
    answer to the request at [a], and an instance that has it. *)
Definition awaiting {S : Type} (A Ax : AsynCoro S) (n : string) (a e i : Z) : Prop :=
  _location Ax = _location A /\ _auth_code Ax = _auth_code A
  /\ peers Ax = peers A
  /\ _requests Ax = <[i := a]> (_requests A)
  /\ events (store Ax) !! e = Some false
  /\ exists c, heap (store Ax) !! a = Some (set_auth (pending_locate A n e i) c).

Definition answered {S : Type} (A Ay : AsynCoro S) (a e i : Z) (v : value) : Prop :=
  is_set (store Ay) e = true
  /\ reply <$> heap (store Ay) !! a = Some v
  /\ _requests Ay !! i = None
  /\ peers Ay = peers A.

(** ** More requests for the examples *)

(** The payload of [g] breaks off after two of its three bytes. *)
Definition short_env : tcp_env :=
  mkTcpEnv (fun _ _ => connect_failed) true [Ret "ab"] 200.

(** The [pong] of [host_c] as it arrives at [host_a]. *)
Definition pong_from_c : _NetRequest :=
  mkReq "pong" (hello host_c) None (Some loc_a) (Some "5aalpha") None None VNone None.

(** [host_b] says good-bye to [host_a]. *)
Definition terminate_request : _NetRequest :=
  mkReq "terminate" {[ "peer" := VLoc loc_b ]} None (Some loc_a) (Some "5aalpha")
        None None VNone None.

(** A [locate_coro] for the name [worker]. *)
Definition locate_worker_request : _NetRequest :=
  mkReq "locate_coro" {[ "name" := VStr "worker" ]} None None (Some "5aalpha")
        None None VNone None.

(** [a_paired] with a [del_file] request for [host_c] at address 1. *)
Definition del_data_request : _NetRequest :=
  NetRequest "del_file" {[ "file" := VStr "data"; "dest_path" := VStr "sub" ]}
             None (Some loc_b) None None.

Definition a_asking : AsynCoro (gmap Z (list value)) :=
  set_store a_paired (mkStore {[ 1 := del_data_request ]} ∅).

(** A resolver that knows every node as [10.0.0.2]; the datagram and the
    TCP ping go out. *)
Definition resolving_env : peer_env :=
  mkPeerEnv (fun _ => Some "10.0.0.2") (Ret ()) (received "").

(** The peer of [example_peer] with two requests in its queue, at the
    addresses 1 and 2; their events are at 9 and 10. *)
Definition second_request : _NetRequest :=
  mkReq "del_file" {[ "file" := VStr "data"; "dest_path" := VStr "sub" ]} None (Some loc_b)
        None (Some 10) None VNone None.

Definition two_store : Store :=
  mkStore {[ 1 := waiting_request; 2 := second_request ]} {[ 9 := false; 10 := false ]}.

Definition busy_peer : _Peer :=
  mkPeer loc_b (Some "7balpha") None None false None [1; 2] true.

(** [a_paired] with a request at address 1 whose verb no instance
    knows. *)
Definition unknown_request : _NetRequest :=
  NetRequest "status" ∅ None (Some loc_b) None None.

Definition a_asking_unknown : AsynCoro (gmap Z (list value)) :=
  set_store a_paired (mkStore {[ 1 := unknown_request ]} ∅).

(** [c_paired] with an RCI registered under the name [job]. *)
Definition c_with_rci : AsynCoro (gmap Z (list value)) :=
  mkAsynCoro (__version__ c_paired) (_name c_paired) (_location c_paired) (_secret c_paired)
    (_signature c_paired) (_auth_code c_paired) (_keyfile c_paired) (_certfile c_paired)
    (_stream_peers c_paired) (_rcoros c_paired) (_rchannels c_paired)
    {[ "job" := VHandle "rci" "job" loc_b ]}
    (_requests c_paired) (dest_path_prefix c_paired) (max_file_size c_paired)
    (peers c_paired) (store c_paired) (fs c_paired) (scheduler c_paired).

(** * Properties *)

(** ** The envelope on the wire *)

(** The slots that [__setstate__] assigns on a fresh object are the
    envelope fields of the request; [event] stays unassigned. *)
Lemma setstate_getstate (req : _NetRequest) :
  __setstate__ ∅ (__getstate__ req) = Some (delete "event" (attrs_of req)).
Proof. destruct req. vm_compute. reflexivity. Qed.

Lemma request_of_wire_attrs (req : _NetRequest) :
  request_of_attrs (delete "event" (attrs_of req)) = Some (on_wire req).
Proof. destruct req. vm_compute. reflexivity. Qed.

Section RoundTrip.
Context {wire : Type} `{!Serialiser wire}.
Hypothesis loads_dumps : forall state, loads (dumps state) = Some state.

(** C7. A request that is serialised and unserialised comes back equal on
    the eight envelope fields [name], [kwargs], [src], [dst], [auth], [id],
    [reply] and [timeout]; the [event] slot is not part of the state and is
    unset on the receiver. The serialiser is any one that gives back the
    state dictionary it was handed. *)
Theorem netrequest_roundtrip (req : _NetRequest) :
  exists req',
    unserialize (serialize req) = Some req' /\
    name req' = name req /\ kwargs req' = kwargs req /\
    src req' = src req /\ dst req' = dst req /\ auth req' = auth req /\
    id req' = id req /\ reply req' = reply req /\ timeout req' = timeout req /\
    event req' = None.
Proof.
  exists (on_wire req). split.
  - unfold unserialize, serialize. rewrite loads_dumps.
    unfold mbind, option_bind. rewrite setstate_getstate.
    apply request_of_wire_attrs.
  - destruct req; simpl; repeat split; reflexivity.
Qed.

End RoundTrip.

(** ** AsynCoro.peer *)

(** C9. [peer] returns [-1] exactly when the resolver fails on [node]; when
    it succeeds the result is [0] whatever the UDP send and the TCP
    connection do, so [0] says nothing about the peer. *)
Theorem peer_status {S : Type} (self : AsynCoro S) (node : string)
        (udp_port tcp_port : Z) (stream_send : bool) (env : peer_env) :
  ((peer self node udp_port tcp_port stream_send env).1.1 = -1
   <-> gethostbyname env node = None)
  /\ (forall ip, gethostbyname env node = Some ip ->
                 (peer self node udp_port tcp_port stream_send env).1.1 = 0).
Proof.
  unfold peer. split.
  - destruct (gethostbyname env node); simpl; split; intros; congruence.
  - intros ip Hip. rewrite Hip. reflexivity.
Qed.

(** Both sends fail and the result is still [0]. *)
Example peer_unreachable :
  (peer host_a "nowhere" 0 5002 false
        (mkPeerEnv (fun _ => Some "10.9.9.9") (Raise (socket_error false)) connect_failed)).1.1
  = 0.
Proof. reflexivity. Qed.

(** ** The drain worker *)

Lemma heap_update_lookup (σ : Store) (a : Z) (f : _NetRequest -> _NetRequest) (r : _NetRequest) :
  heap σ !! a = Some r -> heap (update σ a f) !! a = Some (f r).
Proof. intros Hr. simpl. rewrite lookup_alter_eq, Hr. reflexivity. Qed.

Lemma reply_after_update (σ : Store) (a : Z) (v : value) (r : _NetRequest) :
  heap σ !! a = Some r ->
  reply <$> heap (update σ a (fun r => set_reply r v)) !! a = Some v.
Proof.
  intros Hr. rewrite (heap_update_lookup σ a (fun r => set_reply r v) r Hr).
  reflexivity.
Qed.

Lemma heap_signal (σ : Store) (e : option Z) : heap (signal σ e) = heap σ.
Proof. destruct e; reflexivity. Qed.

Lemma events_signal (σ : Store) (e : Z) : events (signal σ (Some e)) !! e = Some true.
Proof. simpl. apply lookup_insert_eq. Qed.

(** The exchange always ends in [Served]: the request is stamped, its
    event is set, and an exception closes the connection and leaves
    [reply] at [None]. *)
Lemma exchange_settles (p : _Peer) (σ : Store) (a : Z) (req : _NetRequest)
      (env : proc_env) (tr : list sock_event) :
  heap σ !! a = Some req ->
  exists p' σ' tr',
    exchange p σ a req env tr = Served a p' σ' tr' /\
    reqs p' = reqs p /\
    (forall e, event req = Some e -> events σ' !! e = Some true) /\
    (((exists x, on_send env = Raise x)
      \/ ((exists u, on_send env = Ret u) /\ exists x, on_recv env = Raise x)) ->
     conn p' = None /\ last tr' = Some Close /\
     reply <$> heap σ' !! a = Some VNone) /\
    (forall v, (exists u, on_send env = Ret u) -> on_recv env = Ret v ->
     conn p' = conn p /\ reply <$> heap σ' !! a = Some v).
Proof.
  intros Hreq. unfold exchange.
  assert (Hstamp : heap (update σ a (fun r => set_auth r (peer_auth p))) !! a
                   = Some (set_auth req (peer_auth p)))
    by exact (heap_update_lookup σ a (fun r => set_auth r (peer_auth p)) req Hreq).
  destruct (on_send env) as [u|x] eqn:Hsend; simpl.
  - destruct (on_recv env) as [v|x] eqn:Hrecv; simpl.
    + eexists _, _, _. split; [reflexivity|]. split; [reflexivity|].
      split; [| split].
      * intros e He. rewrite He. apply events_signal.
      * intros [[x Hx] | [_ [x Hx]]]; congruence.
      * intros v' _ Hv. injection Hv as <-. split; [reflexivity|].
        rewrite heap_signal. exact (reply_after_update _ _ _ _ Hstamp).
    + destruct x; (eexists _, _, _; split; [reflexivity|]; split; [reflexivity|];
        split; [| split];
        [ intros e He; rewrite He; apply events_signal
        | intros _; split; [reflexivity|]; split;
          [ apply last_snoc
          | rewrite heap_signal; exact (reply_after_update _ _ _ _ Hstamp) ]
        | intros v' _ Hv; congruence ]).
  - destruct x; (eexists _, _, _; split; [reflexivity|]; split; [reflexivity|];
      split; [| split];
      [ intros e He; rewrite He; apply events_signal
      | intros _; split; [reflexivity|]; split;
        [ apply last_snoc
        | rewrite heap_signal; exact (reply_after_update _ _ _ _ Hstamp) ]
      | intros v' [u Hu]; congruence ]).
Qed.

(** C5. For the request at the head of the queue of a peer's worker:
    - the round always settles it and goes on with the rest of the queue
      (it is [Served], and [req_proc] continues from the state it left);
    - its event, when it has one, is set whatever happened;
    - when no connection is open and [connect] raises, [conn] stays
      [None], [reply] is [None] and nothing was sent;
    - when [send_msg] or [recv_msg] (or [unserialize]) raises, whatever the
      exception, the connection is closed, [conn] is [None] and [reply] is
      [None]. *)
Theorem req_proc_settles (self : _Peer) (σ : Store) (env : proc_env)
        (a : Z) (rest : list Z) (req : _NetRequest) :
  reqs self = a :: rest ->
  heap σ !! a = Some req ->
  exists p' σ' tr,
    req_proc_round self σ env = Served a p' σ' tr /\
    reqs p' = rest /\
    (forall envs, req_proc self σ (env :: envs)
                  = '(p'', σ'', tr') ← req_proc p' σ' envs; Some (p'', σ'', tr ++ tr')) /\
    (forall e, event req = Some e -> events σ' !! e = Some true) /\
    (conn self = None -> (exists x, on_connect env = Raise x) ->
     conn p' = None /\ reply <$> heap σ' !! a = Some VNone /\
     tr = [Connect (location self)]) /\
    ((is_Some (conn self) \/ exists u, on_connect env = Ret u) ->
     ((exists x, on_send env = Raise x)
      \/ ((exists u, on_send env = Ret u) /\ exists x, on_recv env = Raise x)) ->
     conn p' = None /\ last tr = Some Close /\ reply <$> heap σ' !! a = Some VNone).
Proof.
  intros Hq Hreq.
  assert (Hrun : forall p' σ' tr,
             req_proc_round self σ env = Served a p' σ' tr ->
             forall envs, req_proc self σ (env :: envs)
               = '(p'', σ'', tr') ← req_proc p' σ' envs; Some (p'', σ'', tr ++ tr')).
  { intros p' σ' tr Hround envs. simpl. rewrite Hround. reflexivity. }
  unfold req_proc_round in *. rewrite Hq, Hreq in *. simpl in *.
  destruct (conn self) as [s|] eqn:Hconn.
  - destruct (exchange_settles
                (set_conn (set_reqs self rest (reqs_pending self))
                          (Some (mkSocket (timeout req)))) σ a req env [] Hreq)
      as (p' & σ' & tr & Hex & Hrest & Hev & Hfail & _).
    exists p', σ', tr. rewrite Hex in *.
    split; [reflexivity|]. split; [exact Hrest|]. split; [apply Hrun; reflexivity|].
    split; [exact Hev|]. split; [intros; congruence|].
    intros _ Hbad. apply Hfail, Hbad.
  - destruct (on_connect env) as [u|x] eqn:Hcon.
    + destruct (exchange_settles
                  (set_conn (set_reqs self rest (reqs_pending self))
                     (Some (mkSocket (if timeout_set (timeout req)
                                      then timeout req else None))))
                  σ a req env [Connect (location self)] Hreq)
        as (p' & σ' & tr & Hex & Hrest & Hev & Hfail & _).
      exists p', σ', tr. simpl in Hex. rewrite Hex in *.
      split; [reflexivity|]. split; [exact Hrest|]. split; [apply Hrun; reflexivity|].
      split; [exact Hev|]. split; [intros _ [x Hx]; congruence|].
      intros _ Hbad. apply Hfail, Hbad.
    + eexists _, _, _. split; [reflexivity|]. split; [reflexivity|].
      split; [apply Hrun; reflexivity|].
      split; [intros e He; rewrite He; apply events_signal|].
      split.
      * intros _ _. split; [reflexivity|]. split; [|reflexivity].
        rewrite heap_signal. exact (reply_after_update _ _ _ _ Hreq).
      * intros [[s Hs] | [u Hu]] _; congruence.
Qed.

(** ** The dispatcher: validation *)

Section Validation.
Context {S : Type} `{!LocalScheduler S} `{!Library}.
Implicit Type self : AsynCoro S.

Lemma async_reply_ignores_auth self (req : _NetRequest) (a : option string) :
  async_reply self (set_auth req a) = async_reply self req.
Proof. destruct req; reflexivity. Qed.

Lemma handle_ping_ignores_auth env self (req : _NetRequest) (a : option string) :
  handle_ping env self (set_auth req a) = handle_ping env self req.
Proof. destruct req; reflexivity. Qed.

Lemma validated_ping_ignores_auth env self (req : _NetRequest) (a : option string) :
  name req = "ping" ->
  validated env self (set_auth req a) = validated env self req.
Proof.
  intros Hname. unfold validated.
  replace (misaddressed self (set_auth req a)) with (misaddressed self req)
    by (destruct req; reflexivity).
  replace (src (set_auth req a)) with (src req) by (destruct req; reflexivity).
  rewrite async_reply_ignores_auth. unfold dispatch.
  replace (name (set_auth req a)) with (name req) by (destruct req; reflexivity).
  rewrite Hname. simpl. rewrite handle_ping_ignores_auth. reflexivity.
Qed.

Lemma name_eqb_ping (req : _NetRequest) :
  name req <> "ping" -> String.eqb (name req) "ping" = false.
Proof. intros Hn. apply String.eqb_neq. exact Hn. Qed.

(** A request other than [ping] whose auth code is not the own one ends
    the round with a [break]: nothing is sent, nothing changes. *)
Lemma rejected env self (req : _NetRequest) :
  auth req <> _auth_code self -> name req <> "ping" ->
  _tcp_task_round env self (request req) = mkResult self [] Break.
Proof.
  intros Hauth Hname. unfold _tcp_task_round, auth_ok.
  rewrite bool_decide_eq_false_2 by exact Hauth.
  rewrite name_eqb_ping by exact Hname. reflexivity.
Qed.

Lemma _tcp_task_break env self (msg : inbound) (rest : list (tcp_env * inbound)) :
  r_status (_tcp_task_round env self msg) = Break ->
  _tcp_task self ((env, msg) :: rest)
  = mkResult (r_state (_tcp_task_round env self msg))
             (r_trace (_tcp_task_round env self msg) ++ [conn_close]) Break.
Proof. intros Hb. cbn [_tcp_task]. rewrite Hb. reflexivity. Qed.

(** A request that passed the check on [auth], or is a [ping], goes on to
    the checks on [dst] and [src]. *)
Lemma round_validated env self (req : _NetRequest) :
  auth req = _auth_code self \/ name req = "ping" ->
  _tcp_task_round env self (request req) = validated env self req.
Proof.
  intros [Hauth | Hping]; unfold _tcp_task_round, auth_ok.
  - rewrite bool_decide_eq_true_2 by exact Hauth. reflexivity.
  - rewrite Hping. simpl. destruct (bool_decide _); reflexivity.
Qed.

(** C3. For every inbound request the dispatcher compares [req.auth] with
    the own [_auth_code] before anything else:
    - on a mismatch a request that is not a [ping] is dropped without a
      reply and without any change of state, and the task closes the
      connection;
    - a [ping] is treated the same whatever auth code it carries: it goes
      on to the checks and the handler that an authenticated request
      reaches;
    - a request whose auth code matches goes on likewise. *)
Theorem auth_check env self (req : _NetRequest) :
  (auth req <> _auth_code self -> name req <> "ping" ->
   _tcp_task_round env self (request req) = mkResult self [] Break
   /\ forall rest, _tcp_task self ((env, request req) :: rest)
                   = mkResult self [conn_close] Break)
  /\ (name req = "ping" ->
      _tcp_task_round env self (request req) = validated env self req
      /\ forall a, _tcp_task_round env self (request (set_auth req a))
                   = _tcp_task_round env self (request req))
  /\ (auth req = _auth_code self ->
      _tcp_task_round env self (request req) = validated env self req).
Proof.
  split; [| split].
  - intros Hauth Hname. split; [apply rejected; assumption|].
    intros rest. rewrite _tcp_task_break; rewrite rejected by assumption; reflexivity.
  - intros Hname. split; [apply round_validated; right; exact Hname|].
    intros a. rewrite (round_validated env self req) by (right; exact Hname).
    rewrite round_validated by (right; destruct req; exact Hname).
    apply validated_ping_ignores_auth, Hname.
  - intros Hauth. apply round_validated. left. exact Hauth.
Qed.

End Validation.

Section Dispatch.
Context {S : Type} `{!LocalScheduler S} `{!Library}.
Implicit Type self : AsynCoro S.

Lemma not_misaddressed self (req : _NetRequest) :
  dst req = None \/ dst req = Some (_location self) -> misaddressed self req = false.
Proof.
  unfold misaddressed. intros [-> | ->]; [reflexivity|].
  rewrite bool_decide_eq_true_2 by reflexivity. reflexivity.
Qed.

(** An authenticated request for this instance that is not an answer to a
    pending request reaches the handler of its verb. *)
Lemma round_dispatch env self (req : _NetRequest) :
  auth req = _auth_code self ->
  dst req = None \/ dst req = Some (_location self) ->
  src req <> Some (_location self) ->
  _tcp_task_round env self (request req) = dispatch env self req.
Proof.
  intros Hauth Hdst Hsrc. rewrite round_validated by (left; exact Hauth).
  unfold validated. rewrite not_misaddressed by exact Hdst.
  rewrite bool_decide_eq_false_2 by exact Hsrc. reflexivity.
Qed.

(** C6. For every inbound message that the dispatcher has validated (it
    carries the own auth code or is a [ping], and its [dst] is unset or
    the own location) and whose [src] is the own location:
    - when [_requests] holds an entry for [req.id], the entry is popped,
      the [reply] of the message is stored in the waiting request (its
      other fields stay), the event of that request is set, and the round
      ends with a [break]; no other object and no other event of the
      store changes, the other attributes of the instance are as before,
      and nothing is sent;
    - when there is no entry, the round ends with a [break] and the state
      is as before;
    - in both cases the task closes the connection. *)
Theorem async_reply_resolves env self (msg : _NetRequest) :
  auth msg = _auth_code self \/ name msg = "ping" ->
  dst msg = None \/ dst msg = Some (_location self) ->
  src msg = Some (_location self) ->
  let r := _tcp_task_round env self (request msg) in
  (forall i a req e,
      id msg = Some i -> _requests self !! i = Some a ->
      heap (store self) !! a = Some req -> event req = Some e ->
      r_status r = Break /\ r_trace r = []
      /\ _requests (r_state r) = delete i (_requests self)
      /\ _requests (r_state r) !! i = None
      /\ heap (store (r_state r)) !! a
         = Some (mkReq (name req) (kwargs req) (src req) (dst req) (auth req)
                       (event req) (id req) (reply msg) (timeout req))
      /\ (forall b, b <> a -> heap (store (r_state r)) !! b = heap (store self) !! b)
      /\ events (store (r_state r)) = <[e := true]> (events (store self))
      /\ events (store (r_state r)) !! e = Some true
      /\ (forall rq σ, set_store (set_requests (r_state r) rq) σ
                       = set_store (set_requests self rq) σ))
  /\ ((forall i, id msg = Some i -> _requests self !! i = None) ->
      r = mkResult self [] Break)
  /\ (forall i a req e,
        id msg = Some i -> _requests self !! i = Some a ->
        heap (store self) !! a = Some req -> event req = Some e ->
        forall rest, r_trace (_tcp_task self ((env, request msg) :: rest)) = [conn_close])
  /\ ((forall i, id msg = Some i -> _requests self !! i = None) ->
      forall rest, _tcp_task self ((env, request msg) :: rest)
                   = mkResult self [conn_close] Break).
Proof.
  intros Hauth Hdst Hsrc r.
  assert (Hr : r = async_reply self msg).
  { subst r. rewrite round_validated by exact Hauth. unfold validated.
    rewrite not_misaddressed by exact Hdst.
    rewrite bool_decide_eq_true_2 by exact Hsrc. reflexivity. }
  assert (Hsome : forall i a req e,
      id msg = Some i -> _requests self !! i = Some a ->
      heap (store self) !! a = Some req -> event req = Some e ->
      r = mkResult
            (set_store (set_requests self (delete i (_requests self)))
               (event_set (update (store self) a (fun w => set_reply w (reply msg))) e))
            [] Break).
  { intros i a req e Hi Ha Hreq He. rewrite Hr. unfold async_reply.
    rewrite Hi. simpl. rewrite Ha. simpl. rewrite Hreq, He. reflexivity. }
  assert (Hnone : (forall i, id msg = Some i -> _requests self !! i = None) ->
                  r = mkResult self [] Break).
  { intros Hno. rewrite Hr. unfold async_reply.
    destruct (id msg) as [i|]; simpl; [rewrite (Hno i eq_refl)|]; reflexivity. }
  split; [| split; [| split]].
  - intros i a req e Hi Ha Hreq He. rewrite (Hsome i a req e Hi Ha Hreq He).
    cbn [r_status r_trace r_state]. split; [reflexivity|]. split; [reflexivity|].
    split; [reflexivity|]. split; [apply lookup_delete_eq|]. split.
    { simpl. rewrite lookup_alter_eq, Hreq. reflexivity. }
    split.
    { intros b Hb. simpl. apply lookup_alter_ne. congruence. }
    split; [reflexivity|]. split; [apply lookup_insert_eq|].
    intros rq σ. reflexivity.
  - exact Hnone.
  - intros i a req e Hi Ha Hreq He rest.
    rewrite _tcp_task_break; fold r; rewrite (Hsome i a req e Hi Ha Hreq He); reflexivity.
  - intros Hno rest.
    rewrite _tcp_task_break; fold r; rewrite (Hnone Hno); reflexivity.
Qed.

(** C10 (and the contrast with [send]). For a [deliver] or [send] request
    that is addressed to a coroutine of this instance by id ([dst] is the
    own location, [kwargs] carries the id under ['coro'], and, as for every
    synchronous request, [src] is unset):
    - when the coroutine exists, the message is handed to [coro.send]; for
      [deliver] the reply is the constant [1] whatever [coro.send]
      returned, for [send] it is the value [coro.send] returned;
    - when no coroutine has that id, the reply is [-1] and nothing
      changes. *)
Theorem deliver_to_coro env self (req : _NetRequest) (cid : Z) :
  name req = "deliver" \/ name req = "send" ->
  auth req = _auth_code self ->
  src req = None ->
  dst req = Some (_location self) ->
  kwargs req !! "coro" = Some (VInt cid) ->
  let r := _tcp_task_round env self (request req) in
  (forall msg,
      coros_has (scheduler self) cid = true ->
      kwargs req !! "message" = Some msg ->
      r_trace r = [conn_send_msg (if String.eqb (name req) "deliver" then VInt 1
                                  else (coro_send cid msg (scheduler self)).1)]
      /\ r_state r = set_scheduler self (coro_send cid msg (scheduler self)).2)
  /\ (coros_has (scheduler self) cid = false ->
      r_trace r = [conn_send_msg (VInt (-1))] /\ r_state r = self).
Proof.
  intros Hname Hauth Hsrc Hdst Hcid r.
  assert (Hr : r = dispatch env self req).
  { subst r. apply round_dispatch; [exact Hauth | right; exact Hdst | congruence]. }
  rewrite Hr. unfold dispatch.
  destruct Hname as [Hn | Hn]; rewrite Hn; simpl;
    [unfold handle_deliver | unfold handle_send];
    unfold src_is_none, dst_is_self, kwargs_get;
    rewrite bool_decide_eq_true_2 by exact Hsrc;
    rewrite bool_decide_eq_true_2 by exact Hdst;
    rewrite Hcid; simpl.
  - split.
    + intros msg Hhas Hmsg. rewrite Hhas, Hmsg.
      destruct (coro_send cid msg (scheduler self)); split; reflexivity.
    + intros Hhas. rewrite Hhas. split; reflexivity.
  - split.
    + intros msg Hhas Hmsg. rewrite Hhas, Hmsg.
      destruct (coro_send cid msg (scheduler self)); split; reflexivity.
    + intros Hhas. rewrite Hhas. split; reflexivity.
Qed.

End Dispatch.

Section LocatePeer.
Context {S : Type} `{!LocalScheduler S} `{!Library}.
Implicit Type self : AsynCoro S.

(** C8, as the code has it. For a [locate_peer] request that reached its
    handler, with [loc] the own location when [kwargs.name] is the own
    [_name] and [None] otherwise:
    - when the name does not match and [dst] is not the own location,
      nothing is sent;
    - otherwise, without [src] the answer [loc] goes back on the accepted
      connection; with [src] that is a peer of the table nothing goes
      back on the accepted connection: a fresh socket is connected to
      [src], and when the connection is made the request is sent on it
      with [loc] in [reply] and the auth code of that peer in [auth], its
      other fields as they came; when the connection fails nothing is
      sent; with [src] that is not a peer of the table nothing is sent;
    - the instance is left as it was. *)
Theorem locate_peer_answer env self (req : _NetRequest) (n : value) :
  name req = "locate_peer" ->
  auth req = _auth_code self ->
  dst req = None \/ dst req = Some (_location self) ->
  src req <> Some (_location self) ->
  kwargs req !! "name" = Some n ->
  let r := _tcp_task_round env self (request req) in
  let loc := if bool_decide (n = VStr (_name self)) then VLoc (_location self) else VNone in
  r_state r = self
  /\ (n <> VStr (_name self) -> dst req <> Some (_location self) -> r_trace r = [])
  /\ (n = VStr (_name self) \/ dst req = Some (_location self) ->
      match src req with
      | None => r_trace r = [conn_send_msg loc]
      | Some s =>
          match peers self !! key_of s with
          | Some peer =>
              let m e := mkReq (name req) (kwargs req) (src req) (dst req)
                               (peer_auth peer) e (id req) loc (timeout req) in
              replies (r_trace r) = []
              /\ (net env s (m (event req)) = connect_failed ->
                  r_trace r = [sock_connect s])
              /\ (net env s (m (event req)) <> connect_failed ->
                  r_trace r = [sock_connect s; sock_send_msg s (m None)])
          | None => r_trace r = []
          end
      end).
Proof.
  intros Hname Hauth Hdst Hsrc Hn r loc.
  assert (Hr : r = handle_locate_peer env self req).
  { subst r. rewrite round_dispatch by assumption.
    unfold dispatch. rewrite Hname. reflexivity. }
  rewrite Hr. unfold handle_locate_peer. rewrite Hn. fold loc.
  unfold dst_is_self.
  destruct (bool_decide (n = VStr (_name self))) eqn:Hmatch;
    destruct (bool_decide (dst req = Some (_location self))) eqn:Hself; simpl;
    try apply bool_decide_eq_true_1 in Hmatch;
    try apply bool_decide_eq_false_1 in Hmatch;
    try apply bool_decide_eq_true_1 in Hself;
    try apply bool_decide_eq_false_1 in Hself.
  4: { split; [reflexivity|]. split; [reflexivity|]. intros [? | ?]; contradiction. }
  all: unfold answer;
    destruct (src req) as [s|] eqn:Es;
    [ destruct (peers self !! key_of s) as [peer|] eqn:Ep | ];
    simpl; (split; [reflexivity|]); (split; [intros; try contradiction|]);
    intros _; try reflexivity.
  all: unfold send_on_fresh_socket, set_reply, set_auth, on_wire, set_event;
    cbn [name kwargs src dst auth event id reply timeout]; rewrite ?Es;
    destruct (net env s _) eqn:Hnet;
    (split; [reflexivity|]); split; intros Hcase;
    solve [reflexivity | discriminate Hcase | contradiction].
Qed.

End LocatePeer.

(** ** File transfer *)

Lemma stat_isfile (f : os.filesystem) (p : string) (sbuf : stat_result) :
  os.stat f p = Some sbuf -> os.isfile f p = true.
Proof.
  unfold os.stat, os.isfile, os.is_file_at.
  destruct (os.resolve f p) as [q|]; simpl; [|discriminate].
  destruct (os.fs_files f !! q) as [x|] eqn:Hq; simpl; [|discriminate].
  intros _. reflexivity.
Qed.

Lemma isfile_stat (f : os.filesystem) (p : string) :
  os.isfile f p = true -> exists sbuf, os.stat f p = Some sbuf.
Proof.
  unfold os.stat, os.isfile, os.is_file_at.
  destruct (os.resolve f p) as [q|]; simpl; [|discriminate].
  intros Hq. apply bool_decide_eq_true_1 in Hq. destruct Hq as [x Hx].
  rewrite Hx. simpl. eauto.
Qed.

(** A target that was opened for writing exists as a file. *)
Lemma open_wb_creates (f f' : os.filesystem) (t : Q) (p q : string) :
  os.open_wb f t p = Some (q, f') -> os.is_file_at f' q = true.
Proof.
  unfold os.open_wb. destruct (os.resolve f p) as [q0|]; simpl; [|discriminate].
  destruct (os.is_dir_at f q0); [discriminate|].
  intros Heq. injection Heq as <- <-. unfold os.is_file_at. simpl.
  apply bool_decide_eq_true_2. rewrite lookup_insert_eq. eauto.
Qed.

(** ** The loop of del_file ends *)

Lemma rstrip_sep_length (s : string) :
  (String.length (posixpath.rstrip_sep s) <= String.length s)%nat.
Proof.
  induction s as [|c s IH]; simpl; [lia|].
  destruct (String.eqb (posixpath.rstrip_sep s) "" && posixpath.is_sep c); simpl; lia.
Qed.

Lemma rstrip_sep_shorter (s : string) :
  posixpath.endswith_sep s = true ->
  (String.length (posixpath.rstrip_sep s) < String.length s)%nat.
Proof.
  induction s as [|c s IH]; simpl; [discriminate|].
  destruct s as [|c' s'].
  - simpl. intros ->. simpl. lia.
  - intros Hend. specialize (IH Hend).
    destruct (String.eqb (posixpath.rstrip_sep (String c' s')) "" && posixpath.is_sep c);
      simpl in *; lia.
Qed.

Lemma split_last_append (p : string) :
  p = ((posixpath.split_last p).1 ++ (posixpath.split_last p).2)%string.
Proof.
  induction p as [|c p IH]; simpl; [reflexivity|].
  destruct (posixpath.split_last p) as [h t]; simpl in *.
  destruct h as [|hc h']; simpl.
  - destruct (posixpath.is_sep c) eqn:Hc; simpl.
    + unfold posixpath.is_sep in Hc. apply Ascii.eqb_eq in Hc. subst c.
      rewrite IH. reflexivity.
    + rewrite IH. reflexivity.
  - rewrite IH. reflexivity.
Qed.

Lemma split_last_head_ends (p : string) :
  (posixpath.split_last p).1 <> "" ->
  posixpath.endswith_sep (posixpath.split_last p).1 = true.
Proof.
  induction p as [|c p IH]; simpl; [congruence|].
  destruct (posixpath.split_last p) as [h t]; simpl in *.
  destruct h as [|hc h']; simpl.
  - destruct (posixpath.is_sep c); simpl; [reflexivity | congruence].
  - intros _. apply IH. discriminate.
Qed.

Lemma append_empty (a : string) : (a ++ "")%string = a.
Proof.
  induction a as [|c a IH]; [reflexivity|].
  change (String c (a ++ "")%string = String c a). rewrite IH. reflexivity.
Qed.

Lemma length_append (a b : string) :
  String.length (a ++ b)%string = (String.length a + String.length b)%nat.
Proof.
  induction a as [|c a IH]; [reflexivity|].
  change (String.length (String c (a ++ b)%string)
          = Datatypes.S (String.length a + String.length b)).
  simpl. rewrite IH. reflexivity.
Qed.

(** A path of separators only resolves to the root. *)
Lemma resolve_separators (f : os.filesystem) (p : string) :
  p <> "" -> posixpath.rstrip_sep p = "" -> os.resolve f p = Some "/".
Proof.
  intros Hne Hall. unfold os.resolve.
  destruct p as [|c p]; [congruence|]. simpl String.eqb. cbv iota.
  assert (Hsplit : forall s, posixpath.rstrip_sep s = "" ->
             os.walk f [] (posixpath.split s) = Some []).
  { clear. induction s as [|c s IH]; intros Hs; simpl in *; [reflexivity|].
    destruct (String.eqb (posixpath.rstrip_sep s) "") eqn:Hr; simpl in Hs;
      [|discriminate].
    destruct (posixpath.is_sep c) eqn:Hc; simpl in Hs; [|discriminate].
    apply String.eqb_eq in Hr. simpl. apply IH, Hr. }
  pose proof (Hsplit (String c p) Hall) as Hw.
  simpl in Hall.
  destruct (String.eqb (posixpath.rstrip_sep p) "") eqn:Hr; simpl in Hall; [|discriminate].
  destruct (posixpath.is_sep c) eqn:Hc; simpl in Hall; [|discriminate].
  unfold posixpath.is_sep in Hc. apply Ascii.eqb_eq in Hc. subst c.
  replace (posixpath.isabs (String "/" p)) with true
    by (unfold posixpath.isabs, posixpath.startswith; simpl; destruct p; reflexivity).
  rewrite Hw. reflexivity.
Qed.

(** A directory that [os.rmdir] removed has a shorter [dirname]. *)
Lemma rmdir_dirname_shorter (f f' : os.filesystem) (d : string) :
  os.rmdir f d = Some f' ->
  (String.length (posixpath.dirname d) < String.length d)%nat.
Proof.
  unfold os.rmdir. intros Hrm.
  destruct (os.resolve f d) as [q|] eqn:Hres; simpl in Hrm; [|discriminate].
  destruct (String.eqb (posixpath.basename (posixpath.rstrip_sep d)) "."
            || String.eqb (posixpath.basename (posixpath.rstrip_sep d)) ".."
            || String.eqb q "/") eqn:Hbad; [discriminate|].
  apply orb_false_elim in Hbad as [_ Hroot]. apply String.eqb_neq in Hroot.
  assert (Hd : d <> "").
  { intros ->. unfold os.resolve in Hres. simpl in Hres. discriminate. }
  assert (Hstrip : posixpath.rstrip_sep d <> "").
  { intros Hall. rewrite (resolve_separators f d Hd Hall) in Hres. congruence. }
  unfold posixpath.dirname.
  pose proof (split_last_append d) as Happ.
  pose proof (split_last_head_ends d) as Hends.
  destruct (posixpath.split_last d) as [h t]; simpl in *.
  assert (Hlen : String.length d = (String.length h + String.length t)%nat)
    by (rewrite Happ at 1; apply length_append).
  pose proof (rstrip_sep_length h) as Hle.
  destruct t as [|tc t'].
  - assert (Hdh : d = h).
    { rewrite Happ. apply append_empty. }
    subst h. destruct (String.eqb d "") eqn:E1; [apply String.eqb_eq in E1; congruence|].
    destruct (String.eqb (posixpath.rstrip_sep d) "") eqn:E2;
      [apply String.eqb_eq in E2; congruence|].
    simpl. apply rstrip_sep_shorter, Hends. exact Hd.
  - simpl in Hlen.
    destruct (negb (String.eqb h "") && negb (String.eqb (posixpath.rstrip_sep h) ""));
      lia.
Qed.

(** The rounds that [handle_del_file] allows are enough: with more the
    loop removes the same directories. *)
Lemma remove_empty_dirs_rounds (prefix : string) (n m : nat) :
  forall (f : os.filesystem) (d : string),
    (String.length d < n)%nat -> (String.length d < m)%nat ->
    remove_empty_dirs n prefix f d = remove_empty_dirs m prefix f d.
Proof.
  revert m. induction n as [|n IH]; intros m f d Hn Hm; [lia|].
  destruct m as [|m]; [lia|]. simpl.
  destruct (String.ltb prefix d && os.isdir f d); [|reflexivity].
  destruct (os.rmdir f d) as [f'|] eqn:Hrm; [|reflexivity].
  pose proof (rmdir_dirname_shorter f f' d Hrm). apply IH; lia.
Qed.

(** ** The containment test of del_file *)

Lemma prefix_cons (a b : ascii) (s1 s2 : string) :
  String.prefix (String a s1) (String b s2)
  = if ascii_dec a b then String.prefix s1 s2 else false.
Proof. reflexivity. Qed.

Lemma prefix_empty (s : string) : String.prefix "" s = true.
Proof. destruct s; reflexivity. Qed.

Lemma prefix_append (p x : string) : String.prefix p (p ++ x)%string = true.
Proof.
  induction p as [|c p IH]; [apply prefix_empty|].
  change (String.prefix (String c p) (String c (p ++ x)%string) = true).
  rewrite prefix_cons. destruct (ascii_dec c c) as [_|Hne]; [exact IH | congruence].
Qed.

Lemma isabs_append (a b : string) :
  a <> "" -> posixpath.isabs (a ++ b)%string = posixpath.isabs a.
Proof.
  destruct a as [|c a]; [congruence|]. intros _.
  unfold posixpath.isabs, posixpath.startswith.
  change (String.prefix (String "/" "") (String c (a ++ b)%string)
          = String.prefix (String "/" "") (String c a)).
  rewrite !prefix_cons, !prefix_empty. reflexivity.
Qed.

(** [basename] never starts with a separator. *)
Lemma basename_relative (p : string) : posixpath.isabs (posixpath.basename p) = false.
Proof.
  unfold posixpath.basename. induction p as [|c p IH]; [reflexivity|]. simpl.
  destruct (posixpath.split_last p) as [h t]; simpl in *.
  destruct (negb (String.eqb h "")); simpl; [exact IH|].
  destruct (posixpath.is_sep c) eqn:Hc; simpl; [exact IH|].
  unfold posixpath.isabs, posixpath.startswith.
  change (String.prefix (String "/" "") (String c t) = false).
  rewrite prefix_cons.
  destruct (ascii_dec "/" c) as [<-|_]; [discriminate Hc | reflexivity].
Qed.

(** Joining a relative path keeps what was there as a prefix. *)
Lemma join2_relative (path b : string) :
  posixpath.isabs b = false ->
  exists x, posixpath.join2 path b = (path ++ x)%string.
Proof.
  intros Hb. unfold posixpath.join2. fold (posixpath.isabs b). rewrite Hb.
  destruct (String.eqb path "" || posixpath.endswith_sep path).
  - exists b. reflexivity.
  - exists (posixpath.sep ++ b)%string. reflexivity.
Qed.

Lemma join_single (a b : string) : posixpath.join a [b] = posixpath.join2 a b.
Proof. reflexivity. Qed.

(** For a [dest_path] that is not absolute (the sender rejects an absolute
    one) the target of [del_file] always starts with [dest_path_prefix]:
    the test [tgt.startswith(self.dest_path_prefix)] of [del_file] rejects
    nothing that the sender lets through. *)
Lemma del_file_test_passes {S : Type} (self : AsynCoro S) (file d : string) :
  posixpath.isabs d = false ->
  posixpath.startswith (del_file_target self file (VStr d)) (dest_path_prefix self) = true.
Proof.
  intros Hd. unfold del_file_target, posixpath.startswith.
  rewrite !join_single.
  assert (Hrel : posixpath.isabs
                   (if negb (String.eqb d "")
                    then posixpath.join2 d (posixpath.basename file)
                    else posixpath.basename file) = false).
  { destruct (String.eqb d "") eqn:Hempty; simpl negb; cbv iota;
      [apply basename_relative|].
    apply String.eqb_neq in Hempty.
    destruct (join2_relative d (posixpath.basename file) (basename_relative file))
      as [x ->].
    rewrite isabs_append by exact Hempty. exact Hd. }
  destruct (join2_relative (dest_path_prefix self) _ Hrel) as [x ->].
  apply prefix_append.
Qed.

Section SendFile.
Context {S : Type} `{!LocalScheduler S} `{!Library}.
Implicit Type self : AsynCoro S.

(** C4. For a [send_file] request that reached its handler, with [tgt]
    the target, the answer before any payload is read is:
    - [-1] when [max_file_size] is set (not [None], not [0]) and
      [st_size] of the sender's [stat_buf] exceeds it, and [-1] when the
      target does not start with [dest_path_prefix];
    - otherwise [1] when the target is a file whose [st_mtime] is within
      one second of the sender's, whose [st_size] is the sender's and whose
      permission bits are the sender's;
    - otherwise the stat structure of the target when the target is a file
      and [overwrite] is false;
    - otherwise the target is created and opened for writing: [0] when
      that succeeds, [-1] when it raises.
    In every case but the last the round only sends the answer: the file
    system and the rest of the state are as before. *)
Theorem send_file_preflight env self (req : _NetRequest) (file : string)
        (dest_path : value) (sb : stat_result) (ov : value) :
  name req = "send_file" ->
  auth req = _auth_code self ->
  src req = None ->
  dst req = Some (_location self) ->
  kwargs req !! "file" = Some (VStr file) ->
  kwargs req !! "dest_path" = Some dest_path ->
  kwargs req !! "stat_buf" = Some (VStat sb) ->
  kwargs req !! "overwrite" = Some ov ->
  let tgt := send_file_target self file dest_path in
  let r := _tcp_task_round env self (request req) in
  let too_big := exists m, max_file_size self = Some m /\ m <> 0 /\ m < st_size sb in
  let contained := posixpath.startswith tgt (dest_path_prefix self) in
  let same sbuf := (Qabs (st_mtime sb - st_mtime sbuf) <= 1)%Q
                   /\ st_size sb = st_size sbuf
                   /\ os.S_IMODE (st_mode sb) = os.S_IMODE (st_mode sbuf) in
  let only_answers v := r_state r = self /\ r_trace r = [conn_send_msg v] in
  (too_big -> only_answers (VInt (-1)))
  /\ (~ too_big -> contained = false -> only_answers (VInt (-1)))
  /\ (~ too_big -> contained = true ->
      (forall sbuf, os.stat (fs self) tgt = Some sbuf -> same sbuf ->
                    only_answers (VInt 1))
      /\ (forall sbuf, os.stat (fs self) tgt = Some sbuf -> ~ same sbuf ->
                       truthy ov = false ->
                       only_answers (VStat sbuf))
      /\ (os.isfile (fs self) tgt = false
          \/ (exists sbuf, os.stat (fs self) tgt = Some sbuf
                           /\ ~ same sbuf /\ truthy ov = true) ->
          match create_target env self tgt with
          | None => only_answers (VInt (-1))
          | Some (q, f) =>
              head (r_trace r) = Some (conn_send_msg (VInt 0))
              /\ os.is_file_at f q = true
          end)).
Proof.
  intros Hname Hauth Hsrc Hdst Hfile Hdp Hsb Hov tgt r big contained same only_answers.
  set (too_big := match size_limit self with
                  | Some m => m <? st_size sb
                  | None => false
                  end).
  assert (Hbig_iff : big <-> too_big = true).
  { subst big too_big. unfold size_limit. destruct (max_file_size self) as [m|].
    - destruct (m =? 0) eqn:Hm.
      + apply Z.eqb_eq in Hm. split; [|discriminate].
        intros (m' & Heq & Hne & _). congruence.
      + apply Z.eqb_neq in Hm. rewrite Z.ltb_lt. split.
        * intros (m' & Heq & _ & Hlt). congruence.
        * intros Hlt. exists m. repeat split; assumption.
    - split; [|discriminate]. intros (m' & Heq & _). discriminate. }
  assert (Hanswers : forall v, r = send_reply env self [] v -> only_answers v).
  { intros v Hv. subst only_answers. cbv beta. rewrite Hv. split; reflexivity. }
  assert (Hsame_iff : forall sbuf, same sbuf <-> same_metadata sb sbuf = true).
  { intros sbuf. subst same. cbv beta. unfold same_metadata.
    rewrite !andb_true_iff, Qle_bool_iff, !Z.eqb_eq. tauto. }
  assert (Hnot_same : forall sbuf, ~ same sbuf -> same_metadata sb sbuf = false).
  { intros sbuf Hn. destruct (same_metadata sb sbuf) eqn:Hs; [|reflexivity].
    exfalso. apply Hn, Hsame_iff, Hs. }
  assert (Hnot_big : ~ big -> too_big = false).
  { intros Hn. apply not_true_is_false. intros Hb. apply Hn, Hbig_iff, Hb. }
  assert (Hr : r = handle_send_file env self req).
  { subst r. rewrite round_dispatch; [| exact Hauth | right; exact Hdst | congruence].
    unfold dispatch. rewrite Hname. reflexivity. }
  assert (Hpre : forall resp, preflight self tgt (VStat sb) (Some ov) = Some resp ->
            r = if bool_decide (resp = VInt 0) then
                  match create_target env self tgt with
                  | None => send_reply env self [] minus_one
                  | Some (q, f) =>
                      if conn_ok env
                      then finish_transfer env self tgt q (VStat sb) f [conn_send_msg (VInt 0)]
                      else mkResult (set_fs self f) [conn_send_msg (VInt 0)] Crashed
                  end
                else send_reply env self [] resp).
  { intros resp Hresp. rewrite Hr. unfold handle_send_file, src_is_none, dst_is_self.
    rewrite !bool_decide_eq_true_2 by assumption. simpl.
    rewrite Hfile, Hdp, Hsb, Hov. fold tgt. rewrite Hresp. reflexivity. }
  assert (Hzero : preflight self tgt (VStat sb) (Some ov) = Some (VInt 0) ->
            match create_target env self tgt with
            | None => only_answers (VInt (-1))
            | Some (q, f) =>
                head (r_trace r) = Some (conn_send_msg (VInt 0))
                /\ os.is_file_at f q = true
            end).
  { intros Hresp. pose proof (Hpre _ Hresp) as Hr0. simpl in Hr0.
    destruct (create_target env self tgt) as [[q f]|] eqn:Hct;
      [| apply Hanswers; exact Hr0].
    rewrite Hr0. split.
    - destruct (conn_ok env); [|reflexivity].
      unfold finish_transfer. simpl.
      destruct (receive f q (st_size sb) 0 (recvall env)) as [n f1].
      destruct (n <? st_size sb).
      + destruct (os.remove f1 tgt); reflexivity.
      + destruct (os.utime f1 tgt (st_atime sb) (st_mtime sb)) as [f2|]; simpl;
          [destruct (os.chmod f2 tgt _)|]; reflexivity.
    - unfold create_target in Hct.
      destruct (if os.isdir (fs self) (posixpath.dirname tgt) then Some (fs self)
                else os.makedirs (fs self) (posixpath.dirname tgt)) as [f1|];
        simpl in Hct; [|discriminate].
      eapply open_wb_creates, Hct. }
  assert (Hcheck : too_big = false ->
            preflight self tgt (VStat sb) (Some ov)
            = target_check self tgt (VStat sb) (Some ov)).
  { subst too_big. unfold preflight. intros Hbig.
    destruct (size_limit self); simpl; [rewrite Hbig|]; reflexivity. }
  split; [| split].
  - intros Hbig. apply Hbig_iff in Hbig. apply Hanswers, (Hpre minus_one).
    subst too_big. unfold preflight.
    destruct (size_limit self); [|discriminate]. simpl. rewrite Hbig. reflexivity.
  - intros Hbig Hcont. apply Hnot_big in Hbig.
    apply Hanswers, (Hpre minus_one). rewrite (Hcheck Hbig).
    unfold target_check. fold contained. rewrite Hcont. reflexivity.
  - intros Hbig Hcont. apply Hnot_big in Hbig. rewrite (Hcheck Hbig) in Hpre, Hzero.
    unfold target_check in Hpre, Hzero. fold contained in Hpre, Hzero.
    rewrite Hcont in Hpre, Hzero. simpl in Hpre, Hzero.
    split; [| split].
    + intros sbuf Hstat Hsame. apply Hsame_iff in Hsame.
      apply Hanswers, (Hpre (VInt 1)).
      rewrite (stat_isfile _ _ _ Hstat), Hstat. simpl. rewrite Hsame. reflexivity.
    + intros sbuf Hstat Hsame Hno. apply Hnot_same in Hsame.
      apply Hanswers, (Hpre (VStat sbuf)).
      rewrite (stat_isfile _ _ _ Hstat), Hstat. simpl. rewrite Hsame, Hno. reflexivity.
    + intros [Hnofile | (sbuf & Hstat & Hsame & Hyes)]; apply Hzero.
      * rewrite Hnofile. reflexivity.
      * apply Hnot_same in Hsame.
        rewrite (stat_isfile _ _ _ Hstat), Hstat. simpl.
        rewrite Hsame, Hyes. reflexivity.
Qed.

End SendFile.

(** ** Where pings come from *)

Section Pings.
Context {S : Type} `{!LocalScheduler S} `{!Library}.
Implicit Type self : AsynCoro S.

Lemma sent_to_fresh_socket env (to : Location) (msg : _NetRequest) (l : Location)
      (m : _NetRequest) :
  (l, m) ∈ sent_to (send_on_fresh_socket env to msg) -> l = to /\ m = on_wire msg.
Proof.
  unfold send_on_fresh_socket. destruct (net env to msg); simpl; intros Hin;
    repeat match goal with
           | H : _ ∈ [] |- _ => apply not_elem_of_nil in H; contradiction
           | H : _ ∈ _ :: _ |- _ => apply elem_of_cons in H; destruct H as [H | H]
           end;
    injection Hin as -> ->; split; reflexivity.
Qed.

(** X21. The UDP listener sends nothing but pings, and each to the
    location that the datagram names: a message that it sends to [to] in
    answer to a datagram is the answer to a [ping:] datagram whose
    [location] is [to] (which is not the own location) and whose
    [version] is the own; it is a [ping] for [to] without [src], with
    the own location, signature and version in [kwargs], and with the
    auth code derived from the signature of the datagram. *)
Lemma udp_round_sends_ping env self (msg : datagram) (to : Location) (m : _NetRequest) :
  (to, m) ∈ sent_to (_udp_proc_round env self msg) ->
  exists (info : gmap string value) code,
    msg = ping_datagram (Some info) /\
    info !! "location" = Some (VLoc to) /\
    to <> _location self /\
    info !! "version" = Some (VStr (__version__ self)) /\
    auth_code_for (_secret self) (info !! "signature") = Some code /\
    m = mkReq "ping"
              {[ "peer" := VLoc (_location self);
                 "signature" := match _signature self with
                                | Some sig => VStr sig
                                | None => VNone
                                end;
                 "version" := VStr (__version__ self) ]}
              None (Some to) code None None VNone None.
Proof.
  unfold _udp_proc_round.
  destruct msg as [|[info|]]; simpl; try (intros Hin; apply not_elem_of_nil in Hin; contradiction).
  destruct (info !! "version") as [v|] eqn:Hversion; simpl;
    try (intros Hin; apply not_elem_of_nil in Hin; contradiction).
  destruct (info !! "location") as [[| | | | |req_peer| | |]|] eqn:Hlocation; simpl;
    try (intros Hin; apply not_elem_of_nil in Hin; contradiction).
  destruct (bool_decide (v = VStr (__version__ self))) eqn:Hv; simpl;
    try (intros Hin; apply not_elem_of_nil in Hin; contradiction).
  apply bool_decide_eq_true_1 in Hv. subst v.
  destruct (auth_code_for (_secret self) (info !! "signature")) as [code|] eqn:Hcode;
    try (intros Hin; apply not_elem_of_nil in Hin; contradiction).
  destruct (bool_decide (req_peer = _location self)) eqn:Hown;
    try (intros Hin; apply not_elem_of_nil in Hin; contradiction).
  apply bool_decide_eq_false_1 in Hown.
  destruct (known_with self req_peer code);
    try (intros Hin; apply not_elem_of_nil in Hin; contradiction).
  intros Hin. apply sent_to_fresh_socket in Hin as [-> ->].
  exists info, code. repeat split; solve [assumption | reflexivity].
Qed.

(** X22. [peer] sends over TCP nothing but a [ping] that carries the own
    [hello] and no auth code. *)
Lemma peer_sends_ping self (node : string) (udp_port tcp_port : Z) (stream_send : bool)
      (env : peer_env) (to : Location) (m : _NetRequest) :
  (to, m) ∈ sent_to (peer self node udp_port tcp_port stream_send env).2 ->
  m = NetRequest "ping" (hello self) None (Some to) None None.
Proof.
  unfold peer. destruct (gethostbyname env node) as [ip|]; simpl;
    [| intros Hin; apply not_elem_of_nil in Hin; contradiction].
  destruct (tcp_port =? 0); simpl;
    [intros Hin; apply not_elem_of_nil in Hin; contradiction|].
  destruct (on_tcp_ping env); simpl; intros Hin;
    repeat match goal with
           | H : _ ∈ [] |- _ => apply not_elem_of_nil in H; contradiction
           | H : _ ∈ _ :: _ |- _ => apply elem_of_cons in H; destruct H as [H | H]
           end;
    injection Hin as -> ->; reflexivity.
Qed.

End Pings.

(** ** Authentication between two instances *)

Lemma append_inv_head (p a b : string) : (p ++ a = p ++ b)%string -> a = b.
Proof.
  induction p as [|c p IH]; simpl; intros Heq; [exact Heq|].
  injection Heq as Heq. apply IH, Heq.
Qed.

Section Auth.
Context {S : Type} `{!LocalScheduler S} `{!Library}.
Implicit Type A B : AsynCoro S.

(** The auth code that an instance derives for a peer from the peer's
    signature is not the peer's own auth code when the secrets differ,
    unless the digests of the signature followed by the one and by the
    other secret collide. *)
Lemma derived_code_differs A B (c : option string) :
  credentials_ok A -> credentials_ok B ->
  (forall sa sb sig,
      _secret A = Some sa -> _secret B = Some sb -> _signature B = Some sig ->
      sha1_hexdigest (sig ++ sa)%string <> sha1_hexdigest (sig ++ sb)%string) ->
  _secret A <> _secret B ->
  auth_code_for (_secret A) (Some (signature_value B)) = Some c ->
  c <> _auth_code B.
Proof.
  intros [ra HA] [rb HB] Hdigest Hsecret Hc Heq. subst c.
  unfold auth_code_for, signature_value, init_credentials in *.
  destruct (_secret A) as [sa|], (_secret B) as [sb|];
    injection HA as HsigA HcodeA; injection HB as HsigB HcodeB;
    rewrite ?HsigB, ?HcodeB in Hc.
  - destruct (is_ascii (rb ++ sa)%string); [|discriminate].
    injection Hc as Hc. exact (Hdigest sa sb rb eq_refl eq_refl HsigB Hc).
  - discriminate.
  - discriminate.
  - congruence.
Qed.

Lemma hello_peer A : hello A !! "peer" = Some (VLoc (_location A)).
Proof. unfold hello. apply lookup_insert_eq. Qed.

Lemma hello_signature A : hello A !! "signature" = Some (signature_value A).
Proof.
  unfold hello. rewrite lookup_insert_ne by discriminate. apply lookup_insert_eq.
Qed.

(** C2. Two instances whose secrets differ, each with the credentials that
    [__init__] derives, when the digest tells the two secrets apart
    behind the signature of either: the digest of a signature followed by
    the one secret is not the digest of that signature followed by the
    other. (The two texts differ, so a failure of this is a collision of
    the digest.)
    - The auth code that [A] derives for [B] from the signature of [B] is
      not the auth code of [B], and a request that carries it and is not a
      [ping] is dropped by [B]: nothing is executed, nothing is sent,
      nothing changes. The [pong] of the handshake is such a request.
    - When [B] receives the [ping] of [A], whatever auth code it carries,
      and [A] is on the network to receive what [B] sends to it, the peer
      tables of both are afterwards what they were: the [pong] of [B] fails
      the check of [A], no [ack] comes back, and neither installs the
      other. *)
Theorem mismatching_secrets A B :
  credentials_ok A -> credentials_ok B ->
  _secret A <> _secret B ->
  (forall sa sb sig,
      _secret A = Some sa -> _secret B = Some sb ->
      _signature A = Some sig \/ _signature B = Some sig ->
      sha1_hexdigest (sig ++ sa)%string <> sha1_hexdigest (sig ++ sb)%string) ->
  (forall c : option string,
      auth_code_for (_secret A) (Some (signature_value B)) = Some c ->
      c <> _auth_code B
      /\ forall env (req : _NetRequest),
           auth req = c -> name req <> "ping" ->
           _tcp_task_round env B (request req) = mkResult B [] Break)
  /\ (forall envA envB (a : option string),
        let ping := NetRequest "ping" (hello A) None (Some (_location B)) a None in
        let '(A', r) := exchange_with envA envB A B ping in
        peers A' = peers A /\ peers (r_state r) = peers B
        /\ A' = A /\ r_state r = B /\ r_status r = Break /\ replies (r_trace r) = []).
Proof.
  intros HA HB Hsecret Hdigest.
  assert (HAB : forall sa sb sig,
             _secret A = Some sa -> _secret B = Some sb -> _signature B = Some sig ->
             sha1_hexdigest (sig ++ sa)%string <> sha1_hexdigest (sig ++ sb)%string).
  { intros sa sb sig Hsa Hsb Hsig. exact (Hdigest sa sb sig Hsa Hsb (or_intror Hsig)). }
  assert (HBA : forall sb sa sig,
             _secret B = Some sb -> _secret A = Some sa -> _signature A = Some sig ->
             sha1_hexdigest (sig ++ sb)%string <> sha1_hexdigest (sig ++ sa)%string).
  { intros sb sa sig Hsb Hsa Hsig Heq.
    exact (Hdigest sa sb sig Hsa Hsb (or_introl Hsig) (eq_sym Heq)). }
  assert (Hdrop : forall (X Y : AsynCoro S) env (req : _NetRequest) (c : option string),
             c <> _auth_code Y ->
             auth req = c -> name req <> "ping" ->
             _tcp_task_round env Y (request req) = mkResult Y [] Break).
  { intros X Y env req c Hc Hauth Hname. apply rejected; [|exact Hname].
    rewrite Hauth. exact Hc. }
  split.
  { intros c Hc.
    pose proof (derived_code_differs A B c HA HB HAB Hsecret Hc) as Hne.
    split; [exact Hne|].
    intros env req Hauth Hname. exact (Hdrop A B env req c Hne Hauth Hname). }
  intros envA envB a ping. unfold exchange_with.
  set (env := mkTcpEnv _ _ _ _).
  assert (Hround : _tcp_task_round env B (request (on_wire ping))
                   = handle_ping env B (on_wire ping)).
  { rewrite round_validated by (right; reflexivity). unfold validated.
    rewrite not_misaddressed by (right; reflexivity).
    rewrite bool_decide_eq_false_2 by discriminate. reflexivity. }
  rewrite Hround. unfold handle_ping.
  unfold version_ok. change (kwargs (on_wire ping)) with (hello A).
  rewrite hello_peer, hello_signature.
  destruct (auth_code_for (_secret B) (Some (signature_value A))) as [code|] eqn:Hcode;
    [| simpl; repeat split; reflexivity].
  destruct (bool_decide (hello A !! "version" = Some (VStr (__version__ B))));
    [| simpl; repeat split; reflexivity].
  destruct (bool_decide (_location A = _location B));
    [simpl; repeat split; reflexivity|].
  destruct (known_with B (_location A) code); [simpl; repeat split; reflexivity|].
  set (pong := NetRequest "pong" (hello B) None (Some (_location A)) code None).
  assert (HpongA : forall e, _tcp_task_round e A (request (on_wire pong))
                             = mkResult A [] Break).
  { intros e. apply (Hdrop B A e (on_wire pong) code).
    - apply (derived_code_differs B A code HB HA HBA); [congruence | exact Hcode].
    - reflexivity.
    - discriminate. }
  assert (Hnet : net env (_location A) pong = received "").
  { subst env. simpl. unfold network_with.
    rewrite bool_decide_eq_true_2 by reflexivity.
    unfold serve. rewrite HpongA. reflexivity. }
  unfold send_on_fresh_socket. rewrite Hnet.
  unfold after_messages. cbn -[_tcp_task_round].
  rewrite bool_decide_eq_true_2 by reflexivity.
  change (on_wire (on_wire pong)) with (on_wire pong).
  rewrite HpongA. repeat split; reflexivity.
Qed.

End Auth.

(** ** The drain worker over its whole queue *)

Lemma event_after_update (σ : Store) (a b : Z) (f : _NetRequest -> _NetRequest) :
  (forall r, event (f r) = event r) ->
  event <$> heap (update σ a f) !! b = event <$> heap σ !! b.
Proof.
  intros Hf. simpl. destruct (decide (a = b)) as [->|Hne].
  - rewrite lookup_alter_eq. destruct (heap σ !! b); simpl; [rewrite Hf|]; reflexivity.
  - rewrite lookup_alter_ne by exact Hne. reflexivity.
Qed.

Lemma events_signal_mono (σ : Store) (o : option Z) (e : Z) :
  events σ !! e = Some true -> events (signal σ o) !! e = Some true.
Proof.
  intros He. destruct o as [e'|]; simpl; [|exact He].
  destruct (decide (e' = e)) as [->|Hne];
    [apply lookup_insert_eq | rewrite lookup_insert_ne by exact Hne; exact He].
Qed.

Lemma exchange_keeps (p : _Peer) (σ : Store) (a : Z) (req : _NetRequest)
      (env : proc_env) (tr : list sock_event) :
  exists p' σ' tr',
    exchange p σ a req env tr = Served a p' σ' tr' /\
    reqs p' = reqs p /\ reqs_pending p' = reqs_pending p /\
    round_keeps p σ p' σ' /\
    (forall e, event req = Some e -> events σ' !! e = Some true).
Proof.
  unfold exchange.
  destruct (on_send env) as [u|x]; simpl;
    [destruct (on_recv env) as [v|x]; simpl|];
    try destruct x;
    (eexists _, _, _; split; [reflexivity|]; split; [reflexivity|];
     split; [reflexivity|]; split;
     [ repeat split; try reflexivity;
       [ intros b; rewrite heap_signal, !event_after_update by (intros []; reflexivity);
         reflexivity
       | intros e He; apply events_signal_mono; exact He ]
     | intros e He; rewrite He; apply events_signal ]).
Qed.

Lemma round_serves (self : _Peer) (σ : Store) (env : proc_env)
      (a : Z) (rest : list Z) (req : _NetRequest) :
  reqs self = a :: rest -> heap σ !! a = Some req ->
  exists p' σ' tr,
    req_proc_round self σ env = Served a p' σ' tr /\
    reqs p' = rest /\ round_keeps self σ p' σ' /\
    (forall e, event req = Some e -> events σ' !! e = Some true).
Proof.
  intros Hq Hreq. unfold req_proc_round. rewrite Hq, Hreq. simpl.
  destruct (conn self) as [s|] eqn:Hconn.
  - destruct (exchange_keeps
                (set_conn (set_reqs self rest (reqs_pending self))
                          (Some (mkSocket (timeout req)))) σ a req env [])
      as (p' & σ' & tr & -> & Hrest & _ & Hkeep & Hev).
    exists p', σ', tr. split; [reflexivity|]. split; [exact Hrest|].
    split; [exact Hkeep | exact Hev].
  - destruct (on_connect env) as [u|x].
    + destruct (exchange_keeps
                  (set_conn (set_reqs self rest (reqs_pending self))
                     (Some (mkSocket (if timeout_set (timeout req)
                                      then timeout req else None))))
                  σ a req env [Connect (location self)])
        as (p' & σ' & tr & Hex & Hrest & _ & Hkeep & Hev).
      simpl in Hex. rewrite Hex.
      exists p', σ', tr. split; [reflexivity|]. split; [exact Hrest|].
      split; [exact Hkeep | exact Hev].
    + eexists _, _, _. split; [reflexivity|]. split; [reflexivity|]. split.
      * repeat split; try reflexivity.
        -- intros b. rewrite heap_signal, event_after_update by (intros []; reflexivity).
           reflexivity.
        -- intros e He. apply events_signal_mono. exact He.
      * intros e He. rewrite He. apply events_signal.
Qed.

(** X1. [_Peer.req_proc] run until it has to wait, given the outcome of
    one round more than it has requests queued: it serves the whole
    queue and rests with an empty queue and [reqs_pending] cleared. The
    event of every queued request is set by then, whatever the network
    did, so no coroutine that waits in [_sync_reply] is left behind; no
    event that was set is cleared; and the worker of a peer that is not
    a stream holds no connection when it rests. *)
Theorem req_proc_drains (envs : list proc_env) :
  forall (self : _Peer) (σ : Store),
  (forall a, a ∈ reqs self -> is_Some (heap σ !! a)) ->
  (length (reqs self) < length envs)%nat ->
  exists p' σ' tr,
    req_proc self σ envs = Some (p', σ', tr) /\
    reqs p' = [] /\ reqs_pending p' = false /\
    (stream self = false -> conn p' = None) /\
    (forall a req e, a ∈ reqs self -> heap σ !! a = Some req -> event req = Some e ->
                     events σ' !! e = Some true) /\
    (forall e, events σ !! e = Some true -> events σ' !! e = Some true).
Proof.
  induction envs as [|env envs IH]; intros self σ Hheap Hlen; [simpl in Hlen; lia|].
  destruct (reqs self) as [|a rest] eqn:Hq.
  - cbn [req_proc]. unfold req_proc_round. rewrite Hq.
    destruct (negb (stream self) && bool_decide (is_Some (conn self))) eqn:Hclose.
    + eexists _, _, _. split; [reflexivity|]. repeat split; try reflexivity.
      * intros a req e Ha. apply not_elem_of_nil in Ha. contradiction.
      * auto.
    + eexists _, _, _. split; [reflexivity|]. repeat split; try reflexivity.
      * intros Hs. rewrite Hs in Hclose. simpl in Hclose.
        apply bool_decide_eq_false_1 in Hclose. simpl.
        destruct (conn self) as [s|]; [|reflexivity].
        exfalso. apply Hclose. eauto.
      * intros a req e Ha. apply not_elem_of_nil in Ha. contradiction.
      * auto.
  - destruct (Hheap a (list_elem_of_here a rest)) as [req Hreq].
    destruct (round_serves self σ env a rest req Hq Hreq)
      as (p1 & σ1 & tr1 & Hround & Hrest & (_ & _ & Hstream & Hevs & Hmono) & Hset).
    destruct (IH p1 σ1) as (p' & σ' & tr & Hrun & Hempty & Hpend & Hconn & Hall & Hmono').
    { intros b Hb. rewrite Hrest in Hb.
      destruct (Hheap b (list_elem_of_further _ a _ Hb)) as [rb Hrb].
      specialize (Hevs b). rewrite Hrb in Hevs.
      destruct (heap σ1 !! b); [eauto | discriminate]. }
    { rewrite Hrest. simpl in Hlen. lia. }
    exists p', σ', (tr1 ++ tr). cbn [req_proc]. rewrite Hround, Hrun.
    split; [reflexivity|]. split; [exact Hempty|]. split; [exact Hpend|].
    split; [intros Hs; apply Hconn; congruence|]. split.
    + intros b rb e Hb Hrb He. apply elem_of_cons in Hb as [-> | Hb].
      * apply Hmono', Hset. congruence.
      * specialize (Hevs b). rewrite Hrb in Hevs.
        destruct (heap σ1 !! b) as [rb1|] eqn:Hrb1; [|discriminate].
        simpl in Hevs. injection Hevs as Hevs.
        apply (Hall b rb1 e); [rewrite Hrest; exact Hb | exact Hrb1 | congruence].
    + intros e He. apply Hmono', Hmono, He.
Qed.

Lemma round_answering (self : _Peer) (σ : Store) (v : value)
      (a : Z) (rest : list Z) (req : _NetRequest) :
  reqs self = a :: rest -> heap σ !! a = Some req ->
  exists p' σ',
    req_proc_round self σ (answering v)
    = Served a p' σ' (opening self ++ [SendMsg (stamped self req); RecvMsg]) /\
    reqs p' = rest /\ is_Some (conn p') /\ peer_auth p' = peer_auth self /\
    heap σ' !! a = Some (set_reply (set_auth req (peer_auth self)) v) /\
    (forall b, b <> a -> heap σ' !! b = heap σ !! b).
Proof.
  intros Hq Hreq. unfold req_proc_round, opening. rewrite Hq, Hreq. simpl.
  destruct (conn self) as [s|]; simpl; unfold exchange; simpl;
    (eexists _, _; split; [reflexivity|]; split; [reflexivity|];
     split; [eauto|]; split; [reflexivity|]; split;
     [ rewrite heap_signal; simpl; rewrite !lookup_alter_eq, Hreq; reflexivity
     | intros b Hb; rewrite heap_signal; simpl;
       rewrite !lookup_alter_ne by congruence; reflexivity ]).
Qed.

(** The worker over a queue whose exchanges all succeed. *)
Lemma req_proc_answering (vs : list value) :
  forall (self : _Peer) (σ : Store) (queued : list _NetRequest),
  NoDup (reqs self) ->
  Forall2 (fun a r => heap σ !! a = Some r) (reqs self) queued ->
  length vs = length (reqs self) ->
  exists p' σ',
    req_proc self σ (answering <$> vs)
    = Some (p', σ', opening self
                    ++ flat_map (fun r => [SendMsg (stamped self r); RecvMsg]) queued) /\
    reqs p' = [] /\
    (forall i a r v, reqs self !! i = Some a -> queued !! i = Some r -> vs !! i = Some v ->
                     heap σ' !! a = Some (set_reply (set_auth r (peer_auth self)) v)) /\
    (forall b, b ∉ reqs self -> heap σ' !! b = heap σ !! b).
Proof.
  induction vs as [|v vs IH]; intros self σ queued Hnd Hq Hlen.
  - destruct (reqs self) as [|a rest] eqn:Hreqs; [|discriminate].
    inversion Hq; subst. exists self, σ. unfold opening. rewrite Hreqs.
    destruct (conn self) as [s|]; simpl; repeat split; try assumption; try reflexivity;
      intros i a r v' Hi; rewrite lookup_nil in Hi; discriminate.
  - destruct (reqs self) as [|a rest] eqn:Hreqs; [discriminate|].
    inversion Hq as [|a' req rest' queued' Hreq Hrest]; subst.
    apply NoDup_cons in Hnd as [Hfresh Hnd].
    destruct (round_answering self σ v a rest req Hreqs Hreq)
      as (p1 & σ1 & Hround & Hrest1 & Hconn1 & Hauth1 & Ha1 & Hother1).
    destruct (IH p1 σ1 queued') as (p' & σ' & Hrun & Hempty & Hreplies & Hother).
    { rewrite Hrest1. exact Hnd. }
    { rewrite Hrest1. clear -Hrest Hfresh Hother1.
      induction Hrest as [|b rb rest queued' Hb Hrest IHrest]; constructor.
      - rewrite Hother1; [exact Hb|]. intros ->. apply Hfresh, list_elem_of_here.
      - apply IHrest. intros Hin. apply Hfresh, list_elem_of_further, Hin. }
    { rewrite Hrest1. simpl in Hlen. lia. }
    exists p', σ'. split; [| split; [exact Hempty | split]].
    + cbn [fmap list_fmap req_proc]. rewrite Hround, Hrun. simpl.
      unfold opening at 2. destruct Hconn1 as [s Hs]. rewrite Hs.
      unfold stamped. rewrite Hauth1. rewrite <- !app_assoc. reflexivity.
    + intros i b r w Hi Hr Hw. destruct i as [|i]; simpl in Hi, Hr, Hw.
      * injection Hi as <-. injection Hr as <-. injection Hw as <-.
        rewrite Hother by (rewrite Hrest1; exact Hfresh). exact Ha1.
      * rewrite <- Hauth1. apply (Hreplies i); [rewrite Hrest1; exact Hi | exact Hr | exact Hw].
    + intros b Hb. apply not_elem_of_cons in Hb as [Hne Hb].
      rewrite Hother by (rewrite Hrest1; exact Hb). apply Hother1, Hne.
Qed.

(** X2. On a network where every exchange succeeds, [_Peer.req_proc]
    sends the queued requests in the order of the queue, on one
    connection that it opens before the first request if none is open.
    Each message is the queued request with the auth code of the peer in
    [auth] (and without its event), its other fields as queued. The
    request number [i] is afterwards stored with that auth code and with
    the answer number [i] in [reply]; no other object of the store
    changes. *)
Theorem req_proc_pipelines (vs : list value) :
  forall (self : _Peer) (σ : Store) (queued : list _NetRequest),
  NoDup (reqs self) ->
  Forall2 (fun a r => heap σ !! a = Some r) (reqs self) queued ->
  length vs = length (reqs self) ->
  exists p' σ',
    req_proc self σ ((fun v => mkProcEnv (Ret ()) (Ret ()) (Ret v)) <$> vs)
    = Some (p', σ',
            match conn self, reqs self with
            | None, _ :: _ => [Connect (location self)]
            | _, _ => []
            end
            ++ flat_map (fun r => [SendMsg (mkReq (name r) (kwargs r) (src r) (dst r)
                                                  (peer_auth self) None (id r) (reply r)
                                                  (timeout r));
                                   RecvMsg]) queued) /\
    reqs p' = [] /\
    (forall i a r v, reqs self !! i = Some a -> queued !! i = Some r -> vs !! i = Some v ->
                     heap σ' !! a
                     = Some (mkReq (name r) (kwargs r) (src r) (dst r) (peer_auth self)
                                   (event r) (id r) v (timeout r))) /\
    (forall b, b ∉ reqs self -> heap σ' !! b = heap σ !! b).
Proof.
  intros self σ queued Hnd Hq Hlen.
  destruct (req_proc_answering vs self σ queued Hnd Hq Hlen)
    as (p' & σ' & Hrun & Hempty & Hreplies & Hother).
  exists p', σ'. split; [exact Hrun|]. split; [exact Hempty|].
  split; [|exact Hother].
  intros i a r v Hi Hr Hv. exact (Hreplies i a r v Hi Hr Hv).
Qed.

(** ** The task of a connection *)

Section Closing.
Context {S : Type} `{!LocalScheduler S} `{!Library}.
Implicit Type self : AsynCoro S.

Ltac solve_open :=
  unfold open_trace;
  repeat first
    [ apply Forall_nil_2
    | apply Forall_app_2
    | apply Forall_cons_2; [discriminate|]
    | assumption ].

Lemma send_reply_open env self tr v :
  open_trace tr -> open_trace (r_trace (send_reply env self tr v)).
Proof. intros Htr. simpl. solve_open. Qed.

Lemma fresh_socket_open env to msg : open_trace (send_on_fresh_socket env to msg).
Proof. unfold send_on_fresh_socket. destruct (net env to msg); solve_open. Qed.

Lemma drain_open env self p code : open_trace (drain env self p code).
Proof.
  unfold drain, open_trace. apply Forall_flat_map, Forall_forall.
  intros r _. apply fresh_socket_open.
Qed.

Lemma add_peer_open env self req p code tr :
  open_trace tr -> open_trace (r_trace (add_peer env self req p code tr)).
Proof.
  intros Htr. unfold add_peer. destruct (relay self req p) as [self1|]; [|exact Htr].
  destruct (bool_decide _); simpl; [exact Htr|].
  pose proof (drain_open env (install self1 p code) p code). solve_open.
Qed.

Lemma answer_open env self req obj : open_trace (r_trace (answer env self req obj)).
Proof.
  unfold answer. destruct (src req) as [s|]; [|apply send_reply_open; solve_open].
  destruct (peers self !! key_of s); simpl; [apply fresh_socket_open | solve_open].
Qed.

Lemma dispatch_open env self req : open_trace (r_trace (dispatch env self req)).
Proof.
  unfold dispatch. destruct (verb_of (name req)) as [[]|]; simpl; try (solve_open; fail).
  - unfold handle_send.
    repeat first [ apply send_reply_open | progress (simpl; solve_open)
                 | match goal with |- context [match ?x with _ => _ end] => destruct x end ].
  - unfold handle_deliver.
    repeat first [ apply send_reply_open | progress (simpl; solve_open)
                 | match goal with |- context [match ?x with _ => _ end] => destruct x end ].
  - unfold handle_scheduler_verb. destruct (scheduler_verb self req) as [[]|];
      [apply send_reply_open|]; solve_open.
  - unfold handle_locate. destruct (kwargs req !! "name"); [|solve_open].
    destruct (_ || _); [apply answer_open | solve_open].
  - unfold handle_locate. destruct (kwargs req !! "name"); [|solve_open].
    destruct (_ || _); [apply answer_open | solve_open].
  - unfold handle_locate. destruct (kwargs req !! "name"); [|solve_open].
    destruct (_ || _); [apply answer_open | solve_open].
  - unfold handle_scheduler_verb. destruct (scheduler_verb self req) as [[]|];
      [apply send_reply_open|]; solve_open.
  - unfold handle_scheduler_verb. destruct (scheduler_verb self req) as [[]|];
      [apply send_reply_open|]; solve_open.
  - unfold handle_scheduler_verb. destruct (scheduler_verb self req) as [[]|];
      [apply send_reply_open|]; solve_open.
  - unfold handle_ping.
    destruct (kwargs req !! "peer") as [v|]; [|solve_open].
    destruct (auth_code_for _ _) as [code|]; [|solve_open].
    destruct (version_ok self req); [|solve_open].
    destruct v; try solve_open.
    destruct (bool_decide _); [solve_open|].
    destruct (known_with _ _ _); [solve_open|].
    pose proof (fresh_socket_open env l
                  (NetRequest "pong" (hello self) None (Some l) code None)).
    destruct (net env l _); simpl; try assumption.
    destruct (String.eqb b "ack"); [apply add_peer_open|]; assumption.
  - unfold handle_pong.
    destruct (kwargs req !! "peer") as [v|]; [|solve_open].
    destruct (version_ok self req); [|solve_open].
    destruct (auth_code_for _ _) as [code|]; [|solve_open].
    destruct v; try solve_open.
    destruct (known_with _ _ _); [solve_open|].
    destruct (conn_ok env); [apply add_peer_open|]; solve_open.
  - unfold handle_scheduler_verb. destruct (scheduler_verb self req) as [[]|];
      [apply send_reply_open|]; solve_open.
  - unfold handle_locate_peer. destruct (kwargs req !! "name"); [|solve_open].
    destruct (_ || _); [apply answer_open | solve_open].
  - unfold handle_send_file. destruct (_ || _); [solve_open|].
    destruct (kwargs req !! "file") as [[]|]; try solve_open.
    destruct (kwargs req !! "dest_path"); [|solve_open].
    destruct (kwargs req !! "stat_buf"); [|solve_open].
    destruct (preflight _ _ _ _); [|solve_open].
    destruct (bool_decide _); [|apply send_reply_open; solve_open].
    destruct (create_target _ _ _) as [[q f]|]; [|apply send_reply_open; solve_open].
    destruct (conn_ok env); [|solve_open].
    unfold finish_transfer.
    destruct (as_stat v0) as [sb|]; [|solve_open].
    destruct (receive _ _ _ _ _) as [n f1].
    destruct (n <? st_size sb).
    + destruct (os.remove f1 _); [apply send_reply_open|]; solve_open.
    + destruct (mbind _ _); [apply send_reply_open|]; solve_open.
  - unfold handle_del_file. destruct (_ || _); [solve_open|].
    destruct (kwargs req !! "file") as [[]|]; try solve_open.
    destruct (kwargs req !! "dest_path"); [|solve_open].
    destruct (_ && _); [|apply send_reply_open; solve_open].
    destruct (os.remove _ _); [apply send_reply_open|]; solve_open.
  - unfold handle_terminate. destruct (negb _); [solve_open|].
    destruct (truthy _); [|solve_open]. destruct (kwargs_get req "peer"); solve_open.
Qed.

(** A round never closes the accepted connection itself. *)
Lemma round_open env self (msg : inbound) :
  open_trace (r_trace (_tcp_task_round env self msg)).
Proof.
  assert (Hv : forall req, open_trace (r_trace (validated env self req))).
  { intros req. unfold validated. destruct (misaddressed self req); [solve_open|].
    destruct (bool_decide _); [|apply dispatch_open].
    unfold async_reply. destruct (mbind _ _) as [[i a]|]; [|solve_open].
    destruct (heap _ !! a) as [r|]; [|solve_open]. destruct (event r); solve_open. }
  destruct msg as [| |v|req]; simpl; try solve_open.
  destruct (auth_ok self req); [apply Hv|].
  destruct (negb _); [solve_open | apply Hv].
Qed.

(** X3. [_tcp_task] closes the connection exactly once, as its last
    action, when it leaves its loop; a task that still reads (or that an
    exception has left) has not closed it, and no handler closes it
    before. *)
Theorem tcp_task_closes (inputs : list (tcp_env * inbound)) :
  forall self,
  let r := _tcp_task self inputs in
  (r_status r = Break ->
   exists tr, r_trace r = tr ++ [conn_close] /\ conn_close ∉ tr)
  /\ (r_status r <> Break -> conn_close ∉ r_trace r).
Proof.
  assert (Hnot : forall tr, open_trace tr -> conn_close ∉ tr).
  { intros tr Htr Hin. unfold open_trace in Htr. rewrite Forall_forall in Htr.
    exact (Htr _ Hin eq_refl). }
  induction inputs as [|[env msg] rest IH]; intros self; simpl.
  - split; [discriminate|]. intros _; apply not_elem_of_nil.
  - pose proof (round_open env self msg) as Hopen.
    destruct (r_status (_tcp_task_round env self msg)) eqn:Hst; simpl.
    + destruct (IH (r_state (_tcp_task_round env self msg))) as (Hb & Hn).
      split.
      * intros Hbreak. destruct (Hb Hbreak) as (tr & Htr & Hno).
        exists (r_trace (_tcp_task_round env self msg) ++ tr). rewrite Htr.
        split; [apply app_assoc|]. rewrite elem_of_app. intros [Hin | Hin];
          [exact (Hnot _ Hopen Hin) | exact (Hno Hin)].
      * intros Hnb. rewrite elem_of_app. intros [Hin | Hin];
          [exact (Hnot _ Hopen Hin) | exact (Hn Hnb Hin)].
    + split.
      * intros _. eexists. split; [reflexivity | apply Hnot, Hopen].
      * congruence.
    + split.
      * rewrite Hst. discriminate.
      * intros _. apply Hnot, Hopen.
Qed.

End Closing.

(** ** The handshake between two instances *)

Section Handshake.
Context {S : Type} `{!LocalScheduler S} `{!Library}.
Implicit Type self A B : AsynCoro S.

Lemma hello_version A : hello A !! "version" = Some (VStr (__version__ A)).
Proof.
  unfold hello. rewrite !lookup_insert_ne by discriminate. apply lookup_insert_eq.
Qed.

Lemma set_store_peers_again self (σ σ1 : Store) (ps ps1 : gmap (string * Z) _Peer) :
  set_peers (set_store (set_peers (set_store self σ) ps) σ1) ps1
  = set_peers (set_store self σ1) ps1.
Proof. reflexivity. Qed.

(** The relay only queues requests: it changes the queues of the peers
    that are there and adds request objects to the store, and it cannot
    fail when the message carries a signature. *)
Lemma relay_queues self (req : _NetRequest) (req_peer : Location) (sig : value) :
  kwargs req !! "signature" = Some sig ->
  exists σ ps,
    relay self req req_peer = Some (set_peers (set_store self σ) ps)
    /\ dom ps = dom (peers self)
    /\ (forall b r, heap (store self) !! b = Some r -> heap σ !! b = Some r).
Proof.
  intros Hsig. unfold relay.
  match goal with |- context [foldl ?F _ _] => set (f := F) end.
  assert (Hgen : forall l σ ps, dom ps = dom (peers self) ->
            (forall b r, heap (store self) !! b = Some r -> heap σ !! b = Some r) ->
            exists σ' ps',
              foldl f (Some (set_peers (set_store self σ) ps)) l
              = Some (set_peers (set_store self σ') ps')
              /\ dom ps' = dom (peers self)
              /\ (forall b r, heap (store self) !! b = Some r -> heap σ' !! b = Some r)).
  { induction l as [|[[a p] x] l IH]; intros σ ps Hdom Hheap; [eauto|].
    cbn [foldl]. unfold f at 2. cbn -[f alloc send_req].
    destruct (String.eqb a (addr (_location self)) && negb (p =? port (_location self)));
      [|apply IH; assumption].
    rewrite Hsig. cbn -[f alloc send_req].
    destruct (alloc σ _) as [ad σ1] eqn:Halloc.
    unfold alloc in Halloc. injection Halloc as <- <-.
    assert (Hkept : forall b r, heap (store self) !! b = Some r ->
               <[fresh (dom (heap σ)) := NetRequest "ping"
                    {[ "peer" := VLoc req_peer; "version" := VStr (__version__ self);
                       "signature" := sig ]}
                    None (Some (mkLocation (addr (_location self)) p)) None (Some 1%Q)]>
                 (heap σ) !! b = Some r).
    { intros b r Hb. rewrite lookup_insert_ne; [apply Hheap, Hb|].
      intros <-. apply Hheap in Hb. apply elem_of_dom_2 in Hb.
      exact (is_fresh (dom (heap σ)) Hb). }
    unfold send_req. cbn -[f]. rewrite lookup_insert_eq. cbn -[f].
    destruct (ps !! _) as [peer|] eqn:Hpeer; cbn -[f]; rewrite set_store_peers_again;
      apply IH; try exact Hdom; try exact Hkept.
    rewrite dom_insert_L, <- Hdom.
    apply elem_of_dom_2 in Hpeer.
    apply subseteq_union_1_L, singleton_subseteq_l, Hpeer. }
  replace (Some self) with (Some (set_peers (set_store self (store self)) (peers self)))
    by (destruct self; reflexivity).
  apply Hgen; [reflexivity | auto].
Qed.

(** Once the other side is confirmed and is not in the table, it is
    installed after the relay, and the pending requests are sent to it. *)
Lemma add_peer_installs env self (req : _NetRequest) (p : Location)
      (code : option string) (tr : list action) (sig : value) :
  kwargs req !! "signature" = Some sig ->
  peers self !! key_of p = None ->
  exists σ ps,
    dom ps = dom (peers self) /\
    (forall b r, heap (store self) !! b = Some r -> heap σ !! b = Some r) /\
    add_peer env self req p code tr
    = mkResult (install (set_peers (set_store self σ) ps) p code)
               (tr ++ drain env (install (set_peers (set_store self σ) ps) p code) p code)
               Continue.
Proof.
  intros Hsig Hnew.
  destruct (relay_queues self req p sig Hsig) as (σ & ps & Hrelay & Hdom & Hheap).
  exists σ, ps. split; [exact Hdom|]. split; [exact Hheap|]. unfold add_peer. rewrite Hrelay.
  rewrite bool_decide_eq_false_2; [reflexivity|].
  simpl. intros Hsome. apply elem_of_dom in Hsome. rewrite Hdom in Hsome.
  apply elem_of_dom in Hsome. rewrite Hnew in Hsome. destruct Hsome; discriminate.
Qed.

Lemma install_lookup self (p : Location) (code : option string) :
  exists peer,
    peers (install self p code) !! key_of p = Some peer
    /\ location peer = p /\ peer_auth peer = code
    /\ reqs peer = [] /\ conn peer = None.
Proof.
  unfold install. destruct (_ || _); simpl; rewrite lookup_insert_eq;
    eexists; (split; [reflexivity|]); repeat split.
Qed.

(** With the same secret an instance derives, from the signature of the
    other, the auth code of the other. *)
Lemma derived_code_matches A B :
  credentials_ok A -> credentials_ok B -> _secret A = _secret B ->
  (forall sec sig, _secret B = Some sec -> _signature B = Some sig ->
                   is_ascii (sig ++ sec)%string = true) ->
  auth_code_for (_secret A) (Some (signature_value B)) = Some (_auth_code B).
Proof.
  intros [ra HA] [rb HB] Hsec Hascii. unfold auth_code_for, signature_value.
  unfold init_credentials in HA, HB. rewrite Hsec in *.
  destruct (_secret B) as [sec|].
  - injection HB as HsigB HcodeB. rewrite HsigB, HcodeB.
    rewrite (Hascii sec rb eq_refl HsigB). reflexivity.
  - injection HB as HsigB HcodeB. rewrite HcodeB. reflexivity.
Qed.


(** X4. The handshake between two instances with the same secret and
    version. [B] handles the [ping] of [A] (whatever auth code the ping
    carries) and sends one message, its [pong] to [A], stamped with the
    auth code of [A]; [A] acknowledges it; afterwards each has the other
    in its peer table under the auth code of the other, and the auth
    codes of both are what they were. *)
Theorem matching_secrets_handshake A B (envA envB : tcp_env) (a : option string) :
  credentials_ok A -> credentials_ok B ->
  _secret A = _secret B -> __version__ A = __version__ B ->
  _location A <> _location B ->
  (forall sec sig, _secret A = Some sec ->
                   _signature A = Some sig \/ _signature B = Some sig ->
                   is_ascii (sig ++ sec)%string = true) ->
  peers A !! key_of (_location B) = None ->
  peers B !! key_of (_location A) = None ->
  _requests B = ∅ ->
  conn_ok envA = true ->
  let ping := NetRequest "ping" (hello A) None (Some (_location B)) a None in
  let A' := (exchange_with envA envB A B ping).1 in
  let r := (exchange_with envA envB A B ping).2 in
  r_status r = Continue
  /\ sent_to (r_trace r)
     = [(_location A, NetRequest "pong" (hello B) None (Some (_location A)) (_auth_code A) None)]
  /\ (exists pB, peers A' !! key_of (_location B) = Some pB
                 /\ location pB = _location B /\ peer_auth pB = _auth_code B)
  /\ (exists pA, peers (r_state r) !! key_of (_location A) = Some pA
                 /\ location pA = _location A /\ peer_auth pA = _auth_code A)
  /\ _auth_code A' = _auth_code A /\ _auth_code (r_state r) = _auth_code B.
Proof.
  intros HA HB Hsecret Hversion Hloc Hascii HnewB HnewA Hpending HokA ping A' r.
  assert (HcodeA : auth_code_for (_secret B) (Some (signature_value A)) = Some (_auth_code A)).
  { apply derived_code_matches; [exact HB | exact HA | congruence |].
    intros sec sig Hs Hsig. apply Hascii; [exact Hs | left; exact Hsig]. }
  assert (HcodeB : auth_code_for (_secret A) (Some (signature_value B)) = Some (_auth_code B)).
  { apply derived_code_matches; [exact HA | exact HB | congruence |].
    intros sec sig Hs Hsig. apply Hascii; [congruence | right; exact Hsig]. }
  set (pong := NetRequest "pong" (hello B) None (Some (_location A)) (_auth_code A) None).
  (* the round of A on the pong of B *)
  destruct (add_peer_installs envA A (on_wire pong) (_location B) (_auth_code B)
              [conn_send_raw "ack"] (signature_value B) (hello_signature B) HnewB)
    as (σA & psA & HdomA & _ & HaddA).
  assert (HpongA : _tcp_task_round envA A (request (on_wire pong))
                   = add_peer envA A (on_wire pong) (_location B) (_auth_code B)
                              [conn_send_raw "ack"]).
  { rewrite round_dispatch; [| reflexivity | right; reflexivity | discriminate].
    unfold dispatch. change (verb_of (name (on_wire pong))) with (Some v_pong).
    cbv iota. unfold handle_pong, version_ok.
    change (kwargs (on_wire pong)) with (hello B).
    rewrite hello_peer, hello_signature, hello_version, HcodeB.
    rewrite bool_decide_eq_true_2 by congruence.
    unfold known_with. rewrite HnewB, HokA. reflexivity. }
  (* the round of B on the ping of A *)
  set (env := mkTcpEnv (network_with envA A (net envB)) (conn_ok envB) (recvall envB)
                       (now envB)).
  destruct (add_peer_installs env B (on_wire ping) (_location A) (_auth_code A)
              [sock_connect (_location A); sock_send_msg (_location A) (on_wire pong)]
              (signature_value A) (hello_signature A) HnewA)
    as (σB & psB & HdomB & _ & HaddB).
  assert (Hdrain : drain env (install (set_peers (set_store B σB) psB)
                                      (_location A) (_auth_code A))
                         (_location A) (_auth_code A) = []).
  { unfold drain, pending_reqs.
    replace (_requests (install (set_peers (set_store B σB) psB) (_location A)
                                (_auth_code A)))
      with (_requests B) by reflexivity.
    rewrite Hpending, map_to_list_empty. reflexivity. }
  rewrite Hdrain, app_nil_r in HaddB.
  assert (HpingB : _tcp_task_round env B (request (on_wire ping))
                   = mkResult (install (set_peers (set_store B σB) psB)
                                       (_location A) (_auth_code A))
                       [sock_connect (_location A);
                        sock_send_msg (_location A) (on_wire pong)] Continue).
  { rewrite <- HaddB.
    rewrite round_validated by (right; reflexivity). unfold validated.
    rewrite not_misaddressed by (right; reflexivity).
    rewrite bool_decide_eq_false_2 by discriminate.
    unfold dispatch. change (verb_of (name (on_wire ping))) with (Some v_ping).
    cbv iota. unfold handle_ping, version_ok.
    change (kwargs (on_wire ping)) with (hello A).
    rewrite hello_peer, hello_signature, hello_version, HcodeA.
    rewrite bool_decide_eq_true_2 by congruence.
    rewrite bool_decide_eq_false_2 by exact Hloc.
    unfold known_with. rewrite HnewA. fold pong.
    assert (Hnet : net env (_location A) pong = received "ack").
    { subst env. simpl. unfold network_with.
      rewrite bool_decide_eq_true_2 by reflexivity.
      unfold serve. rewrite HpongA, HaddA. reflexivity. }
    unfold send_on_fresh_socket. rewrite Hnet. reflexivity. }
  subst r A'. unfold exchange_with. fold env. cbn [fst snd]. rewrite HpingB.
  cbn [r_status r_trace r_state].
  split; [reflexivity|]. split; [reflexivity|].
  unfold after_messages. cbn -[_tcp_task_round install].
  rewrite bool_decide_eq_true_2 by reflexivity.
  change (on_wire (on_wire pong)) with (on_wire pong).
  unfold serve. rewrite HpongA, HaddA. cbn [fst r_state].
  split; [| split; [| split; reflexivity]].
  - destruct (install_lookup (set_peers (set_store A σA) psA) (_location B) (_auth_code B))
      as (pB & Hl & Hp & Hc & _).
    exists pB. auto.
  - destruct (install_lookup (set_peers (set_store B σB) psB) (_location A) (_auth_code A))
      as (pA & Hl & Hp & Hc & _).
    exists pA. auto.
Qed.

(** X5. A request that waits in [_requests] without destination, or for
    the location [p], is sent to [p] when the [pong] of [p] makes it a
    peer: the round answers [ack], and on a fresh socket to [p] goes a
    copy of the request with the auth code derived for [p] in [auth]
    (and without its event), its other fields as stored. The stored
    request itself is not changed (the code sends a [deepcopy]) and
    stays in [_requests]. *)
Theorem pending_request_reaches_new_peer env self (pong : _NetRequest) (p : Location)
        (code : option string) (sig : value) (i a : Z) (rq : _NetRequest) :
  name pong = "pong" -> auth pong = _auth_code self -> src pong = None ->
  dst pong = None \/ dst pong = Some (_location self) ->
  kwargs pong !! "peer" = Some (VLoc p) ->
  kwargs pong !! "version" = Some (VStr (__version__ self)) ->
  kwargs pong !! "signature" = Some sig ->
  auth_code_for (_secret self) (Some sig) = Some code ->
  peers self !! key_of p = None ->
  conn_ok env = true ->
  _requests self !! i = Some a -> heap (store self) !! a = Some rq ->
  dst rq = None \/ dst rq = Some p ->
  net env p (mkReq (name rq) (kwargs rq) (src rq) (dst rq) code (event rq) (id rq)
                   (reply rq) (timeout rq)) <> connect_failed ->
  let r := _tcp_task_round env self (request pong) in
  r_status r = Continue
  /\ raw_replies (r_trace r) = ["ack"]
  /\ (p, mkReq (name rq) (kwargs rq) (src rq) (dst rq) code None (id rq)
               (reply rq) (timeout rq)) ∈ sent_to (r_trace r)
  /\ heap (store (r_state r)) !! a = Some rq
  /\ _requests (r_state r) = _requests self
  /\ exists peer, peers (r_state r) !! key_of p = Some peer /\ peer_auth peer = code.
Proof.
  intros Hname Hauth Hsrc Hdst Hpeer Hversion Hsig Hcode Hnew Hok Hi Ha Hto Hnet r.
  change (mkReq (name rq) (kwargs rq) (src rq) (dst rq) code (event rq) (id rq)
                (reply rq) (timeout rq)) with (set_auth rq code) in Hnet.
  change (mkReq (name rq) (kwargs rq) (src rq) (dst rq) code None (id rq)
                (reply rq) (timeout rq)) with (on_wire (set_auth rq code)).
  destruct (add_peer_installs env self pong p code [conn_send_raw "ack"] sig Hsig Hnew)
    as (σ & ps & Hdom & Hheap & Hadd).
  assert (Hr : r = add_peer env self pong p code [conn_send_raw "ack"]).
  { subst r. rewrite round_dispatch; [| exact Hauth | exact Hdst | congruence].
    unfold dispatch. rewrite Hname. change (verb_of "pong") with (Some v_pong). cbv iota.
    unfold handle_pong, version_ok. rewrite Hpeer, Hsig, Hcode.
    rewrite bool_decide_eq_true_2 by exact Hversion.
    unfold known_with. rewrite Hnew, Hok. reflexivity. }
  rewrite Hr, Hadd. cbn [r_status r_trace r_state].
  set (self2 := install (set_peers (set_store self σ) ps) p code).
  assert (Hpending : rq ∈ pending_reqs self2 p).
  { unfold pending_reqs. apply list_elem_of_omap. exists (i, a). split.
    - apply elem_of_map_to_list. exact Hi.
    - cbn [snd]. replace (heap (store self2) !! a) with (Some rq)
        by (symmetry; apply Hheap, Ha).
      cbn [mbind option_bind].
      destruct Hto as [-> | ->].
      + rewrite bool_decide_eq_true_2 by reflexivity. reflexivity.
      + rewrite (bool_decide_eq_true_2 (Some p = Some p)) by reflexivity.
        rewrite orb_true_r. reflexivity. }
  assert (Hsent : (p, on_wire (set_auth rq code)) ∈ sent_to (drain env self2 p code)).
  { unfold sent_to. apply list_elem_of_omap.
    exists (sock_send_msg p (on_wire (set_auth rq code))). split; [|reflexivity].
    unfold drain. apply list_elem_of_In, in_flat_map. exists rq. split.
    - apply list_elem_of_In, Hpending.
    - unfold send_on_fresh_socket. destruct (net env p (set_auth rq code));
        [contradiction | right; left; reflexivity..]. }
  split; [reflexivity|]. split.
  { unfold raw_replies. rewrite omap_app. cbn [omap].
    replace (omap _ (drain env self2 p code)) with (@nil string); [reflexivity|].
    symmetry. unfold drain.
    generalize (pending_reqs self2 p) as l.
    intros l. induction l as [|x l IH]; [reflexivity|].
    cbn [flat_map]. rewrite omap_app, IH, app_nil_r.
    unfold send_on_fresh_socket. destruct (net env p (set_auth x code)); reflexivity. }
  split.
  { unfold sent_to in *. rewrite omap_app. apply elem_of_app. right. exact Hsent. }
  split; [apply Hheap, Ha|]. split; [reflexivity|].
  destruct (install_lookup (set_peers (set_store self σ) ps) p code) as (peer & Hl & _ & Hc & _).
  exists peer. split; assumption.
Qed.

End Handshake.

(** ** Pings that are not answered, and terminate *)

Section Repeats.
Context {S : Type} `{!LocalScheduler S} `{!Library}.
Implicit Type self : AsynCoro S.

(** X6. An instance does not answer its own [ping]: a datagram or a TCP
    [ping] that names the own location as the peer leads to no message,
    no reply and no change of state; in particular this holds for the
    broadcast of the instance itself, and for its TCP [ping] whatever
    destination, auth code and timeout it carries. *)
Theorem own_ping_ignored env self :
  (forall info, info !! "location" = Some (VLoc (_location self)) ->
                _udp_proc_round env self (ping_datagram (Some info)) = [])
  /\ (forall req : _NetRequest,
        name req = "ping" -> src req = None ->
        kwargs req !! "peer" = Some (VLoc (_location self)) ->
        _tcp_task_round env self (request req) = mkResult self [] Break)
  /\ _udp_proc_round env self (ping_datagram (Some (ping_info self))) = []
  /\ (forall (d : option Location) (a : option string) (t : option Q),
        _tcp_task_round env self (request (NetRequest "ping" (hello self) None d a t))
        = mkResult self [] Break).
Proof.
  assert (Hudp : forall info, info !! "location" = Some (VLoc (_location self)) ->
                   _udp_proc_round env self (ping_datagram (Some info)) = []).
  { intros info Hloc. unfold _udp_proc_round. rewrite Hloc.
    destruct (info !! "version") as [v|]; [|reflexivity].
    destruct (negb _); [reflexivity|].
    destruct (auth_code_for _ _); [|reflexivity].
    rewrite bool_decide_eq_true_2 by reflexivity. reflexivity. }
  assert (Htcp : forall req : _NetRequest,
             name req = "ping" -> src req = None ->
             kwargs req !! "peer" = Some (VLoc (_location self)) ->
             _tcp_task_round env self (request req) = mkResult self [] Break).
  { intros req Hname Hsrc Hpeer.
    rewrite round_validated by (right; exact Hname). unfold validated.
    destruct (misaddressed self req); [reflexivity|].
    rewrite Hsrc, bool_decide_eq_false_2 by discriminate.
    unfold dispatch. rewrite Hname. change (verb_of "ping") with (Some v_ping). cbv iota.
    unfold handle_ping. rewrite Hpeer.
    destruct (auth_code_for _ _); [|reflexivity].
    destruct (version_ok self req); [|reflexivity].
    rewrite bool_decide_eq_true_2 by reflexivity. reflexivity. }
  split; [exact Hudp|]. split; [exact Htcp|]. split.
  - apply Hudp. unfold ping_info. apply lookup_insert_eq.
  - intros d a t. apply Htcp; reflexivity.
Qed.

(** X7. The handshake is not repeated with a peer that is in the table
    under the auth code derived from its signature: its datagram is
    ignored, its TCP [ping] ends the round without a [pong], and its
    [pong] is answered [nak] (or not at all, when the version differs);
    the state stays as it is in all three cases. *)
Theorem handshake_not_repeated env self (p : Location) (peer : _Peer) (sig : option value) :
  peers self !! key_of p = Some peer ->
  auth_code_for (_secret self) sig = Some (peer_auth peer) ->
  (forall info, info !! "location" = Some (VLoc p) -> info !! "signature" = sig ->
                _udp_proc_round env self (ping_datagram (Some info)) = [])
  /\ (forall req : _NetRequest,
        name req = "ping" -> src req = None ->
        kwargs req !! "peer" = Some (VLoc p) -> kwargs req !! "signature" = sig ->
        _tcp_task_round env self (request req) = mkResult self [] Break)
  /\ (forall req : _NetRequest,
        name req = "pong" -> auth req = _auth_code self -> src req = None ->
        dst req = None \/ dst req = Some (_location self) ->
        kwargs req !! "peer" = Some (VLoc p) -> kwargs req !! "signature" = sig ->
        _tcp_task_round env self (request req)
        = mkResult self (if version_ok self req then [conn_send_raw "nak"] else []) Break).
Proof.
  intros Hpeer Hcode.
  assert (Hknown : known_with self p (peer_auth peer) = true).
  { unfold known_with. rewrite Hpeer. apply bool_decide_eq_true_2. reflexivity. }
  split; [| split].
  - intros info Hloc Hsig. unfold _udp_proc_round. rewrite Hloc.
    destruct (info !! "version") as [v|]; [|reflexivity].
    destruct (negb _); [reflexivity|].
    rewrite Hsig, Hcode, Hknown. destruct (bool_decide _); reflexivity.
  - intros req Hname Hsrc Hp Hsig.
    rewrite round_validated by (right; exact Hname). unfold validated.
    destruct (misaddressed self req); [reflexivity|].
    rewrite Hsrc, bool_decide_eq_false_2 by discriminate.
    unfold dispatch. rewrite Hname. change (verb_of "ping") with (Some v_ping). cbv iota.
    unfold handle_ping. rewrite Hp, Hsig, Hcode, Hknown.
    destruct (version_ok self req); [|reflexivity].
    destruct (bool_decide _); reflexivity.
  - intros req Hname Hauth Hsrc Hdst Hp Hsig.
    rewrite round_dispatch; [| exact Hauth | exact Hdst | congruence].
    unfold dispatch. rewrite Hname. change (verb_of "pong") with (Some v_pong). cbv iota.
    unfold handle_pong. rewrite Hp, Hsig, Hcode, Hknown.
    destruct (version_ok self req); reflexivity.
Qed.

(** X8. [terminate] removes the named peer from the table and leaves all
    others; the round answers [ack] and is the last of its connection. A
    request to the removed location is then refused by [_Peer.send_req]
    with [-1]. *)
Theorem terminate_forgets env self (req : _NetRequest) (l : Location) :
  name req = "terminate" -> auth req = _auth_code self -> src req = None ->
  dst req = None \/ dst req = Some (_location self) ->
  kwargs req !! "peer" = Some (VLoc l) ->
  let r := _tcp_task_round env self (request req) in
  r_status r = Break
  /\ r_trace r = [conn_send_msg (VBytes "ack")]
  /\ peers (r_state r) !! key_of l = None
  /\ (forall k, k <> key_of l -> peers (r_state r) !! k = peers self !! k)
  /\ (forall (σ : Store) (a : Z) (rq : _NetRequest),
        heap σ !! a = Some rq -> dst rq = Some l ->
        send_req (peers (r_state r)) σ a = Some (-1, peers (r_state r))).
Proof.
  intros Hname Hauth Hsrc Hdst Hpeer r.
  assert (Hr : r = mkResult (set_peers self (remove (peers self) l))
                            [conn_send_msg (VBytes "ack")] Break).
  { subst r. rewrite round_dispatch; [| exact Hauth | exact Hdst | congruence].
    unfold dispatch. rewrite Hname. change (verb_of "terminate") with (Some v_terminate).
    cbv iota. unfold handle_terminate, src_is_none, kwargs_get.
    rewrite bool_decide_eq_true_2 by exact Hsrc. rewrite Hpeer. reflexivity. }
  rewrite Hr. cbn [r_status r_trace r_state]. split; [reflexivity|]. split; [reflexivity|].
  assert (Hgone : peers (set_peers self (remove (peers self) l)) !! key_of l = None)
    by apply lookup_delete_eq.
  split; [exact Hgone|]. split.
  - intros k Hk. simpl. unfold remove. apply lookup_delete_ne. congruence.
  - intros σ a rq Ha Hd. unfold send_req. rewrite Ha. cbn [mbind option_bind].
    rewrite Hd. cbn [mbind option_bind]. rewrite Hgone. reflexivity.
Qed.

End Repeats.

(** ** The payload of send_file *)

(** Two file systems with the same directories resolve paths alike. *)
Lemma walk_same_dirs (f f' : os.filesystem) (comps stack : list string) :
  os.fs_dirs f' = os.fs_dirs f -> os.walk f' stack comps = os.walk f stack comps.
Proof.
  intros Hd. revert stack. induction comps as [|c rest IH]; intros stack; [reflexivity|].
  simpl. unfold os.is_dir_at. rewrite Hd.
  destruct (negb _); [reflexivity|].
  destruct (_ || _); [apply IH|]. destruct (String.eqb c ".."); apply IH.
Qed.

Lemma resolve_same_dirs (f f' : os.filesystem) (p : string) :
  os.fs_dirs f' = os.fs_dirs f -> os.fs_cwd f' = os.fs_cwd f ->
  os.resolve f' p = os.resolve f p.
Proof.
  intros Hd Hc. unfold os.resolve. rewrite Hc.
  rewrite (walk_same_dirs f f') by exact Hd. reflexivity.
Qed.

(** What [open(p, 'wb')] leaves: an empty file at the path it resolved. *)
Lemma open_wb_empty (f f' : os.filesystem) (t : Q) (p q : string) :
  os.open_wb f t p = Some (q, f') ->
  os.resolve f p = Some q
  /\ os.fs_dirs f' = os.fs_dirs f /\ os.fs_cwd f' = os.fs_cwd f
  /\ exists x, os.fs_files f' !! q = Some x /\ os.f_data x = "".
Proof.
  unfold os.open_wb. destruct (os.resolve f p) as [q0|]; simpl; [|discriminate].
  destruct (os.is_dir_at f q0); [discriminate|].
  intros Heq. injection Heq as <- <-. split; [reflexivity|].
  split; [reflexivity|]. split; [reflexivity|]. simpl.
  rewrite lookup_insert_eq. destruct (os.fs_files f !! q0); eexists; split; reflexivity.
Qed.

Lemma append_assoc (a b c : string) : ((a ++ b) ++ c)%string = (a ++ (b ++ c))%string.
Proof.
  induction a as [|x a IH]; [reflexivity|].
  change (String x ((a ++ b) ++ c)%string = String x (a ++ (b ++ c))%string).
  rewrite IH. reflexivity.
Qed.

Lemma substring_length (s : string) (m : nat) :
  (String.length (substring 0 m s) <= m)%nat.
Proof.
  revert s. induction m as [|m IH]; intros [|c s]; simpl; try lia.
  specialize (IH s). lia.
Qed.

(** The receiving loop only appends to the target: it counts what it
    wrote and never writes more than was announced. *)
Lemma receive_appends (chunks : list (io string)) :
  forall (f : os.filesystem) (q : string) (size n : Z) (x : os.file),
    os.fs_files f !! q = Some x -> n <= size ->
    exists w,
      let '(n', f') := receive f q size n chunks in
      os.fs_dirs f' = os.fs_dirs f /\ os.fs_cwd f' = os.fs_cwd f
      /\ os.fs_files f' = <[q := os.mkFile (os.f_mode x) (os.f_atime x) (os.f_mtime x)
                                           (os.f_data x ++ w)]> (os.fs_files f)
      /\ n' = n + Z.of_nat (String.length w) /\ n' <= size.
Proof.
  induction chunks as [|c rest IH]; intros f q size n x Hx Hn.
  all: assert (Hnone : exists w,
           os.fs_dirs f = os.fs_dirs f /\ os.fs_cwd f = os.fs_cwd f
           /\ os.fs_files f = <[q := os.mkFile (os.f_mode x) (os.f_atime x) (os.f_mtime x)
                                              (os.f_data x ++ w)]> (os.fs_files f)
           /\ n = n + Z.of_nat (String.length w) /\ n <= size)
    by (exists ""; rewrite append_empty; repeat split;
        [symmetry; apply insert_id; destruct x; exact Hx | simpl; lia | lia]).
  - exact Hnone.
  - simpl. destruct (n <? size) eqn:Hlt; [|exact Hnone].
    destruct c as [data|e]; [|exact Hnone].
    set (d := substring 0 (Z.to_nat (Z.min (size - n) 10240000)) data).
    destruct (String.eqb d "") eqn:Hd; [exact Hnone|].
    assert (Hlen : Z.of_nat (String.length d) <= size - n).
    { subst d. pose proof (substring_length data (Z.to_nat (Z.min (size - n) 10240000))).
      apply Z.ltb_lt in Hlt. lia. }
    destruct (IH (os.write f q d) q size (n + Z.of_nat (String.length d))
                 (os.mkFile (os.f_mode x) (os.f_atime x) (os.f_mtime x) (os.f_data x ++ d)))
      as [w Hw].
    { simpl. rewrite lookup_alter_eq, Hx. reflexivity. }
    { lia. }
    exists (d ++ w)%string.
    destruct (receive (os.write f q d) q size _ rest) as [n' f'].
    destruct Hw as (Hdirs & Hcwd & Hfiles & Hn' & Hle). simpl in *.
    split; [exact Hdirs|]. split; [exact Hcwd|]. split; [| split; [|exact Hle]].
    + rewrite Hfiles. rewrite append_assoc.
      apply map_eq. intros k. destruct (decide (k = q)) as [->|Hk].
      * rewrite !lookup_insert_eq. reflexivity.
      * rewrite !lookup_insert_ne by congruence. rewrite lookup_alter_ne by congruence.
        reflexivity.
    + rewrite Hn', length_append. lia.
Qed.

Lemma create_target_spec {S : Type} env (self : AsynCoro S) (tgt q : string)
      (f : os.filesystem) :
  create_target env self tgt = Some (q, f) ->
  os.resolve f tgt = Some q /\ os.fs_cwd f = os.fs_cwd (fs self)
  /\ exists x, os.fs_files f !! q = Some x /\ os.f_data x = "".
Proof.
  unfold create_target. intros Hct.
  destruct (if os.isdir (fs self) (posixpath.dirname tgt) then Some (fs self)
            else os.makedirs (fs self) (posixpath.dirname tgt)) as [f1|] eqn:Hf1;
    simpl in Hct; [|discriminate].
  assert (Hcwd1 : os.fs_cwd f1 = os.fs_cwd (fs self)).
  { destruct (os.isdir _ _); [injection Hf1 as <-; reflexivity|].
    unfold os.makedirs in Hf1. destruct (os.is_dir_at _ _); [discriminate|].
    destruct (os.mkdir_chain _ _ _ _); simpl in Hf1; [|discriminate].
    injection Hf1 as <-. reflexivity. }
  destruct (open_wb_empty f1 f (now env) tgt q Hct) as (Hres & Hdirs & Hcwd & Hx).
  split; [| split; [congruence | exact Hx]].
  rewrite (resolve_same_dirs f1 f) by assumption. exact Hres.
Qed.

Lemma S_IMODE_chmod (old mode : Z) :
  os.S_IMODE (Z.lor (Z.land old (Z.lnot 4095)) (Z.land (os.S_IMODE mode) 4095))
  = os.S_IMODE mode.
Proof.
  unfold os.S_IMODE. apply Z.bits_inj'. intros n Hn.
  rewrite !Z.land_spec, Z.lor_spec, !Z.land_spec, Z.lnot_spec by exact Hn.
  destruct (Z.testbit 4095 n); rewrite ?andb_false_r, ?andb_true_r; simpl;
    [reflexivity | reflexivity].
Qed.

Lemma same_mtime (m : Q) : Qle_bool (Qabs (m - m)) 1 = true.
Proof.
  apply Qle_bool_iff. assert (Hz : (m - m == 0)%Q) by ring.
  rewrite Hz. simpl. discriminate.
Qed.

Section Transfer.
Context {S : Type} `{!LocalScheduler S} `{!Library}.
Implicit Type self : AsynCoro S.

(** A [send_file] request whose answer is [0]: the round goes on to read
    the payload. *)
Lemma transfer_round env self (req : _NetRequest) (file : string) (dest_path : value)
      (sb : stat_result) (q : string) (f : os.filesystem) :
  name req = "send_file" -> auth req = _auth_code self ->
  src req = None -> dst req = Some (_location self) ->
  kwargs req !! "file" = Some (VStr file) ->
  kwargs req !! "dest_path" = Some dest_path ->
  kwargs req !! "stat_buf" = Some (VStat sb) ->
  preflight self (send_file_target self file dest_path) (VStat sb)
            (kwargs req !! "overwrite") = Some (VInt 0) ->
  create_target env self (send_file_target self file dest_path) = Some (q, f) ->
  conn_ok env = true ->
  _tcp_task_round env self (request req)
  = finish_transfer env self (send_file_target self file dest_path) q (VStat sb) f
                    [conn_send_msg (VInt 0)].
Proof.
  intros Hname Hauth Hsrc Hdst Hfile Hdp Hsb Hpre Hct Hok.
  rewrite round_dispatch; [| exact Hauth | right; exact Hdst | congruence].
  unfold dispatch. rewrite Hname. change (verb_of "send_file") with (Some v_send_file).
  cbv iota. unfold handle_send_file, src_is_none, dst_is_self.
  rewrite !bool_decide_eq_true_2 by assumption. simpl.
  rewrite Hfile, Hdp, Hsb, Hpre. simpl. rewrite Hct, Hok. reflexivity.
Qed.

(** X9. A [send_file] whose payload breaks off before [st_size] bytes
    have arrived: the replies are [0] (go ahead) and then [-1], the
    partial file is removed again, and the directories created for it
    stay. *)
Theorem interrupted_transfer env self (req : _NetRequest) (file : string)
        (dest_path : value) (sb : stat_result) (q : string) (f : os.filesystem) :
  name req = "send_file" -> auth req = _auth_code self ->
  src req = None -> dst req = Some (_location self) ->
  kwargs req !! "file" = Some (VStr file) ->
  kwargs req !! "dest_path" = Some dest_path ->
  kwargs req !! "stat_buf" = Some (VStat sb) ->
  let tgt := send_file_target self file dest_path in
  preflight self tgt (VStat sb) (kwargs req !! "overwrite") = Some (VInt 0) ->
  create_target env self tgt = Some (q, f) ->
  conn_ok env = true ->
  (receive f q (st_size sb) 0 (recvall env)).1 < st_size sb ->
  let r := _tcp_task_round env self (request req) in
  replies (r_trace r) = [VInt 0; VInt (-1)]
  /\ r_status r = Continue
  /\ os.isfile (fs (r_state r)) tgt = false
  /\ os.fs_dirs (fs (r_state r)) = os.fs_dirs f
  /\ os.fs_files (fs (r_state r)) = delete q (os.fs_files f).
Proof.
  intros Hname Hauth Hsrc Hdst Hfile Hdp Hsb tgt Hpre Hct Hok Hshort r.
  subst r. rewrite (transfer_round env self req file dest_path sb q f) by assumption.
  fold tgt. unfold finish_transfer. cbn [as_stat].
  destruct (create_target_spec env self tgt q f Hct) as (Hres & Hcwd & x & Hx & Hempty).
  assert (Hsize : 0 <= st_size sb).
  { destruct (recvall env) as [|c rest]; simpl in Hshort; [lia|].
    destruct (0 <? st_size sb) eqn:Hlt; [apply Z.ltb_lt in Hlt; lia | simpl in Hshort; lia]. }
  destruct (receive_appends (recvall env) f q (st_size sb) 0 x Hx Hsize) as [w Hw].
  destruct (receive f q (st_size sb) 0 (recvall env)) as [n f1].
  destruct Hw as (Hdirs & Hcwd1 & Hfiles & Hn & Hle). simpl in Hshort.
  apply Z.ltb_lt in Hshort. rewrite Hshort.
  assert (Hres1 : os.resolve f1 tgt = Some q)
    by (rewrite (resolve_same_dirs f f1) by assumption; exact Hres).
  assert (Hrm : os.remove f1 tgt = Some (os.with_files f1 (delete q (os.fs_files f1)))).
  { unfold os.remove. rewrite Hres1. simpl. unfold os.is_file_at.
    rewrite bool_decide_eq_true_2; [reflexivity|]. rewrite Hfiles, lookup_insert_eq. eauto. }
  rewrite Hrm. unfold send_reply. rewrite Hok. cbn [r_trace r_status r_state fs].
  split; [reflexivity|]. split; [reflexivity|]. split; [| split].
  - unfold os.isfile.
    rewrite (resolve_same_dirs f1) by reflexivity. rewrite Hres1.
    unfold os.is_file_at. apply bool_decide_eq_false_2. simpl.
    rewrite lookup_delete_eq. intros [? ?]; discriminate.
  - simpl. exact Hdirs.
  - simpl. rewrite Hfiles. apply delete_insert_eq.
Qed.

(** The checks of the pre-flight that do not look at the target. *)
Lemma preflight_again self self' (tgt : string) (sb s : stat_result) (ov : option value) :
  preflight self tgt (VStat sb) ov = Some (VInt 0) ->
  max_file_size self' = max_file_size self ->
  dest_path_prefix self' = dest_path_prefix self ->
  os.stat (fs self') tgt = Some s -> same_metadata sb s = true ->
  preflight self' tgt (VStat sb) ov = Some (VInt 1).
Proof.
  intros Hpre Hmax Hprefix Hstat Hsame.
  assert (Hcheck : target_check self tgt (VStat sb) ov = Some (VInt 0)
                   -> target_check self' tgt (VStat sb) ov = Some (VInt 1)).
  { unfold target_check. rewrite Hprefix.
    destruct (negb (posixpath.startswith tgt (dest_path_prefix self))); [discriminate|].
    intros _. rewrite (stat_isfile _ _ _ Hstat), Hstat. simpl. rewrite Hsame. reflexivity. }
  unfold preflight, size_limit in *. rewrite Hmax.
  destruct (max_file_size self) as [m|]; [|exact (Hcheck Hpre)].
  destruct (m =? 0); [exact (Hcheck Hpre)|]. simpl in *.
  destruct (m <? st_size sb); [discriminate | exact (Hcheck Hpre)].
Qed.

(** After the whole payload: the target at [q] holds what was written,
    with the times and the permission bits of the sender's file, and the
    answer is [0]. *)
Lemma finish_complete env self (tgt q : string) (sb : stat_result) (f : os.filesystem)
      (x : os.file) (tr : list action) :
  os.resolve f tgt = Some q -> os.fs_files f !! q = Some x ->
  conn_ok env = true -> 0 <= st_size sb ->
  st_size sb <= (receive f q (st_size sb) 0 (recvall env)).1 ->
  exists (w : string) (f3 : os.filesystem) (mode : Z),
    finish_transfer env self tgt q (VStat sb) f tr
    = mkResult (set_fs self f3) (tr ++ [conn_send_msg (VInt 0)]) Continue
    /\ os.fs_files (receive f q (st_size sb) 0 (recvall env)).2 !! q
       = Some (os.mkFile (os.f_mode x) (os.f_atime x) (os.f_mtime x) (os.f_data x ++ w))
    /\ Z.of_nat (String.length w) = st_size sb
    /\ os.resolve f3 tgt = Some q /\ os.fs_cwd f3 = os.fs_cwd f
    /\ os.fs_dirs f3 = os.fs_dirs f
    /\ os.fs_files f3 !! q
       = Some (os.mkFile mode (st_atime sb) (st_mtime sb) (os.f_data x ++ w))
    /\ os.S_IMODE mode = os.S_IMODE (st_mode sb).
Proof.
  intros Hres Hx Hok Hsize Hfull. unfold finish_transfer. cbn [as_stat].
  destruct (receive_appends (recvall env) f q (st_size sb) 0 x Hx Hsize) as [w Hw].
  destruct (receive f q (st_size sb) 0 (recvall env)) as [n f1].
  destruct Hw as (Hdirs & Hcwd1 & Hfiles & Hn & Hle). simpl in Hfull.
  assert (Hnot : (n <? st_size sb) = false) by (apply Z.ltb_ge; exact Hfull).
  rewrite Hnot.
  assert (Hres1 : os.resolve f1 tgt = Some q)
    by (rewrite (resolve_same_dirs f f1) by assumption; exact Hres).
  set (x1 := os.mkFile (os.f_mode x) (os.f_atime x) (os.f_mtime x) (os.f_data x ++ w)) in *.
  set (x2 := os.mkFile (os.f_mode x1) (st_atime sb) (st_mtime sb) (os.f_data x1)).
  set (x3 := os.mkFile (Z.lor (Z.land (os.f_mode x2) (Z.lnot 4095))
                              (Z.land (os.S_IMODE (st_mode sb)) 4095))
                       (os.f_atime x2) (os.f_mtime x2) (os.f_data x2)).
  set (f2 := os.with_files f1 (<[q := x2]> (os.fs_files f1))).
  set (f3 := os.with_files f2 (<[q := x3]> (os.fs_files f2))).
  assert (Hutime : os.utime f1 tgt (st_atime sb) (st_mtime sb) = Some f2).
  { unfold os.utime. rewrite Hres1. simpl. unfold os.is_file_at.
    rewrite bool_decide_eq_true_2 by (rewrite Hfiles, lookup_insert_eq; eauto).
    subst f2. f_equal. f_equal. rewrite Hfiles. apply map_eq. intros k.
    destruct (decide (k = q)) as [->|Hk].
    - rewrite lookup_alter_eq, !lookup_insert_eq. reflexivity.
    - rewrite lookup_alter_ne, !lookup_insert_ne by congruence. reflexivity. }
  assert (Hchmod : os.chmod f2 tgt (os.S_IMODE (st_mode sb)) = Some f3).
  { unfold os.chmod. rewrite (resolve_same_dirs f1 f2) by reflexivity. rewrite Hres1.
    simpl. unfold os.is_file_at.
    rewrite bool_decide_eq_true_2 by (simpl; rewrite lookup_insert_eq; eauto).
    subst f3. f_equal. f_equal. apply map_eq. intros k.
    destruct (decide (k = q)) as [->|Hk].
    - rewrite lookup_alter_eq. simpl. rewrite !lookup_insert_eq. reflexivity.
    - rewrite lookup_alter_ne by congruence. simpl.
      rewrite !lookup_insert_ne by congruence. reflexivity. }
  rewrite Hutime. cbn [mbind option_bind]. rewrite Hchmod.
  unfold send_reply. rewrite Hok.
  exists w, f3, (os.f_mode x3). split; [reflexivity|]. split.
  { cbn [snd]. rewrite Hfiles. apply lookup_insert_eq. }
  split; [lia|]. split.
  { rewrite (resolve_same_dirs f1 f3) by reflexivity. exact Hres1. }
  split; [exact Hcwd1|]. split; [exact Hdirs|]. split.
  - simpl. rewrite lookup_insert_eq. reflexivity.
  - apply S_IMODE_chmod.
Qed.

(** X10. A [send_file] whose payload arrives in full: the replies are
    [0] and [0]; the target then has the size, the modification and
    access times and the permission bits of the sender's [stat_buf]; and
    the same request sent again is answered [1] (the file is there
    already) without reading a payload. *)
Theorem completed_transfer env self (req : _NetRequest) (file : string)
        (dest_path : value) (sb : stat_result) (q : string) (f : os.filesystem) :
  name req = "send_file" -> auth req = _auth_code self ->
  src req = None -> dst req = Some (_location self) ->
  kwargs req !! "file" = Some (VStr file) ->
  kwargs req !! "dest_path" = Some dest_path ->
  kwargs req !! "stat_buf" = Some (VStat sb) ->
  let tgt := send_file_target self file dest_path in
  preflight self tgt (VStat sb) (kwargs req !! "overwrite") = Some (VInt 0) ->
  create_target env self tgt = Some (q, f) ->
  conn_ok env = true ->
  0 <= st_size sb ->
  st_size sb <= (receive f q (st_size sb) 0 (recvall env)).1 ->
  let r := _tcp_task_round env self (request req) in
  replies (r_trace r) = [VInt 0; VInt 0]
  /\ r_status r = Continue
  /\ (exists s, os.stat (fs (r_state r)) tgt = Some s
                /\ st_size s = st_size sb /\ st_mtime s = st_mtime sb
                /\ st_atime s = st_atime sb
                /\ os.S_IMODE (st_mode s) = os.S_IMODE (st_mode sb))
  /\ (forall env', _tcp_task_round env' (r_state r) (request req)
                   = send_reply env' (r_state r) [] (VInt 1)).
Proof.
  intros Hname Hauth Hsrc Hdst Hfile Hdp Hsb tgt Hpre Hct Hok Hsize Hfull r.
  subst r. rewrite (transfer_round env self req file dest_path sb q f) by assumption.
  fold tgt.
  destruct (create_target_spec env self tgt q f Hct) as (Hres & Hcwd & x & Hx & Hempty).
  destruct (finish_complete env self tgt q sb f x [conn_send_msg (VInt 0)]
                            Hres Hx Hok Hsize Hfull)
    as (w & f3 & mode & -> & _ & Hlen & Hres3 & Hcwd3 & _ & Hx3 & Hmode).
  cbn [r_trace r_status r_state].
  set (s := mkStat mode (Z.of_nat (String.length (os.f_data x ++ w))) (st_atime sb)
                   (st_mtime sb)).
  assert (Hstat : os.stat (fs (set_fs self f3)) tgt = Some s).
  { unfold os.stat. cbn [fs set_fs]. rewrite Hres3. simpl. rewrite Hx3. reflexivity. }
  assert (Hs : st_size s = st_size sb).
  { simpl. rewrite Hempty. change ("" ++ w)%string with w. exact Hlen. }
  split; [reflexivity|]. split; [reflexivity|]. split.
  - exists s. split; [exact Hstat|]. repeat split; assumption.
  - intros env'.
    assert (Htgt : send_file_target (set_fs self f3) file dest_path = tgt).
    { unfold send_file_target. cbn [fs set_fs dest_path_prefix].
      replace (os.fs_cwd f3) with (os.fs_cwd (fs self)) by congruence. reflexivity. }
    rewrite round_dispatch; [| exact Hauth | right; exact Hdst | congruence].
    unfold dispatch. rewrite Hname. change (verb_of "send_file") with (Some v_send_file).
    cbv iota. unfold handle_send_file, src_is_none, dst_is_self.
    rewrite bool_decide_eq_true_2 by exact Hsrc.
    rewrite bool_decide_eq_true_2 by exact Hdst. cbn [negb orb].
    rewrite Hfile, Hdp, Hsb, Htgt.
    rewrite (preflight_again self (set_fs self f3) tgt sb s
               (kwargs req !! "overwrite") Hpre eq_refl eq_refl Hstat).
    + reflexivity.
    + unfold same_metadata. rewrite Hs, Z.eqb_refl.
      replace (st_mtime s) with (st_mtime sb) by reflexivity.
      replace (st_mode s) with mode by reflexivity.
      rewrite same_mtime, Hmode, Z.eqb_refl. reflexivity.
Qed.

End Transfer.

(** ** The registries *)

Lemma registry_get_insert (d : gmap string value) (n : string) (obj k : value) :
  registry_get (<[n := obj]> d) k
  = if bool_decide (k = VStr n) then obj else registry_get d k.
Proof.
  destruct k; try reflexivity. simpl.
  destruct (decide (s = n)) as [->|Hne].
  - rewrite bool_decide_eq_true_2 by reflexivity. rewrite lookup_insert_eq. reflexivity.
  - rewrite bool_decide_eq_false_2 by congruence.
    rewrite lookup_insert_ne by congruence. reflexivity.
Qed.

Lemma registry_get_delete (d : gmap string value) (n : string) (k : value) :
  registry_get (delete n d) k
  = if bool_decide (k = VStr n) then VNone else registry_get d k.
Proof.
  destruct k; try reflexivity. simpl.
  destruct (decide (s = n)) as [->|Hne].
  - rewrite bool_decide_eq_true_2 by reflexivity. rewrite lookup_delete_eq. reflexivity.
  - rewrite bool_decide_eq_false_2 by congruence.
    rewrite lookup_delete_ne by congruence. reflexivity.
Qed.

(** The dictionary of a registry under [register] and [unregister]. *)
Lemma register_laws (d : gmap string value) (obj : value) (n : string) :
  ((register d obj n).1 = 0 <-> registry_get d (VStr n) = VNone)
  /\ ((register d obj n).1 = -1 <-> registry_get d (VStr n) <> VNone)
  /\ ((register d obj n).1 = -1 -> (register d obj n).2 = d)
  /\ (obj <> VNone -> (register d obj n).1 = 0 ->
      let d1 := (register d obj n).2 in
      registry_get d1 (VStr n) = obj
      /\ (forall other, register d1 other n = (-1, d1))
      /\ (forall other, other <> obj -> unregister d1 other n = Some (-1, d1))
      /\ exists d2, unregister d1 obj n = Some (0, d2)
                    /\ forall k, registry_get d2 k = registry_get d k).
Proof.
  unfold register.
  destruct (bool_decide (registry_get d (VStr n) = VNone)) eqn:Hfree; cbn [fst snd].
  - apply bool_decide_eq_true_1 in Hfree.
    split; [tauto|]. split; [split; [discriminate | congruence]|].
    split; [discriminate|]. intros Hobj _.
    assert (Hget : registry_get (<[n := obj]> d) (VStr n) = obj).
    { rewrite registry_get_insert, bool_decide_eq_true_2 by reflexivity. reflexivity. }
    split; [exact Hget|]. split; [| split].
    + intros other. rewrite Hget, bool_decide_eq_false_2 by exact Hobj. reflexivity.
    + intros other Hother. unfold unregister.
      rewrite Hget, bool_decide_eq_false_2 by congruence. reflexivity.
    + exists (delete n (<[n := obj]> d)). split.
      * unfold unregister. rewrite Hget, bool_decide_eq_true_2 by reflexivity.
        rewrite lookup_insert_eq. reflexivity.
      * intros k. rewrite registry_get_delete, registry_get_insert.
        destruct (bool_decide (k = VStr n)) eqn:Hk; [|reflexivity].
        apply bool_decide_eq_true_1 in Hk. subst k. symmetry. exact Hfree.
  - apply bool_decide_eq_false_1 in Hfree.
    split; [split; [discriminate | congruence]|]. split; [tauto|].
    split; [reflexivity|]. intros _ Hz. discriminate.
Qed.

Section Registry.
Context {S : Type} `{!LocalScheduler S} `{!Library}.
Implicit Type self : AsynCoro S.

(** X11. A registered name is held: after [_register_coro] returned [0]
    for [obj], a second registration under the name returns [-1] and
    changes nothing, [_unregister_coro] by any other object returns [-1]
    and changes nothing, and [_unregister_coro] by [obj] returns [0] and
    gives back the registry as it was for every lookup, so that the name
    can be registered again. The same holds for [_register_channel] and
    [_unregister_channel]. *)
Theorem registered_name_is_held self (obj : value) (n : string) :
  obj <> VNone ->
  ((_register_coro self obj n).1 = 0 ->
   let self1 := (_register_coro self obj n).2 in
   (forall other, _register_coro self1 other n = (-1, self1))
   /\ (forall other, other <> obj -> _unregister_coro self1 other n = Some (-1, self1))
   /\ exists self2,
        _unregister_coro self1 obj n = Some (0, self2)
        /\ (forall k, registry_get (_rcoros self2) k = registry_get (_rcoros self) k)
        /\ (_register_coro self2 obj n).1 = 0)
  /\ ((_register_channel self obj n).1 = 0 ->
      let self1 := (_register_channel self obj n).2 in
      (forall other, _register_channel self1 other n = (-1, self1))
      /\ (forall other, other <> obj -> _unregister_channel self1 other n = Some (-1, self1))
      /\ exists self2,
           _unregister_channel self1 obj n = Some (0, self2)
           /\ (forall k, registry_get (_rchannels self2) k = registry_get (_rchannels self) k)
           /\ (_register_channel self2 obj n).1 = 0).
Proof.
  intros Hobj. split.
  - unfold _register_coro, _unregister_coro.
    destruct (register_laws (_rcoros self) obj n) as (Hfree & _ & _ & Hheld).
    destruct (register (_rcoros self) obj n) as [st d1] eqn:Hreg. cbn [fst snd] in *.
    intros Hst. destruct (Hheld Hobj Hst) as (_ & Hsecond & Hother & d2 & Hun & Hback).
    cbn [_rcoros set_rcoros]. split; [| split].
    + intros other. rewrite Hsecond. destruct self; reflexivity.
    + intros other Hne. rewrite (Hother other Hne). destruct self; reflexivity.
    + exists (set_rcoros self d2). rewrite Hun. split; [reflexivity|].
      split; [exact Hback|]. cbn [_rcoros set_rcoros].
      destruct (register_laws d2 obj n) as (Hfree2 & _).
      destruct (register d2 obj n) as [st2 d3]. cbn [fst snd] in *.
      apply Hfree2. rewrite Hback. apply Hfree, Hst.
  - unfold _register_channel, _unregister_channel.
    destruct (register_laws (_rchannels self) obj n) as (Hfree & _ & _ & Hheld).
    destruct (register (_rchannels self) obj n) as [st d1] eqn:Hreg. cbn [fst snd] in *.
    intros Hst. destruct (Hheld Hobj Hst) as (_ & Hsecond & Hother & d2 & Hun & Hback).
    cbn [_rchannels set_rchannels]. split; [| split].
    + intros other. rewrite Hsecond. destruct self; reflexivity.
    + intros other Hne. rewrite (Hother other Hne). destruct self; reflexivity.
    + exists (set_rchannels self d2). rewrite Hun. split; [reflexivity|].
      split; [exact Hback|]. cbn [_rchannels set_rchannels].
      destruct (register_laws d2 obj n) as (Hfree2 & _).
      destruct (register d2 obj n) as [st2 d3]. cbn [fst snd] in *.
      apply Hfree2. rewrite Hback. apply Hfree, Hst.
Qed.

(** A [locate_*] request without [src] that reached its handler: the
    entry of the registry goes back on the connection; for a name that
    is not registered nothing is sent unless the request names this
    instance in [dst]. *)
Lemma locate_inline env self (registry : gmap string value) (req : _NetRequest) (n : string) :
  kwargs req !! "name" = Some (VStr n) -> src req = None ->
  r_state (handle_locate registry env self req) = self
  /\ r_trace (handle_locate registry env self req)
     = if negb (bool_decide (registry_get registry (VStr n) = VNone))
          || dst_is_self self req
       then [conn_send_msg (registry_get registry (VStr n))] else [].
Proof.
  intros Hn Hsrc. unfold handle_locate. rewrite Hn.
  destruct (_ || _); [|split; reflexivity].
  unfold answer. rewrite Hsrc. split; reflexivity.
Qed.

(** X12. [locate_coro] finds what [_register_coro] registered: before
    the registration a request for the name gets [None] when it is
    addressed to this instance and no reply otherwise; after it the reply
    is the registered coroutine, and the state is untouched; after
    [_unregister_coro] the answer is as before the registration. *)
Theorem registered_coro_is_located env self (coro : value) (n : string)
        (req : _NetRequest) :
  coro <> VNone ->
  (_register_coro self coro n).1 = 0 ->
  name req = "locate_coro" -> kwargs req !! "name" = Some (VStr n) ->
  auth req = _auth_code self -> src req = None ->
  dst req = None \/ dst req = Some (_location self) ->
  let self1 := (_register_coro self coro n).2 in
  r_trace (_tcp_task_round env self (request req))
  = (if dst_is_self self req then [conn_send_msg VNone] else [])
  /\ r_trace (_tcp_task_round env self1 (request req)) = [conn_send_msg coro]
  /\ r_state (_tcp_task_round env self1 (request req)) = self1
  /\ forall self2, _unregister_coro self1 coro n = Some (0, self2) ->
       r_trace (_tcp_task_round env self2 (request req))
       = (if dst_is_self self req then [conn_send_msg VNone] else []).
Proof.
  intros Hcoro Hreg Hname Hn Hauth Hsrc Hdst self1.
  assert (Hround : forall self', _auth_code self' = _auth_code self ->
             _location self' = _location self ->
             _tcp_task_round env self' (request req)
             = handle_locate (_rcoros self') env self' req).
  { intros self' Ha Hl. rewrite round_dispatch; [| congruence | | congruence].
    - unfold dispatch. rewrite Hname. reflexivity.
    - rewrite Hl. exact Hdst. }
  unfold _register_coro, _unregister_coro in *.
  destruct (register_laws (_rcoros self) coro n) as (Hfree & _ & _ & Hheld).
  destruct (register (_rcoros self) coro n) as [st d1] eqn:Hr. cbn [fst snd] in *.
  destruct (Hheld Hcoro Hreg) as (Hget & _ & _ & d2 & Hun & Hback).
  apply Hfree in Hreg. subst self1.
  split; [| split; [| split]].
  - rewrite (Hround self eq_refl eq_refl).
    destruct (locate_inline env self (_rcoros self) req n Hn Hsrc) as (_ & ->).
    rewrite Hreg, bool_decide_eq_true_2 by reflexivity. reflexivity.
  - rewrite (Hround (set_rcoros self d1) eq_refl eq_refl).
    destruct (locate_inline env (set_rcoros self d1) (_rcoros (set_rcoros self d1)) req n
                            Hn Hsrc) as (_ & ->).
    cbn [_rcoros set_rcoros]. rewrite Hget, bool_decide_eq_false_2 by exact Hcoro.
    reflexivity.
  - rewrite (Hround (set_rcoros self d1) eq_refl eq_refl).
    apply (locate_inline env (set_rcoros self d1) _ req n Hn Hsrc).
  - intros self2. cbn [_rcoros set_rcoros]. rewrite Hun. cbn [mbind option_bind].
    intros Heq. injection Heq as <-.
    rewrite (Hround (set_rcoros (set_rcoros self d1) d2) eq_refl eq_refl).
    destruct (locate_inline env (set_rcoros (set_rcoros self d1) d2)
                (_rcoros (set_rcoros (set_rcoros self d1) d2)) req n Hn Hsrc) as (_ & ->).
    cbn [_rcoros set_rcoros]. rewrite Hback, Hreg, bool_decide_eq_true_2 by reflexivity.
    reflexivity.
Qed.

End Registry.

(** ** Synchronous requests *)

(** A generator that runs another one to its end, on a schedule. *)
Lemma run_bind {S A B : Type} (w : schedule S) (c : coroutine S A)
      (f : A -> AsynCoro S -> coroutine S B) :
  run w (bind c f)
  = match run w c with
    | (finished v self, tr) => ((run w (f v self)).1, tr ++ (run w (f v self)).2)
    | (failed self, tr) => (failed self, tr)
    | (blocked self, tr) => (blocked self, tr)
    end.
Proof.
  induction c as [v s|s|e t s k IH|to m s k IH]; simpl.
  - destruct (run w (f v s)); reflexivity.
  - reflexivity.
  - destruct (after_wait w s e t) as [[wk s']|]; [apply IH | reflexivity].
  - destruct (after_send w s to m) as [out s'].
    rewrite IH. destruct (run w (k s' out)) as [[v s1|s1|s1] tr]; simpl;
      destruct out; reflexivity.
Qed.

(** A round of the worker on a network that connects and sends: the
    request is stamped and sent, the answer is stored ([None] when
    reading it raises), and the event is set. *)
Lemma round_reads (self : _Peer) (σ : Store) (a : Z) (rest : list Z) (req : _NetRequest)
      (r : io value) :
  reqs self = a :: rest -> heap σ !! a = Some req ->
  exists p' tr,
    req_proc_round self σ (mkProcEnv (Ret ()) (Ret ()) r)
    = Served a p'
        (signal (update (update σ a (fun x => set_auth x (peer_auth self))) a
                        (fun x => set_reply x (match r with Ret v => v | Raise _ => VNone end)))
                (event req)) tr
    /\ reqs p' = rest
    /\ sent_message tr = Some (on_wire (set_auth req (peer_auth self))).
Proof.
  intros Hq Hreq. unfold req_proc_round. rewrite Hq, Hreq. simpl.
  destruct (conn self) as [s|]; simpl; unfold exchange; simpl;
    destruct r as [v|[]]; simpl; eexists _, _; (split; [reflexivity|]);
    split; reflexivity.
Qed.

Lemma on_wire_event (req : _NetRequest) (e : option Z) (c : option string) :
  on_wire (set_auth (set_event req e) c) = on_wire (set_auth req c).
Proof. destruct req; reflexivity. Qed.

Lemma is_set_signal (σ : Store) (e : Z) : is_set (signal σ (Some e)) e = true.
Proof. unfold is_set. apply bool_decide_eq_true_2. apply events_signal. Qed.

Section Sync.
Context {S : Type} `{!LocalScheduler S} `{!Library}.
Implicit Type A B : AsynCoro S.

(** The state in which [_sync_reply] waits: the request has its event
    and is the only one in the queue of the peer. *)
Lemma sync_reply_queued A (a : Z) (req : _NetRequest) (p : _Peer) (l : Location)
      (alarm : value) :
  heap (store A) !! a = Some req -> src req = None -> dst req = Some l ->
  peers A !! key_of l = Some p -> reqs p = [] ->
  let e := fresh (dom (events (store A))) in
  let σ1 := update (mkStore (heap (store A)) (<[e := false]> (events (store A)))) a
                   (fun r => set_event r (Some e)) in
  let A1 := set_peers (set_store A σ1) (<[key_of l := set_reqs p [a] true]> (peers A)) in
  _sync_reply A a alarm
  = waits e (timeout req) A1
          (fun self w =>
             match w with
             | timed_out => returned alarm self
             | event_was_set =>
                 match heap (store self) !! a with
                 | Some r => returned (reply r) self
                 | None => raised self
                 end
             end)
  /\ heap σ1 !! a = Some (set_event req (Some e))
  /\ events σ1 !! e = Some false.
Proof.
  intros Hreq Hsrc Hdst Hp Hidle e σ1 A1.
  assert (Hreq1 : heap σ1 !! a = Some (set_event req (Some e))).
  { subst σ1. simpl. rewrite lookup_alter_eq, Hreq. reflexivity. }
  split; [| split; [exact Hreq1 | subst σ1; simpl; apply lookup_insert_eq]].
  unfold _sync_reply. rewrite Hreq.
  unfold src_is_none. rewrite bool_decide_eq_true_2 by exact Hsrc. cbn [negb].
  unfold new_event. cbv zeta. fold e. fold σ1.
  unfold send_req. rewrite Hreq1. cbn [mbind option_bind].
  replace (dst (set_event req (Some e))) with (Some l) by (destruct req; simpl in *; congruence).
  cbn [mbind option_bind]. rewrite Hp, Hidle. reflexivity.
Qed.

(** A synchronous request of [A] to a peer whose worker is idle, with
    [B] listening there, when the worker gets an answer: the coroutine
    returns the reply that the worker read, and [None] when the read
    raised. *)
Lemma sync_call (envB : tcp_env) A B (a : Z) (req : _NetRequest) (p : _Peer)
      (l : Location) (alarm : value) (rd : io value) :
  heap (store A) !! a = Some req -> src req = None -> dst req = Some l ->
  peers A !! key_of l = Some p -> reqs p = [] ->
  reads envB (_tcp_task_round envB B (request (on_wire (set_auth req (peer_auth p))))) 0
  = Some rd ->
  exists A',
    run (served_by envB B l) (_sync_reply A a alarm)
    = (finished (match rd with Ret v => v | Raise _ => VNone end) A', [])
    /\ _requests A' = _requests A /\ fs A' = fs A.
Proof.
  intros Hreq Hsrc Hdst Hp Hidle Hrd.
  destruct (sync_reply_queued A a req p l alarm Hreq Hsrc Hdst Hp Hidle)
    as (-> & Hreq1 & _).
  set (e := fresh (dom (events (store A)))) in *.
  set (σ1 := update _ a _) in *.
  set (p1 := set_reqs p [a] true).
  set (A1 := set_peers (set_store A σ1) (<[key_of l := p1]> (peers A))).
  cbn [run served_by after_wait].
  assert (Hworker : exists p' σ',
             worker_round envB B l A1
             = set_peers (set_store A1 σ') (<[key_of l := p']> (peers A1))
             /\ is_set σ' e = true
             /\ reply <$> heap σ' !! a
                = Some (match rd with Ret v => v | Raise _ => VNone end)).
  { unfold worker_round.
    replace (peers A1 !! key_of l) with (Some p1) by (symmetry; apply lookup_insert_eq).
    cbv zeta.
    destruct (round_reads p1 (store A1) a [] (set_event req (Some e))
                          (Raise other_exception) eq_refl Hreq1)
      as (p0 & tr0 & -> & _ & ->).
    replace (heap (store A1) !! a) with (Some (set_event req (Some e))) by (symmetry; exact Hreq1).
    replace (peer_auth p1) with (peer_auth p) by reflexivity.
    rewrite on_wire_event, Hrd.
    destruct (round_reads p1 (store A1) a [] (set_event req (Some e)) rd eq_refl Hreq1)
      as (p' & tr & -> & _).
    eexists _, _. split; [reflexivity|]. split; [apply is_set_signal|].
    rewrite heap_signal. simpl. rewrite !lookup_alter_eq, Hreq. reflexivity. }
  destruct Hworker as (p' & σ' & -> & Hset & Hv).
  unfold quiet_wait. cbn [store set_store set_peers]. rewrite Hset.
  cbn [run store set_store set_peers].
  destruct (heap σ' !! a) as [r|] eqn:Hr; [|discriminate]. injection Hv as Hv.
  cbn [run]. rewrite Hv. eexists. split; [reflexivity|]. split; reflexivity.
Qed.

(** The same request when [B] neither answers nor closes: the worker
    waits in [recv_msg], the event is not set, and without a timeout the
    coroutine is not resumed. *)
Lemma sync_call_waiting (envB : tcp_env) A B (a : Z) (req : _NetRequest) (p : _Peer)
      (l : Location) (alarm : value) :
  heap (store A) !! a = Some req -> src req = None -> dst req = Some l ->
  peers A !! key_of l = Some p -> reqs p = [] ->
  reads envB (_tcp_task_round envB B (request (on_wire (set_auth req (peer_auth p))))) 0
  = None ->
  timeout req = None ->
  exists A',
    run (served_by envB B l) (_sync_reply A a alarm) = (blocked A', [])
    /\ _requests A' = _requests A.
Proof.
  intros Hreq Hsrc Hdst Hp Hidle Hrd Ht.
  destruct (sync_reply_queued A a req p l alarm Hreq Hsrc Hdst Hp Hidle)
    as (-> & Hreq1 & Hev).
  set (e := fresh (dom (events (store A)))) in *.
  set (σ1 := update _ a _) in *.
  set (p1 := set_reqs p [a] true).
  set (A1 := set_peers (set_store A σ1) (<[key_of l := p1]> (peers A))).
  cbn [run served_by after_wait].
  assert (Hworker : exists p' σ',
             worker_round envB B l A1
             = set_peers (set_store A1 σ') (<[key_of l := p']> (peers A1))
             /\ events σ' = events σ1).
  { unfold worker_round.
    replace (peers A1 !! key_of l) with (Some p1) by (symmetry; apply lookup_insert_eq).
    cbv zeta.
    destruct (round_reads p1 (store A1) a [] (set_event req (Some e))
                          (Raise other_exception) eq_refl Hreq1)
      as (p0 & tr0 & -> & _ & ->).
    replace (heap (store A1) !! a) with (Some (set_event req (Some e))) by (symmetry; exact Hreq1).
    replace (peer_auth p1) with (peer_auth p) by reflexivity.
    rewrite on_wire_event, Hrd. unfold sent_and_waiting.
    eexists _, _. split; reflexivity. }
  destruct Hworker as (p' & σ' & -> & Hevents).
  unfold quiet_wait, is_set. cbn [store set_store set_peers]. rewrite Hevents.
  rewrite bool_decide_eq_false_2 by (rewrite Hev; discriminate).
  rewrite Ht. eexists. split; reflexivity.
Qed.

(** A synchronous request to a location that is not in the peer table
    is not queued: only a timeout ends the wait. *)
Lemma sync_call_unknown (envB : tcp_env) A B (a : Z) (req : _NetRequest)
      (l : Location) (alarm : value) :
  heap (store A) !! a = Some req -> src req = None -> dst req = Some l ->
  peers A !! key_of l = None ->
  exists A',
    run (served_by envB B l) (_sync_reply A a alarm)
    = (match timeout req with
       | Some _ => finished alarm A'
       | None => blocked A'
       end, [])
    /\ peers A' = peers A /\ _requests A' = _requests A.
Proof.
  intros Hreq Hsrc Hdst Hp. unfold _sync_reply. rewrite Hreq.
  unfold src_is_none. rewrite bool_decide_eq_true_2 by exact Hsrc. cbn [negb].
  unfold new_event. cbv zeta.
  set (e := fresh (dom (events (store A)))).
  set (σ1 := update _ a _).
  assert (Hreq1 : heap σ1 !! a = Some (set_event req (Some e))).
  { subst σ1. simpl. rewrite lookup_alter_eq, Hreq. reflexivity. }
  unfold send_req. rewrite Hreq1. cbn [mbind option_bind].
  replace (dst (set_event req (Some e))) with (Some l) by (destruct req; simpl in *; congruence).
  cbn [mbind option_bind]. rewrite Hp.
  cbn [run served_by after_wait]. unfold worker_round.
  cbn [peers set_peers set_store]. rewrite Hp.
  unfold quiet_wait, is_set. cbn [store set_store set_peers].
  rewrite bool_decide_eq_false_2.
  2:{ subst σ1. simpl. rewrite lookup_insert_eq. discriminate. }
  destruct (timeout req); cbn [run]; eexists; (split; [reflexivity|]); split; reflexivity.
Qed.

(** X13. [_sync_reply] on a request for the location [l], with the
    instance [B] listening there. When [l] is a peer whose queue is
    empty, the worker of the peer sends the request with the auth code
    of the peer in [auth], and
    - the result is the first reply of the round of [B] on it;
    - when [B] sends no reply and leaves its loop (it closes the
      connection), the result is [None];
    - when [B] sends no reply and stays in its loop, the worker waits in
      [recv_msg], and a request without timeout is never answered.
    When [l] is no peer, nothing is sent: the result is [alarm_value]
    after the timeout of the request, and a request without timeout
    waits for ever. *)
Theorem sync_reply_outcomes (envB : tcp_env) A B (a : Z) (req : _NetRequest)
        (l : Location) (alarm : value) :
  heap (store A) !! a = Some req -> src req = None -> dst req = Some l ->
  conn_ok envB = true ->
  let out := run (served_by envB B l) (_sync_reply A a alarm) in
  (forall p, peers A !! key_of l = Some p -> reqs p = [] ->
     let msg := mkReq (name req) (kwargs req) None (Some l) (peer_auth p) None
                      (id req) (reply req) (timeout req) in
     let rB := _tcp_task_round envB B (request msg) in
     (forall v, head (replies (r_trace rB)) = Some v ->
                exists A', out = (finished v A', []))
     /\ (replies (r_trace rB) = [] -> r_status rB = Break ->
         exists A', out = (finished VNone A', []))
     /\ (replies (r_trace rB) = [] -> r_status rB = Continue -> timeout req = None ->
         exists A', out = (blocked A', [])))
  /\ (peers A !! key_of l = None ->
      forall t, timeout req = Some t -> exists A', out = (finished alarm A', []) /\ peers A' = peers A)
  /\ (peers A !! key_of l = None -> timeout req = None ->
      exists A', out = (blocked A', []) /\ peers A' = peers A).
Proof.
  intros Hreq Hsrc Hdst Hok out. subst out. split; [| split].
  - intros p Hp Hidle msg rB.
    assert (Hmsg : on_wire (set_auth req (peer_auth p)) = msg).
    { subst msg. destruct req; simpl in *. subst. reflexivity. }
    assert (Hreads : reads envB rB 0
                     = match head (replies (r_trace rB)) with
                       | Some v => Some (Ret v)
                       | None => match r_status rB with
                                 | Break => Some (Raise other_exception)
                                 | _ => None
                                 end
                       end).
    { unfold reads. rewrite Hok. destruct (replies (r_trace rB)); reflexivity. }
    split; [| split].
    + intros v Hv. rewrite Hv in Hreads.
      destruct (sync_call envB A B a req p l alarm (Ret v) Hreq Hsrc Hdst Hp Hidle)
        as (A' & Hrun & _); [rewrite Hmsg; exact Hreads|].
      exists A'. exact Hrun.
    + intros Hnone Hbreak. rewrite Hnone, Hbreak in Hreads.
      destruct (sync_call envB A B a req p l alarm (Raise other_exception)
                          Hreq Hsrc Hdst Hp Hidle)
        as (A' & Hrun & _); [rewrite Hmsg; exact Hreads|].
      exists A'. exact Hrun.
    + intros Hnone Hopen Ht. rewrite Hnone in Hreads. cbn [head] in Hreads.
      assert (Hwait : reads envB rB 0 = None).
      { rewrite Hreads, Hopen. reflexivity. }
      destruct (sync_call_waiting envB A B a req p l alarm Hreq Hsrc Hdst Hp Hidle)
        as (A' & Hrun & _); [rewrite Hmsg; exact Hwait | exact Ht |].
      exists A'. exact Hrun.
  - intros Hp t Ht.
    destruct (sync_call_unknown envB A B a req l alarm Hreq Hsrc Hdst Hp)
      as (A' & Hrun & Hpeers & _).
    rewrite Ht in Hrun. exists A'. split; assumption.
  - intros Hp Ht.
    destruct (sync_call_unknown envB A B a req l alarm Hreq Hsrc Hdst Hp)
      as (A' & Hrun & Hpeers & _).
    rewrite Ht in Hrun. exists A'. split; assumption.
Qed.

(** X14. [RCI.locate(name, location)] at a peer [B] returns the object
    that the dictionary [_rcis] of [B] holds under the name, and [None]
    when it holds none. *)
Theorem rci_locate_at_location (envB : tcp_env) A B (n : string) (t : option Q) (i : Z)
        (p : _Peer) :
  peers A !! key_of (_location B) = Some p -> reqs p = [] ->
  peer_auth p = _auth_code B -> conn_ok envB = true ->
  exists A',
    run (served_by envB B (_location B)) (RCI_locate A n (Some (_location B)) t i)
    = (finished (match _rcis B !! n with Some rci => rci | None => VNone end) A', []).
Proof.
  intros Hp Hidle Hauth Hok. unfold RCI_locate, alloc. cbv zeta.
  set (req := NetRequest "locate_rci" _ None _ None t).
  set (a := fresh (dom (heap (store A)))).
  set (rB := _tcp_task_round envB B (request (on_wire (set_auth req (peer_auth p))))).
  assert (Hround : r_trace rB
                   = [conn_send_msg (match _rcis B !! n with
                                     | Some rci => rci
                                     | None => VNone
                                     end)]).
  { subst rB. rewrite round_dispatch; [| exact Hauth | right; reflexivity | discriminate].
    unfold dispatch. change (verb_of (name (on_wire (set_auth req (peer_auth p)))))
      with (Some v_locate_rci). cbv iota.
    destruct (locate_inline envB B (_rcis B) (on_wire (set_auth req (peer_auth p))) n)
      as (_ & ->); [reflexivity | reflexivity |].
    replace (dst_is_self B (on_wire (set_auth req (peer_auth p)))) with true
      by (symmetry; apply bool_decide_eq_true_2; reflexivity).
    rewrite orb_true_r. unfold registry_get. destruct (_rcis B !! n); reflexivity. }
  destruct (sync_call envB (set_store A (mkStore (<[a := req]> (heap (store A)))
                                                 (events (store A))))
                      B a req p (_location B) VNone
                      (Ret (match _rcis B !! n with Some rci => rci | None => VNone end)))
    as (A' & Hrun & _); try assumption; try reflexivity.
  { apply lookup_insert_eq. }
  { fold rB. unfold reads. rewrite Hok, Hround. reflexivity. }
  exists A'. exact Hrun.
Qed.

End Sync.

(** ** del_file from end to end *)

(** A path that resolves with fewer directories resolves alike with
    more. *)
Lemma walk_mono (f f' : os.filesystem) (comps stack : list string) (x : list string) :
  os.fs_dirs f' ⊆ os.fs_dirs f ->
  os.walk f' stack comps = Some x -> os.walk f stack comps = Some x.
Proof.
  intros Hd. revert stack. induction comps as [|c rest IH]; intros stack; [tauto|].
  simpl. unfold os.is_dir_at.
  destruct (String.eqb (os.path_of stack) "/") eqn:Hroot; simpl.
  - destruct (_ || _); [apply IH|]. destruct (String.eqb c ".."); apply IH.
  - destruct (bool_decide (os.path_of stack ∈ os.fs_dirs f')) eqn:Hin; simpl;
      [|discriminate].
    apply bool_decide_eq_true_1 in Hin.
    rewrite bool_decide_eq_true_2 by (apply Hd, Hin). simpl.
    destruct (_ || _); [apply IH|]. destruct (String.eqb c ".."); apply IH.
Qed.

Lemma resolve_mono (f f' : os.filesystem) (p q : string) :
  os.fs_dirs f' ⊆ os.fs_dirs f -> os.fs_cwd f' = os.fs_cwd f ->
  os.resolve f' p = Some q -> os.resolve f p = Some q.
Proof.
  intros Hd Hc. unfold os.resolve. rewrite Hc.
  destruct (String.eqb p ""); [tauto|].
  destruct (os.walk f' _ _) as [x|] eqn:Hw; simpl; [|discriminate].
  rewrite (walk_mono f f' _ _ x Hd Hw). tauto.
Qed.

(** The loop that removes the empty directories leaves the files alone. *)
Lemma remove_empty_dirs_keeps (rounds : nat) (prefix : string) :
  forall (f : os.filesystem) (d : string),
    let f' := remove_empty_dirs rounds prefix f d in
    os.fs_files f' = os.fs_files f /\ os.fs_cwd f' = os.fs_cwd f
    /\ os.fs_dirs f' ⊆ os.fs_dirs f.
Proof.
  induction rounds as [|k IH]; intros f d; simpl; [auto|].
  destruct (_ && _); [|auto].
  destruct (os.rmdir f d) as [f1|] eqn:Hrm; [|auto].
  assert (Hf1 : os.fs_files f1 = os.fs_files f /\ os.fs_cwd f1 = os.fs_cwd f
                /\ os.fs_dirs f1 ⊆ os.fs_dirs f).
  { unfold os.rmdir in Hrm. destruct (os.resolve f d) as [q|]; simpl in Hrm; [|discriminate].
    destruct (_ || _); [discriminate|]. destruct (_ && _); [|discriminate].
    injection Hrm as <-. simpl. repeat split; [reflexivity..|].
    apply subseteq_difference_l. reflexivity. }
  destruct Hf1 as (Hfiles & Hcwd & Hdirs).
  destruct (IH f1 (posixpath.dirname d)) as (Hfiles' & Hcwd' & Hdirs').
  repeat split; [congruence | congruence | etrans; [exact Hdirs' | exact Hdirs]].
Qed.

(** A file that was removed is not there, also after directories were
    removed. *)
Lemma isfile_removed (f f1 f2 : os.filesystem) (p : string) :
  os.remove f p = Some f1 ->
  os.fs_files f2 = os.fs_files f1 -> os.fs_cwd f2 = os.fs_cwd f1 ->
  os.fs_dirs f2 ⊆ os.fs_dirs f1 ->
  os.isfile f2 p = false.
Proof.
  unfold os.remove. intros Hrm Hfiles Hcwd Hdirs.
  destruct (os.resolve f p) as [q|] eqn:Hres; simpl in Hrm; [|discriminate].
  destruct (os.is_file_at f q); [|discriminate]. injection Hrm as <-.
  unfold os.isfile. destruct (os.resolve f2 p) as [q'|] eqn:Hres2; [|reflexivity].
  apply (resolve_mono f f2) in Hres2; [| exact Hdirs | exact Hcwd].
  rewrite Hres in Hres2. injection Hres2 as <-.
  unfold os.is_file_at. rewrite Hfiles. simpl.
  apply bool_decide_eq_false_2. rewrite lookup_delete_eq. intros [? ?]; discriminate.
Qed.

Section DelFile.
Context {S : Type} `{!LocalScheduler S} `{!Library}.
Implicit Type A B : AsynCoro S.

(** X15. [AsynCoro.del_file] from end to end, for a [dest_path] that the
    sender lets through and a peer [B] that listens: the result is [0]
    and the file is gone at [B] when the target starts with the
    [dest_path_prefix] of [B] and is a file there; otherwise the result
    is [-1] and [B] is unchanged. *)
Theorem del_file_end_to_end (envB : tcp_env) A B (file : string) (dest_path d : value)
        (t : option Q) (p : _Peer) :
  sender_dest_path dest_path = Some d ->
  peers A !! key_of (_location B) = Some p -> reqs p = [] ->
  peer_auth p = _auth_code B -> conn_ok envB = true ->
  let tgt := del_file_target B (posixpath.basename file) d in
  let msg := NetRequest "del_file"
               {[ "file" := VStr (posixpath.basename file); "dest_path" := d ]}
               None (Some (_location B)) (peer_auth p) t in
  let B' := r_state (_tcp_task_round envB B (request msg)) in
  let out := run (served_by envB B (_location B)) (del_file A (_location B) file dest_path t) in
  if posixpath.startswith tgt (dest_path_prefix B) && os.isfile (fs B) tgt
  then (exists A', out = (finished (VInt 0) A', [])) /\ os.isfile (fs B') tgt = false
  else (exists A', out = (finished (VInt (-1)) A', [])) /\ B' = B.
Proof.
  intros Hdest Hp Hidle Hauth Hok tgt msg B' out.
  assert (Hround : _tcp_task_round envB B (request msg) = handle_del_file envB B msg).
  { rewrite round_dispatch; [| exact Hauth | right; reflexivity | discriminate].
    reflexivity. }
  assert (Hbind : forall (c : coroutine S value) v A0,
             run (served_by envB B (_location B)) c = (finished v A0, []) ->
             run (served_by envB B (_location B))
                 (bind c (fun reply self =>
                            returned (if bool_decide (reply = VNone)
                                      then minus_one else reply) self))
             = (finished (if bool_decide (v = VNone) then minus_one else v) A0, [])).
  { intros c v A0 Hrun. rewrite run_bind, Hrun. reflexivity. }
  assert (Hout : forall v, replies (r_trace (handle_del_file envB B msg)) = [v] ->
             exists A',
               out = (finished (if bool_decide (v = VNone) then minus_one else v) A', [])).
  { intros v Hv. subst out. unfold del_file. rewrite Hdest. unfold alloc. cbv zeta.
    set (req := NetRequest "del_file" _ None _ None t).
    set (a := fresh (dom (heap (store A)))).
    destruct (sync_call envB (set_store A (mkStore (<[a := req]> (heap (store A)))
                                                   (events (store A))))
                        B a req p (_location B) VNone (Ret v))
      as (A' & Hrun & _); try assumption; try reflexivity.
    { apply lookup_insert_eq. }
    { change (on_wire (set_auth req (peer_auth p))) with msg.
      rewrite Hround. unfold reads. rewrite Hok, Hv. reflexivity. }
    exists A'. apply Hbind, Hrun. }
  assert (Hhandle : handle_del_file envB B msg
                    = if posixpath.startswith tgt (dest_path_prefix B) && os.isfile (fs B) tgt
                      then match os.remove (fs B) tgt with
                           | None => mkResult B [] Crashed
                           | Some f1 =>
                               send_reply envB
                                 (set_fs B (remove_empty_dirs
                                              (Datatypes.S (String.length (posixpath.dirname tgt)))
                                              (dest_path_prefix B) f1 (posixpath.dirname tgt)))
                                 [] (VInt 0)
                           end
                      else send_reply envB B [] minus_one).
  { unfold handle_del_file, src_is_none, dst_is_self.
    rewrite !bool_decide_eq_true_2 by reflexivity. reflexivity. }
  subst B'. rewrite Hround. rewrite Hhandle in Hout |- *.
  destruct (posixpath.startswith tgt (dest_path_prefix B) && os.isfile (fs B) tgt) eqn:Hthere.
  - apply andb_true_iff in Hthere as [_ Hfile].
    destruct (os.remove (fs B) tgt) as [f1|] eqn:Hrm.
    2:{ exfalso. unfold os.remove, os.isfile in *.
        destruct (os.resolve (fs B) tgt); simpl in *; [|discriminate].
        rewrite Hfile in Hrm. discriminate. }
    split; [exact (Hout (VInt 0) eq_refl)|].
    cbn [r_state send_reply fs set_fs].
    destruct (remove_empty_dirs_keeps (Datatypes.S (String.length (posixpath.dirname tgt)))
                (dest_path_prefix B) f1 (posixpath.dirname tgt)) as (Hfiles & Hcwd & Hdirs).
    exact (isfile_removed (fs B) f1 _ tgt Hrm Hfiles Hcwd Hdirs).
  - split; [exact (Hout minus_one eq_refl) | reflexivity].
Qed.

End DelFile.

(** ** send_file from end to end *)

(** [fd.read(n)] splits what is left to read. *)
Lemma read_spec (fd : string) :
  forall n : Z,
    fd = ((read n fd).1 ++ (read n fd).2)%string
    /\ Z.of_nat (String.length (read n fd).1)
       = Z.max 0 (Z.min n (Z.of_nat (String.length fd))).
Proof.
  induction fd as [|c fd IH]; intros n; simpl.
  - split; [reflexivity | lia].
  - destruct (n <=? 0) eqn:Hn; simpl.
    + apply Z.leb_le in Hn. split; [reflexivity | lia].
    + apply Z.leb_gt in Hn. destruct (IH (n - 1)) as [Happ Hlen].
      destruct (read (n - 1) fd) as [d r]. simpl in *.
      split; [rewrite Happ at 1; reflexivity | lia].
Qed.

Lemma substring_all (s : string) (m : nat) :
  (String.length s <= m)%nat -> substring 0 m s = s.
Proof.
  revert m. induction s as [|c s IH]; intros [|m] Hm; simpl in *; try reflexivity; try lia.
  rewrite IH by lia. reflexivity.
Qed.

(** The payload that arrives in the pieces that [recvall] asks for is
    written to the target as it is. *)
Lemma receive_pieces (rounds : nat) :
  forall (fd : string) (f : os.filesystem) (q : string) (size n : Z) (x : os.file),
    os.fs_files f !! q = Some x ->
    size = n + Z.of_nat (String.length fd) ->
    (String.length fd < rounds)%nat ->
    (receive f q size n (Ret <$> pieces rounds 10240000 fd)).1 = size
    /\ os.fs_files (receive f q size n (Ret <$> pieces rounds 10240000 fd)).2 !! q
       = Some (os.mkFile (os.f_mode x) (os.f_atime x) (os.f_mtime x) (os.f_data x ++ fd)).
Proof.
  induction rounds as [|k IH]; intros fd f q size n x Hx Hsize Hfuel; [lia|].
  cbn [pieces]. destruct (read_spec fd 10240000) as [Happ Hlen].
  destruct (read 10240000 fd) as [d r] eqn:Hread. cbn [fst snd] in *.
  destruct (String.eqb d "") eqn:Hd.
  - apply String.eqb_eq in Hd. subst d. simpl in Hlen.
    assert (Hfd : fd = "") by (destruct fd; [reflexivity | simpl in Hlen; lia]).
    clear Happ Hread. subst fd. cbn [fmap list_fmap receive fst snd String.length] in *.
    split; [lia|]. rewrite append_empty. destruct x; exact Hx.
  - apply String.eqb_neq in Hd.
    assert (Hdlen : (0 < String.length d)%nat) by (destruct d; [congruence | simpl; lia]).
    assert (Hfdlen : String.length fd = (String.length d + String.length r)%nat)
      by (rewrite Happ at 1; apply length_append).
    cbn [fmap list_fmap receive].
    replace (n <? size) with true by (symmetry; apply Z.ltb_lt; lia).
    rewrite substring_all by lia.
    replace (String.eqb d "") with false by (symmetry; apply String.eqb_neq; exact Hd).
    destruct (IH r (os.write f q d) q size (n + Z.of_nat (String.length d))
                 (os.mkFile (os.f_mode x) (os.f_atime x) (os.f_mtime x) (os.f_data x ++ d)))
      as [Hn Hfile].
    { simpl. rewrite lookup_alter_eq, Hx. reflexivity. }
    { lia. }
    { lia. }
    split; [exact Hn|]. rewrite Hfile. simpl. rewrite append_assoc, <- Happ. reflexivity.
Qed.

(** A file that [os.stat] finds can be opened, and its size is the
    number of its bytes. *)
Lemma stat_open_rb (f : os.filesystem) (p : string) (sb : stat_result) :
  os.stat f p = Some sb ->
  exists fd, open_rb f p = Some fd /\ st_size sb = Z.of_nat (String.length fd).
Proof.
  unfold os.stat, open_rb. destruct (os.resolve f p) as [q|]; simpl; [|discriminate].
  destruct (os.fs_files f !! q) as [x|]; simpl; [|discriminate].
  intros Heq. injection Heq as <-. exists (os.f_data x). split; reflexivity.
Qed.

(** The pieces that the sender reads are the file. *)
Lemma pieces_concat (rounds : nat) :
  forall (fd : string) (n : Z),
    0 < n -> (String.length fd < rounds)%nat ->
    foldr String.append EmptyString (pieces rounds n fd) = fd.
Proof.
  induction rounds as [|k IH]; intros fd n Hn Hfuel; [lia|].
  cbn [pieces]. destruct (read_spec fd n) as [Happ Hlen].
  destruct (read n fd) as [d r] eqn:Hread. cbn [fst snd] in *.
  destruct (String.eqb d "") eqn:Hd.
  - apply String.eqb_eq in Hd. subst d. simpl in Hlen.
    destruct fd; [reflexivity | simpl in Hlen; lia].
  - apply String.eqb_neq in Hd.
    assert (Hdlen : (0 < String.length d)%nat) by (destruct d; [congruence | simpl; lia]).
    assert (Hfdlen : String.length fd = (String.length d + String.length r)%nat)
      by (rewrite Happ at 1; apply length_append).
    cbn [foldr]. rewrite (IH r n Hn) by lia. symmetry. exact Happ.
Qed.

Lemma sent_bytes_app (tr1 tr2 : list transfer_event) :
  sent_bytes (tr1 ++ tr2) = (sent_bytes tr1 ++ sent_bytes tr2)%string.
Proof.
  unfold sent_bytes. induction tr1 as [|e tr1 IH]; [reflexivity|].
  cbn [app foldr]. rewrite IH. destruct e; try reflexivity.
  symmetry. apply append_assoc.
Qed.

Lemma sent_bytes_data (ps : list string) :
  sent_bytes (t_data <$> ps) = foldr String.append EmptyString ps.
Proof.
  unfold sent_bytes. induction ps as [|p ps IH]; [reflexivity|].
  cbn [fmap list_fmap foldr]. f_equal. exact IH.
Qed.

Section TransferEndToEnd.
Context {S : Type} `{!LocalScheduler S} `{!Library}.
Implicit Type A B : AsynCoro S.

(** The first reply of a transfer is the answer of the pre-flight,
    whatever arrives afterwards. *)
Lemma finish_transfer_first env B (tgt q : string) (sb : stat_result) (f : os.filesystem)
      (v : value) :
  replies (r_trace (finish_transfer env B tgt q (VStat sb) f [conn_send_msg v])) !! 0%nat
  = Some v.
Proof.
  unfold finish_transfer. cbn [as_stat].
  destruct (receive f q (st_size sb) 0 (recvall env)) as [n f1].
  destruct (n <? st_size sb).
  - destruct (os.remove f1 tgt); reflexivity.
  - destruct (os.utime f1 tgt (st_atime sb) (st_mtime sb)) as [f2|]; simpl;
      [destruct (os.chmod f2 tgt _)|]; reflexivity.
Qed.

(** X16. [AsynCoro.send_file] with [B] at the other end of its socket,
    where [B] receives the request and the bytes that [send_file] sends
    and [send_file] receives the replies of [B]: when the file is a
    readable regular file, [dest_path] is accepted, [B] is a peer, the
    pre-flight of [B] answers [0] and [B] can create the target, then
    [send_file] returns [0] and the target at [B] holds the bytes of the
    file with the modification and access times and the permission bits
    of the sender's file. *)
Theorem transfer_end_to_end (envB : tcp_env) A B (file : string)
        (dest_path d overwrite : value) (t : option Q) (sb : stat_result)
        (peer : _Peer) (q : string) (f : os.filesystem) :
  os.stat (fs A) file = Some sb ->
  Z.land (os.S_IMODE (st_mode sb)) os.S_IREAD <> 0 -> os.S_ISREG (st_mode sb) = true ->
  sender_dest_path dest_path = Some d ->
  peers A !! key_of (_location B) = Some peer -> peer_auth peer = _auth_code B ->
  conn_ok envB = true ->
  let tgt := send_file_target B (posixpath.basename file) d in
  preflight B tgt (VStat sb) (Some (VBool (eq_true overwrite))) = Some (VInt 0) ->
  create_target envB B tgt = Some (q, f) ->
  exists out,
    transfer envB A B file dest_path overwrite t = Some out
    /\ out.1 = VInt 0
    /\ exists fd x,
         open_rb (fs A) file = Some fd
         /\ os.resolve (fs out.2) tgt = Some q
         /\ os.fs_files (fs out.2) !! q = Some x
         /\ os.f_data x = fd /\ os.f_mtime x = st_mtime sb /\ os.f_atime x = st_atime sb
         /\ os.S_IMODE (os.f_mode x) = os.S_IMODE (st_mode sb).
Proof.
  intros Hstat Hread Hreg Hdest Hpeer Hauth Hok tgt Hpre Hct.
  set (req := NetRequest "send_file"
                {[ "file" := VStr (posixpath.basename file); "stat_buf" := VStat sb;
                   "overwrite" := VBool (eq_true overwrite); "dest_path" := d ]}
                None (Some (_location B)) None t).
  assert (Hreq : send_file_request A (_location B) file dest_path overwrite t
                 = Some (peer, req)).
  { unfold send_file_request. rewrite Hstat. cbn [mbind option_bind].
    rewrite Hreg. apply Z.eqb_neq in Hread. rewrite Hread. cbn [negb andb].
    rewrite Hdest. cbn [mbind option_bind]. rewrite Hpeer. reflexivity. }
  destruct (stat_open_rb (fs A) file sb Hstat) as (fd & Hopen & Hsize).
  set (msg := on_wire (set_auth req (peer_auth peer))).
  set (listen := fun payload =>
                   _tcp_task_round (mkTcpEnv (net envB) (conn_ok envB) payload (now envB))
                                   B (request msg)).
  set (sender := fun reply resp =>
                   send_file A (_location B) file dest_path overwrite t
                             (mkTransferEnv (Ret ()) (Ret ()) reply (fun _ => Ret ()) resp)).
  (* what the sender does after the answer 0 *)
  assert (Hsender : forall resp,
             sender (Ret (VInt 0)) resp
             = (match resp with
                | Ret v => if eq_zero v then VInt 0 else minus_one
                | Raise _ => minus_one
                end,
                [t_connected (_location B); t_sent msg]
                  ++ (t_data <$> pieces (Datatypes.S (String.length fd)) 1024000 fd)
                  ++ [t_closed])).
  { intros resp. subst sender. cbv beta. unfold send_file. rewrite Hreq.
    cbn [t_connect t_send t_reply t_resp eq_zero Z.eqb]. rewrite Hopen.
    assert (Hpieces : forall ps i,
               send_pieces (mkTransferEnv (Ret ()) (Ret ()) (Ret (VInt 0))
                                          (fun _ => Ret ()) resp) i ps
               = (true, t_data <$> ps)).
    { induction ps as [|piece ps IH]; intros i; cbn [send_pieces t_sendall];
        [reflexivity | rewrite IH; reflexivity]. }
    rewrite Hpieces.
    destruct resp as [v|e]; [reflexivity|].
    cbv zeta. rewrite <- !app_assoc. reflexivity. }
  assert (Hfirst : sent_request (sender (Raise other_exception) (Raise other_exception)).2
                   = Some msg).
  { subst sender. cbv beta. unfold send_file. rewrite Hreq. reflexivity. }
  (* the round of B, whatever the payload *)
  assert (Hlisten : forall payload,
             listen payload
             = finish_transfer (mkTcpEnv (net envB) (conn_ok envB) payload (now envB))
                               B tgt q (VStat sb) f [conn_send_msg (VInt 0)]).
  { intros payload. subst listen. cbv beta.
    apply (transfer_round _ B msg (posixpath.basename file) d sb q f);
      try reflexivity; try assumption. }
  assert (Hanswer : reads envB (listen []) 0 = Some (Ret (VInt 0))).
  { unfold reads. rewrite Hok, Hlisten, finish_transfer_first. reflexivity. }
  assert (Hstream : sent_bytes (sender (Ret (VInt 0)) (Raise other_exception)).2 = fd).
  { rewrite Hsender. cbn [snd]. rewrite !sent_bytes_app, sent_bytes_data.
    rewrite pieces_concat by lia. cbn [sent_bytes foldr].
    change ("" ++ fd ++ "")%string with (fd ++ "")%string. apply append_empty. }
  set (env := mkTcpEnv (net envB) (conn_ok envB)
                       (Ret <$> pieces (Datatypes.S (String.length fd)) 10240000 fd)
                       (now envB)).
  destruct (create_target_spec envB B tgt q f Hct) as (Hres & Hcwd & x0 & Hx0 & Hempty).
  destruct (receive_pieces (Datatypes.S (String.length fd)) fd f q (st_size sb) 0 x0 Hx0)
    as [Hall Hwritten]; [lia | lia |].
  destruct (finish_complete env B tgt q sb f x0 [conn_send_msg (VInt 0)] Hres Hx0 Hok)
    as (w & f3 & mode & Hfinish & Hw & _ & Hres3 & _ & _ & Hx3 & Hmode).
  { lia. }
  { cbn [recvall env]. rewrite Hall. lia. }
  cbn [recvall env] in Hw. rewrite Hwritten in Hw. injection Hw as Hw.
  apply append_inv_head in Hw. subst w.
  assert (Hround : listen (Ret <$> pieces (Datatypes.S (String.length fd)) 10240000 fd)
                   = mkResult (set_fs B f3) [conn_send_msg (VInt 0); conn_send_msg (VInt 0)]
                              Continue).
  { rewrite Hlisten. fold env. rewrite Hfinish. reflexivity. }
  pose proof (Hsender (Ret (VInt 0))) as Hresult.
  subst sender listen. cbv beta in Hfirst, Hanswer, Hstream, Hround, Hresult.
  exists (VInt 0, set_fs B f3). split.
  - unfold transfer. cbv zeta. rewrite Hfirst. cbv iota beta.
    rewrite Hanswer. cbn [mbind option_bind]. rewrite Hstream, Hround.
    cbn [eq_zero Z.eqb]. unfold reads. rewrite Hok.
    cbn [r_trace].
    change (replies [conn_send_msg (VInt 0); conn_send_msg (VInt 0)] !! 1%nat)
      with (Some (VInt 0)).
    cbv beta iota. cbn [mbind option_bind r_state]. cbv beta.
    rewrite Hresult. reflexivity.
  - cbn [fst snd fs set_fs]. split; [reflexivity|].
    exists fd, (os.mkFile mode (st_atime sb) (st_mtime sb) (os.f_data x0 ++ fd)).
    split; [exact Hopen|]. split; [exact Hres3|]. split; [exact Hx3|].
    split; [simpl; rewrite Hempty; reflexivity|]. repeat split. exact Hmode.
Qed.

End TransferEndToEnd.

(** ** locate from end to end *)

Section Locate.
Context {S : Type} `{!LocalScheduler S} `{!Library}.
Implicit Type A B Ax Ay : AsynCoro S.

(** A peer other than [B] takes the request and stays silent. *)
Lemma locate_step_other (envA envB : tcp_env) A B Ax (n : string) (a e i : Z)
      (k : string * Z) (pk : _Peer) :
  awaiting A Ax n a e i -> k <> key_of (_location B) ->
  exists Ax' tr,
    run (answered_by envA envB B) (_async_reply Ax a pk (Some (mkLocation k.1 k.2)))
    = (finished () Ax', tr)
    /\ awaiting A Ax' n a e i.
Proof.
  intros (Hloc & Hauth & Hpeers & Hreq & Hev & c & Hheap) Hk.
  unfold _async_reply. rewrite Hheap. cbn [run answered_by after_send].
  rewrite bool_decide_eq_false_2.
  2:{ intros Heq. apply Hk. rewrite <- Heq. destruct k; reflexivity. }
  destruct (net envA _ _); cbn [run]; eexists _, _; (split; [reflexivity|]).
  1: repeat split; eauto.
  all: repeat split; try assumption;
    eexists; cbn [store set_store]; simpl; rewrite lookup_alter_eq, Hheap; reflexivity.
Qed.

(** The answer of a peer to the pending request: the dispatcher of [Ax]
    pops the entry, stores the reply and sets the event. *)
Lemma answer_arrives (envA : tcp_env) A Ax (n : string) (a e i : Z) (msg : _NetRequest) :
  awaiting A Ax n a e i ->
  auth msg = _auth_code A -> dst msg = None -> src msg = Some (_location A) ->
  id msg = Some i ->
  _tcp_task_round envA Ax (request msg)
  = mkResult (set_store (set_requests Ax (delete i (_requests Ax)))
                        (event_set (update (store Ax) a (fun w => set_reply w (reply msg))) e))
             [] Break.
Proof.
  intros (Hloc & Hauth & Hpeers & Hreq & Hev & c & Hheap) Hmauth Hdst Hsrc Hid.
  rewrite round_validated by (left; congruence). unfold validated.
  rewrite not_misaddressed by (left; exact Hdst).
  rewrite bool_decide_eq_true_2 by congruence.
  unfold async_reply. rewrite Hid. cbn [mbind option_bind].
  rewrite Hreq at 1. rewrite lookup_insert_eq.
  cbn [mbind option_bind]. rewrite Hheap. reflexivity.
Qed.

(** The peer named [n] takes the request: its answer arrives at [Ax]
    before the coroutine goes on. *)
Lemma locate_step_named (envA envB : tcp_env) A B Ax (n : string) (a e i : Z)
      (pA pB : _Peer) :
  awaiting A Ax n a e i ->
  _name B = n -> _location A <> _location B ->
  peer_auth pB = _auth_code B ->
  peers B !! key_of (_location A) = Some pA -> peer_auth pA = _auth_code A ->
  exists Ay tr,
    run (answered_by envA envB B) (_async_reply Ax a pB (Some (_location B)))
    = (finished () Ay, tr)
    /\ answered A Ay a e i (VLoc (_location B)).
Proof.
  intros Hawait Hname Hne HauthB HpA HauthA.
  pose proof Hawait as (Hloc & Hauth & Hpeers & Hreq & Hev & c & Hheap).
  unfold _async_reply. rewrite Hheap. cbn [run answered_by after_send].
  rewrite bool_decide_eq_true_2 by reflexivity.
  set (m := on_wire (set_auth (set_auth (pending_locate A n e i) c) (peer_auth pB))).
  set (env := mkTcpEnv (network_with envA Ax (net envB)) (conn_ok envB) (recvall envB)
                       (now envB)).
  set (msg2 := set_reply (set_auth m (peer_auth pA)) (VLoc (_location B))).
  assert (HroundA : forall env', _tcp_task_round env' Ax (request (on_wire msg2))
             = mkResult (set_store (set_requests Ax (delete i (_requests Ax)))
                           (event_set (update (store Ax) a
                                         (fun w => set_reply w (VLoc (_location B)))) e))
                        [] Break).
  { intros env'. apply (answer_arrives env' A Ax n a e i (on_wire msg2) Hawait);
      [exact HauthA | reflexivity | reflexivity | reflexivity]. }
  assert (HroundB : _tcp_task_round env B (request m)
                    = mkResult B [sock_connect (_location A);
                                  sock_send_msg (_location A) (on_wire msg2)] Continue).
  { rewrite round_dispatch; [| exact HauthB | left; reflexivity |].
    2:{ intros Heq. apply Hne. simpl in Heq. congruence. }
    unfold dispatch. change (verb_of (name m)) with (Some v_locate_peer). cbv iota.
    unfold handle_locate_peer. change (kwargs m !! "name") with (Some (VStr n)).
    rewrite Hname. rewrite bool_decide_eq_true_2 by reflexivity. cbn [orb].
    unfold answer. change (src m) with (Some (_location A)). cbv iota beta. rewrite HpA.
    fold msg2. unfold send_on_fresh_socket.
    replace (net env (_location A) msg2) with (serve envA Ax msg2).2.
    - reflexivity.
    - subst env. simpl. unfold network_with.
      rewrite bool_decide_eq_true_2 by congruence. reflexivity. }
  assert (Hex : (exchange_with envA envB Ax B m).1
                = set_store (set_requests Ax (delete i (_requests Ax)))
                    (event_set (update (store Ax) a
                                  (fun w => set_reply w (VLoc (_location B)))) e)).
  { unfold exchange_with. fold env. cbn [fst].
    change (on_wire m) with m. rewrite HroundB.
    unfold after_messages. cbn -[_tcp_task_round].
    rewrite bool_decide_eq_true_2 by congruence.
    unfold serve. change (on_wire (on_wire msg2)) with (on_wire msg2).
    rewrite HroundA. reflexivity. }
  rewrite Hex. cbn [run]. eexists _, _. split; [reflexivity|].
  unfold answered, is_set. cbn [store set_store set_requests _requests].
  split; [| split; [| split]].
  - apply bool_decide_eq_true_2. simpl. apply lookup_insert_eq.
  - simpl. rewrite !lookup_alter_eq, Hheap. reflexivity.
  - apply lookup_delete_eq.
  - exact Hpeers.
Qed.

(** Over the peers before the one named [n] the coroutine still waits. *)
Lemma locate_loop_others (envA envB : tcp_env) A B (n : string) (a e i : Z)
      (todo : list (string * Z * _Peer)) :
  forall Ax,
    awaiting A Ax n a e i ->
    key_of (_location B) ∉ todo.*1 ->
    exists Ax' tr,
      run (answered_by envA envB B) (locate_loop a e todo Ax) = (finished false Ax', tr)
      /\ awaiting A Ax' n a e i.
Proof.
  induction todo as [|[k pk] rest IH]; intros Ax Hawait Hnot.
  - exists Ax, []. split; [reflexivity | exact Hawait].
  - cbn [fmap list_fmap fst] in Hnot. apply not_elem_of_cons in Hnot as [Hk Hrest].
    cbn [locate_loop]. unfold is_set.
    destruct Hawait as (Hloc & Hauth & Hpeers & Hreq & Hev & Hheap).
    rewrite bool_decide_eq_false_2 by (rewrite Hev; discriminate).
    destruct (locate_step_other envA envB A B Ax n a e i k pk) as (Ax1 & tr1 & Hrun & Haw1);
      [repeat split; assumption | congruence |].
    destruct (IH Ax1 Haw1 Hrest) as (Ax2 & tr2 & Hrun2 & Haw2).
    rewrite run_bind, Hrun, Hrun2. eexists _, _. split; [reflexivity | exact Haw2].
Qed.

(** Once the answer is there the loop is left, or it has run out. *)
Lemma locate_loop_answered (w : schedule S) A Ay (a e i : Z) (v : value)
      (todo : list (string * Z * _Peer)) :
  answered A Ay a e i v ->
  exists b, run w (locate_loop a e todo Ay) = (finished b Ay, []).
Proof.
  intros (Hset & _). destruct todo as [|[k pk] rest]; cbn [locate_loop].
  - exists false. reflexivity.
  - rewrite Hset. exists true. reflexivity.
Qed.

Lemma locate_loop_named (envA envB : tcp_env) A B (n : string) (a e i : Z)
      (pA pB : _Peer) (todo : list (string * Z * _Peer)) :
  _name B = n -> _location A <> _location B ->
  peer_auth pB = _auth_code B ->
  peers B !! key_of (_location A) = Some pA -> peer_auth pA = _auth_code A ->
  (forall k pk, (k, pk) ∈ todo -> k = key_of (_location B) -> pk = pB) ->
  forall Ax,
    awaiting A Ax n a e i ->
    key_of (_location B) ∈ todo.*1 ->
    exists Ay tr b,
      run (answered_by envA envB B) (locate_loop a e todo Ax) = (finished b Ay, tr)
      /\ answered A Ay a e i (VLoc (_location B)).
Proof.
  intros Hname Hne HauthB HpA HauthA.
  induction todo as [|[k pk] rest IH]; intros Hfun Ax Hawait Hin.
  - cbn in Hin. apply not_elem_of_nil in Hin. contradiction.
  - cbn [locate_loop]. unfold is_set.
    pose proof Hawait as (Hloc & Hauth & Hpeers & Hreq & Hev & Hheap).
    rewrite bool_decide_eq_false_2 by (rewrite Hev; discriminate).
    destruct (decide (k = key_of (_location B))) as [Hk|Hk].
    + assert (pk = pB) by (apply (Hfun k pk); [apply list_elem_of_here | exact Hk]).
      subst pk k.
      destruct (locate_step_named envA envB A B Ax n a e i pA pB Hawait Hname Hne HauthB
                                  HpA HauthA) as (Ay & tr & Hrun & Hans).
      destruct (locate_loop_answered (answered_by envA envB B) A Ay a e i _ rest Hans)
        as (b & Hrest).
      change (mkLocation (key_of (_location B)).1 (key_of (_location B)).2)
        with (mkLocation (addr (_location B)) (port (_location B))).
      replace (mkLocation (addr (_location B)) (port (_location B))) with (_location B)
        by (destruct (_location B); reflexivity).
      rewrite run_bind, Hrun, Hrest. eexists _, _, _. split; [reflexivity | exact Hans].
    + cbn [fmap list_fmap fst] in Hin. apply elem_of_cons in Hin as [Hin | Hin];
        [congruence|].
      destruct (locate_step_other envA envB A B Ax n a e i k pk Hawait Hk)
        as (Ax1 & tr1 & Hrun & Haw1).
      destruct (IH (fun k' pk' Hin' => Hfun k' pk' (list_elem_of_further _ _ _ Hin'))
                   Ax1 Haw1 Hin) as (Ay & tr & b & Hrun2 & Hans).
      rewrite run_bind, Hrun, Hrun2. eexists _, _, _. split; [reflexivity | exact Hans].
Qed.

(** X17. [AsynCoro.locate] finds a peer by its name: when [A] and [B]
    know each other and [n] is the name of [B], [locate] at [A] returns
    the location of [B], whatever the other peers of [A] do with the
    request; the entry of the request in [_requests] is gone afterwards
    and the peer table is as before. *)
Theorem locate_finds_peer (envA envB : tcp_env) A B (n : string) (t : option Q) (i : Z)
        (pA pB : _Peer) :
  _name B = n -> _location A <> _location B ->
  peers A !! key_of (_location B) = Some pB -> peer_auth pB = _auth_code B ->
  peers B !! key_of (_location A) = Some pA -> peer_auth pA = _auth_code A ->
  exists A' tr,
    run (answered_by envA envB B) (locate A n t i) = (finished (VLoc (_location B)) A', tr)
    /\ _requests A' !! i = None
    /\ peers A' = peers A.
Proof.
  intros Hname Hne HpB HauthB HpA HauthA.
  unfold locate, locate_at_peers, new_event, alloc. cbv zeta.
  set (e := fresh (dom (events (store A)))).
  set (a := fresh (dom (heap _))).
  set (A1 := set_requests _ _).
  assert (Hawait : awaiting A A1 n a e i).
  { repeat split; try reflexivity.
    - subst A1. simpl. apply lookup_insert_eq.
    - exists None. subst A1. simpl. rewrite lookup_insert_eq. reflexivity. }
  destruct (locate_loop_named envA envB A B n a e i pA pB (map_to_list (peers A1))
              Hname Hne HauthB HpA HauthA) with (Ax := A1)
    as (Ay & tr & b & Hrun & Hans).
  { intros k pk Hin ->. apply elem_of_map_to_list in Hin.
    change (peers A1) with (peers A) in Hin. congruence. }
  { exact Hawait. }
  { apply list_elem_of_fmap. exists (key_of (_location B), pB). split; [reflexivity|].
    apply elem_of_map_to_list. exact HpB. }
  rewrite run_bind, Hrun. pose proof Hans as (Hset & Hreply & Hpop & Hsame).
  destruct (heap (store Ay) !! a) as [r|] eqn:Hr; [|discriminate].
  injection Hreply as Hreply.
  destruct b; cbn [run answered_by after_wait]; unfold quiet_wait; rewrite ?Hset;
    cbn [run]; rewrite ?Hr; cbn [run fst snd]; rewrite Hreply;
    eexists _, _; (split; [reflexivity|]); (split; [exact Hpop | exact Hsame]).
Qed.

(** A peer that does not bear the name takes the request and sends
    nothing. *)
Lemma locate_step_unnamed (envA envB : tcp_env) A B Ax (n : string) (a e i : Z)
      (pk : _Peer) :
  awaiting A Ax n a e i -> _name B <> n -> _location A <> _location B ->
  exists Ax' tr,
    run (answered_by envA envB B) (_async_reply Ax a pk (Some (_location B)))
    = (finished () Ax', tr)
    /\ awaiting A Ax' n a e i.
Proof.
  intros Hawait Hname Hne.
  pose proof Hawait as (Hloc & Hauth & Hpeers & Hreq & Hev & c & Hheap).
  unfold _async_reply. rewrite Hheap. cbn [run answered_by after_send].
  rewrite bool_decide_eq_true_2 by reflexivity.
  set (m := on_wire (set_auth (set_auth (pending_locate A n e i) c) (peer_auth pk))).
  set (env := mkTcpEnv (network_with envA Ax (net envB)) (conn_ok envB) (recvall envB)
                       (now envB)).
  assert (HroundB : r_trace (_tcp_task_round env B (request m)) = []).
  { destruct (decide (auth m = _auth_code B)) as [Hok|Hbad].
    - rewrite round_dispatch; [| exact Hok | left; reflexivity |].
      2:{ intros Heq. apply Hne. simpl in Heq. congruence. }
      unfold dispatch. change (verb_of (name m)) with (Some v_locate_peer). cbv iota.
      unfold handle_locate_peer. change (kwargs m !! "name") with (Some (VStr n)).
      cbv iota beta. rewrite bool_decide_eq_false_2 by congruence.
      unfold dst_is_self. rewrite bool_decide_eq_false_2 by discriminate. reflexivity.
    - rewrite rejected; [reflexivity | exact Hbad | discriminate]. }
  assert (Hex : (exchange_with envA envB Ax B m).1 = Ax).
  { unfold exchange_with. fold env. cbn [fst]. change (on_wire m) with m.
    rewrite HroundB. reflexivity. }
  rewrite Hex. cbn [run]. eexists _, _. split; [reflexivity|].
  repeat split; try assumption.
  eexists. cbn [store set_store]. simpl. rewrite lookup_alter_eq, Hheap. reflexivity.
Qed.

Lemma locate_loop_unnamed (envA envB : tcp_env) A B (n : string) (a e i : Z)
      (todo : list (string * Z * _Peer)) :
  _name B <> n -> _location A <> _location B ->
  forall Ax,
    awaiting A Ax n a e i ->
    exists Ax' tr,
      run (answered_by envA envB B) (locate_loop a e todo Ax) = (finished false Ax', tr)
      /\ awaiting A Ax' n a e i.
Proof.
  intros Hname Hne. induction todo as [|[k pk] rest IH]; intros Ax Hawait.
  - exists Ax, []. split; [reflexivity | exact Hawait].
  - cbn [locate_loop]. unfold is_set.
    pose proof Hawait as (Hloc & Hauth & Hpeers & Hreq & Hev & Hheap).
    rewrite bool_decide_eq_false_2 by (rewrite Hev; discriminate).
    assert (Hstep : exists Ax1 tr1,
               run (answered_by envA envB B)
                   (_async_reply Ax a pk (Some (mkLocation k.1 k.2)))
               = (finished () Ax1, tr1) /\ awaiting A Ax1 n a e i).
    { destruct (decide (k = key_of (_location B))) as [->|Hk].
      - change (mkLocation (key_of (_location B)).1 (key_of (_location B)).2)
          with (mkLocation (addr (_location B)) (port (_location B))).
        replace (mkLocation (addr (_location B)) (port (_location B))) with (_location B)
          by (destruct (_location B); reflexivity).
        apply (locate_step_unnamed envA envB A B Ax n a e i pk Hawait Hname Hne).
      - apply (locate_step_other envA envB A B Ax n a e i k pk Hawait Hk). }
    destruct Hstep as (Ax1 & tr1 & Hrun & Haw1).
    destruct (IH Ax1 Haw1) as (Ax2 & tr2 & Hrun2 & Haw2).
    rewrite run_bind, Hrun, Hrun2. eexists _, _. split; [reflexivity | exact Haw2].
Qed.

(** X18. [AsynCoro.locate] for a name that [B] does not have, when no
    other peer answers: with a timeout the result is [None] and
    [_requests] is as before the call (the entry is popped); without a
    timeout the coroutine waits for ever and its request stays in
    [_requests]. *)
Theorem locate_unanswered (envA envB : tcp_env) A B (n : string) (t : option Q) (i : Z) :
  _name B <> n -> _location A <> _location B -> _requests A !! i = None ->
  exists A' tr,
    run (answered_by envA envB B) (locate A n t i)
    = (match t with Some _ => finished VNone A' | None => blocked A' end, tr)
    /\ peers A' = peers A
    /\ _requests A' = match t with
                      | Some _ => _requests A
                      | None => <[i := fresh (dom (heap (store A)))]> (_requests A)
                      end.
Proof.
  intros Hname Hne Hfree.
  unfold locate, locate_at_peers, new_event, alloc. cbv zeta.
  set (e := fresh (dom (events (store A)))).
  set (a := fresh (dom (heap _))).
  set (A1 := set_requests _ _).
  assert (Hawait : awaiting A A1 n a e i).
  { repeat split; try reflexivity.
    - subst A1. simpl. apply lookup_insert_eq.
    - exists None. subst A1. simpl. rewrite lookup_insert_eq. reflexivity. }
  destruct (locate_loop_unnamed envA envB A B n a e i (map_to_list (peers A1)) Hname Hne A1 Hawait)
    as (Ax & tr & Hrun & Hax).
  rewrite run_bind, Hrun.
  destruct Hax as (_ & _ & Hpeers & Hreqs & Hev & c & Hheap).
  cbn [run answered_by after_wait]. unfold quiet_wait, is_set.
  rewrite bool_decide_eq_false_2 by (rewrite Hev; discriminate).
  destruct t as [t|]; cbn [run fst snd].
  - simpl. rewrite lookup_alter_eq, Hheap. cbn [run fst snd].
    eexists _, _. split; [reflexivity|]. split; [exact Hpeers|].
    cbn [_requests set_requests set_store]. rewrite Hreqs, delete_insert_eq.
    apply delete_id, Hfree.
  - eexists _, _. split; [reflexivity|]. split; [exact Hpeers | exact Hreqs].
Qed.

End Locate.

(** ** The checks of the senders *)

Lemma string_cons_neq (c : ascii) (s : string) : String c s <> s.
Proof.
  intros Heq. apply (f_equal String.length) in Heq. simpl in Heq. lia.
Qed.

(** [os.path.join(os.sep, d) == d] holds exactly for an absolute [d]. *)
Lemma join_sep_absolute (d : string) :
  String.eqb (posixpath.join posixpath.sep [d]) d = posixpath.isabs d.
Proof.
  rewrite join_single. unfold posixpath.join2. fold (posixpath.isabs d).
  destruct (posixpath.isabs d); [apply String.eqb_refl|].
  apply String.eqb_neq. apply string_cons_neq.
Qed.

Lemma sender_dest_path_spec (d : string) :
  sender_dest_path (VStr d)
  = if String.eqb d "" then Some (VStr "")
    else if posixpath.isabs (strip d) then None else Some (VStr (strip d)).
Proof.
  unfold sender_dest_path. destruct (String.eqb d "") eqn:Hd; cbn [negb].
  - apply String.eqb_eq in Hd. subst d. reflexivity.
  - cbv zeta. rewrite join_sep_absolute. reflexivity.
Qed.

Section Senders.
Context {S : Type} `{!LocalScheduler S} `{!Library}.
Implicit Type self : AsynCoro S.

(** X19. What the senders refuse before anything is sent: [send_file]
    and [del_file] return [-1] for a [dest_path] that is absolute after
    stripping, and keep a relative one (stripped); [send_file] returns
    [-1] when the file does not exist, is not readable by its owner or is
    not a regular file, and when the location is not a peer. In all
    these cases no socket is opened. *)
Theorem sender_checks self (location : Location) (file : string) (overwrite : value)
        (t : option Q) :
  (forall d, d <> "" -> posixpath.isabs (strip d) = true ->
     (forall env, send_file self location file (VStr d) overwrite t env = (VInt (-1), []))
     /\ del_file self location file (VStr d) t = returned (VInt (-1)) self)
  /\ (forall d, d <> "" -> posixpath.isabs (strip d) = false ->
        sender_dest_path (VStr d) = Some (VStr (strip d)))
  /\ (forall dest_path env,
        os.stat (fs self) file = None ->
        send_file self location file dest_path overwrite t env = (VInt (-1), []))
  /\ (forall dest_path env sb,
        os.stat (fs self) file = Some sb ->
        Z.land (os.S_IMODE (st_mode sb)) os.S_IREAD = 0 \/ os.S_ISREG (st_mode sb) = false ->
        send_file self location file dest_path overwrite t env = (VInt (-1), []))
  /\ (forall dest_path env,
        peers self !! key_of location = None ->
        send_file self location file dest_path overwrite t env = (VInt (-1), [])).
Proof.
  assert (Hnone : forall dest_path env,
             send_file_request self location file dest_path overwrite t = None ->
             send_file self location file dest_path overwrite t env = (VInt (-1), [])).
  { intros dest_path env Hreq. unfold send_file. rewrite Hreq. reflexivity. }
  split; [| split; [| split; [| split]]].
  - intros d Hd Habs.
    assert (Hrej : sender_dest_path (VStr d) = None).
    { rewrite sender_dest_path_spec. apply String.eqb_neq in Hd. rewrite Hd, Habs.
      reflexivity. }
    split.
    + intros env. apply Hnone. unfold send_file_request.
      destruct (os.stat (fs self) file) as [sb|]; [|reflexivity]. cbn [mbind option_bind].
      destruct (negb _); [reflexivity|]. rewrite Hrej. reflexivity.
    + unfold del_file. rewrite Hrej. reflexivity.
  - intros d Hd Hrel. rewrite sender_dest_path_spec. apply String.eqb_neq in Hd.
    rewrite Hd, Hrel. reflexivity.
  - intros dest_path env Hstat. apply Hnone. unfold send_file_request. rewrite Hstat.
    reflexivity.
  - intros dest_path env sb Hstat Hbad. apply Hnone. unfold send_file_request.
    rewrite Hstat. cbn [mbind option_bind].
    destruct Hbad as [Hread | Hreg].
    + rewrite Hread. reflexivity.
    + rewrite Hreg, andb_false_r. reflexivity.
  - intros dest_path env Hpeer. apply Hnone. unfold send_file_request.
    destruct (os.stat (fs self) file) as [sb|]; [|reflexivity]. cbn [mbind option_bind].
    destruct (negb _); [reflexivity|].
    destruct (sender_dest_path dest_path); [|reflexivity]. cbn [mbind option_bind].
    rewrite Hpeer. reflexivity.
Qed.

End Senders.

(** ** The stream flag *)

Section Stream.
Context {S : Type} `{!LocalScheduler S} `{!Library}.
Implicit Type self : AsynCoro S.

(** X20. [AsynCoro.peer] with [stream_send]: every peer at the node (on
    [tcp_port] when one is given) gets its [stream] flag set to
    [stream_send], and no other peer is touched or added. After
    [stream_send=True] a peer of that node that is installed later is a
    stream from the start; after [stream_send=False] neither the node nor
    the selected peers are left in [_stream_peers]. *)
Theorem peer_stream_send self (node ip : string) (udp_port tcp_port : Z) (b : bool)
        (env : peer_env) :
  gethostbyname env node = Some ip ->
  let self' := (peer self node udp_port tcp_port b env).1.2 in
  (forall k p, peers self !! k = Some p ->
     peers self' !! k = Some (if selected ip tcp_port k then set_stream p b else p))
  /\ (forall k, peers self !! k = None -> peers self' !! k = None)
  /\ (b = true ->
      forall (l : Location) (code : option string),
        addr l = ip -> tcp_port = 0 \/ tcp_port = port l ->
        exists p, peers (install self' l code) !! key_of l = Some p /\ stream p = true)
  /\ (b = false ->
      ((ip, tcp_port) ∉ _stream_peers self')
      /\ forall k, selected ip tcp_port k = true -> is_Some (peers self !! k) ->
                   k ∉ _stream_peers self').
Proof.
  intros Hip self'. subst self'. unfold peer. rewrite Hip.
  cbn [fst snd peers set_peers set_stream_peers _stream_peers].
  split; [| split; [| split]].
  - intros k p Hk. rewrite map_lookup_imap, Hk. reflexivity.
  - intros k Hk. rewrite map_lookup_imap, Hk. reflexivity.
  - intros -> l code Haddr Hport. unfold install.
    cbn [_stream_peers set_stream_peers set_peers peers].
    assert (Hin : bool_decide (key_of l ∈ ({[(ip, tcp_port)]} ∪ _stream_peers self
                                            : gset (string * Z)))
                  || bool_decide ((addr l, 0) ∈ ({[(ip, tcp_port)]} ∪ _stream_peers self
                                                  : gset (string * Z))) = true).
    { apply orb_true_iff. destruct Hport as [-> | ->].
      - right. apply bool_decide_eq_true_2. rewrite Haddr.
        apply elem_of_union_l, elem_of_singleton. reflexivity.
      - left. apply bool_decide_eq_true_2. unfold key_of. rewrite Haddr.
        apply elem_of_union_l, elem_of_singleton. reflexivity. }
    rewrite Hin. eexists. rewrite lookup_insert_eq. split; reflexivity.
  - intros ->. split.
    + intros Hin. apply elem_of_difference in Hin as [_ Hnot].
      apply Hnot, elem_of_singleton. reflexivity.
    + intros k Hsel [p Hp] Hin. apply elem_of_difference in Hin as [Hin _].
      apply elem_of_difference in Hin as [_ Hnot]. apply Hnot.
      apply elem_of_dom. exists p. apply map_lookup_filter_Some. split; [exact Hp|].
      exact Hsel.
Qed.

End Stream.

(** ** The theorems at the example host *)

#[local] Existing Instance plain_library.

(** [netrequest_roundtrip] at a request with every field set, over the
    serialiser whose wire format is the state dictionary. *)
Lemma netrequest_roundtrip_witness :
  exists req',
    @unserialize _ plain_serialiser (@serialize _ plain_serialiser example_request)
      = Some req' /\
    name req' = name example_request /\ kwargs req' = kwargs example_request /\
    src req' = src example_request /\ dst req' = dst example_request /\
    auth req' = auth example_request /\ id req' = id example_request /\
    reply req' = reply example_request /\ timeout req' = timeout example_request /\
    event req' = None.
Proof.
  apply (@netrequest_roundtrip _ plain_serialiser).
  intros state. reflexivity.
Defined.

(** [req_proc_settles] at a peer without connection whose [connect] is
    refused. *)
Lemma req_proc_settles_witness :
  reqs example_peer = [1] /\
  heap example_store !! 1 = Some waiting_request /\
  exists p' σ' tr,
    req_proc_round example_peer example_store refusing = Served 1 p' σ' tr /\
    reqs p' = [] /\ conn p' = None /\
    reply <$> heap σ' !! 1 = Some VNone /\ events σ' !! 9 = Some true.
Proof.
  split; [reflexivity|]. split; [reflexivity|].
  destruct (req_proc_settles example_peer example_store refusing 1 [] waiting_request
              eq_refl eq_refl)
    as (p' & σ' & tr & Hround & Hrest & _ & Hev & Hcon & _).
  exists p', σ', tr. split; [exact Hround|]. split; [exact Hrest|].
  destruct (Hcon eq_refl (ex_intro _ (socket_error false) eq_refl)) as (Hc & Hr & _).
  split; [exact Hc|]. split; [exact Hr|]. apply Hev. reflexivity.
Defined.

(** [async_reply_resolves] at [host_a] while it waits for the answer to a
    [locate_peer]. *)
Lemma async_reply_resolves_witness :
  (auth locate_answer = _auth_code host_a_waiting \/ name locate_answer = "ping") /\
  (dst locate_answer = None \/ dst locate_answer = Some (_location host_a_waiting)) /\
  src locate_answer = Some (_location host_a_waiting) /\
  reply locate_answer = VLoc loc_b /\
  reply <$> heap (store host_a_waiting) !! 1 = Some VNone /\
  events (store host_a_waiting) !! 9 = Some false /\
  let r := _tcp_task_round quiet_env host_a_waiting (request locate_answer) in
  _requests (r_state r) !! 140231 = None /\
  reply <$> heap (store (r_state r)) !! 1 = Some (VLoc loc_b) /\
  name <$> heap (store (r_state r)) !! 1 = Some "locate_peer" /\
  events (store (r_state r)) !! 9 = Some true.
Proof.
  split; [left; reflexivity|]. split; [right; reflexivity|]. split; [reflexivity|].
  split; [reflexivity|]. split; [reflexivity|]. split; [reflexivity|].
  destruct (async_reply_resolves quiet_env host_a_waiting locate_answer
              (or_introl eq_refl) (or_intror eq_refl) eq_refl) as (Hsome & _).
  destruct (Hsome 140231 1 locate_request 9 eq_refl eq_refl eq_refl eq_refl)
    as (_ & _ & _ & Hpop & Hreply & _ & _ & Hevent & _).
  split; [exact Hpop|]. cbv zeta. rewrite Hreply.
  split; [reflexivity|]. split; [reflexivity | exact Hevent].
Defined.

(** [deliver_to_coro] at a [deliver] for the coroutine 7 of [host_a],
    whose [send] returns [0]: the reply is [1]. *)
Lemma deliver_to_coro_witness :
  (name deliver_request = "deliver" \/ name deliver_request = "send") /\
  auth deliver_request = _auth_code host_a /\
  src deliver_request = None /\
  dst deliver_request = Some (_location host_a) /\
  kwargs deliver_request !! "coro" = Some (VInt 7) /\
  coros_has (scheduler host_a) 7 = true /\
  kwargs deliver_request !! "message" = Some (VStr "hello") /\
  r_trace (_tcp_task_round quiet_env host_a (request deliver_request))
  = [conn_send_msg (VInt 1)].
Proof.
  split; [left; reflexivity|]. split; [reflexivity|]. split; [reflexivity|].
  split; [reflexivity|]. split; [reflexivity|]. split; [reflexivity|].
  split; [reflexivity|].
  destruct (deliver_to_coro quiet_env host_a deliver_request 7
              (or_introl eq_refl) eq_refl eq_refl eq_refl eq_refl) as (Hyes & _).
  destruct (Hyes (VStr "hello") eq_refl eq_refl) as (Htrace & _).
  exact Htrace.
Defined.

(** C8 does not hold as it is stated: [host_a] is asked for its own name
    with the answer expected at [loc_b], which is not in its peer table;
    the round goes on and sends nothing, neither on the connection nor to
    [loc_b]. *)
Lemma locate_peer_unknown_src_no_reply :
  kwargs locate_a_from_b !! "name" = Some (VStr (_name host_a)) /\
  auth locate_a_from_b = _auth_code host_a /\
  src locate_a_from_b = Some loc_b /\
  peers host_a !! key_of loc_b = None /\
  r_status (_tcp_task_round quiet_env host_a (request locate_a_from_b)) = Continue /\
  r_trace (_tcp_task_round quiet_env host_a (request locate_a_from_b)) = [] /\
  ~ (exists v, conn_send_msg v ∈ r_trace (_tcp_task_round quiet_env host_a
                                            (request locate_a_from_b))) /\
  sent_to (r_trace (_tcp_task_round quiet_env host_a (request locate_a_from_b))) = [].
Proof.
  split; [reflexivity|]. split; [reflexivity|]. split; [reflexivity|].
  split; [reflexivity|]. split; [vm_compute; reflexivity|].
  assert (Ht : r_trace (_tcp_task_round quiet_env host_a (request locate_a_from_b)) = [])
    by (vm_compute; reflexivity).
  split; [exact Ht|]. rewrite Ht. split; [|reflexivity].
  intros [v Hv]. apply not_elem_of_nil in Hv. exact Hv.
Qed.

(** [locate_peer_answer] at requests for the name of [host_a]: without
    [src] the location goes back on the connection; from the peer
    [loc_b] of [a_paired] it goes out on a fresh socket, in [reply] and
    under the auth code of that peer, when the connection is made, and
    nothing is sent when the connection fails. *)
Lemma locate_peer_answer_witness :
  name locate_a_inline = "locate_peer" /\
  src locate_a_inline = None /\
  r_trace (_tcp_task_round quiet_env host_a (request locate_a_inline))
  = [conn_send_msg (VLoc loc_a)] /\
  src locate_a_from_b = Some loc_b /\ auth locate_a_from_b = Some "5aalpha" /\
  reply locate_a_from_b = VNone /\
  peer_auth <$> peers a_paired !! key_of loc_b = Some (Some "7balpha") /\
  r_trace (_tcp_task_round delivering_env a_paired (request locate_a_from_b))
  = [sock_connect loc_b; sock_send_msg loc_b locate_a_answer] /\
  auth locate_a_answer = Some "7balpha" /\ reply locate_a_answer = VLoc loc_a /\
  r_trace (_tcp_task_round quiet_env a_paired (request locate_a_from_b))
  = [sock_connect loc_b].
Proof.
  split; [reflexivity|]. split; [reflexivity|]. split.
  { destruct (locate_peer_answer quiet_env host_a locate_a_inline (VStr "a")
                eq_refl eq_refl (or_introl eq_refl) ltac:(discriminate) eq_refl)
      as (_ & _ & Hanswer).
    exact (Hanswer (or_introl eq_refl)). }
  split; [reflexivity|]. split; [reflexivity|]. split; [reflexivity|].
  split; [reflexivity|]. split.
  { destruct (locate_peer_answer delivering_env a_paired locate_a_from_b (VStr "a")
                eq_refl eq_refl (or_introl eq_refl) ltac:(discriminate) eq_refl)
      as (_ & _ & Hanswer).
    destruct (Hanswer (or_introl eq_refl)) as (_ & _ & Hsent).
    apply Hsent. discriminate. }
  split; [reflexivity|]. split; [reflexivity|].
  destruct (locate_peer_answer quiet_env a_paired locate_a_from_b (VStr "a")
              eq_refl eq_refl (or_introl eq_refl) ltac:(discriminate) eq_refl)
    as (_ & _ & Hanswer).
  destruct (Hanswer (or_introl eq_refl)) as (_ & Hfailed & _).
  apply Hfailed. reflexivity.
Defined.

(** [send_file_preflight] at the file [data] of [sub], which lies at the
    target with 4 bytes, mode [0o644] and [st_mtime] 100:
    - announced with the same size and mode and [st_mtime] 100.5, the
      answer is [1];
    - announced with [st_mtime] 200 and [overwrite] false, the answer is
      the stat structure of the target;
    - announced to a host whose [max_file_size] is 2, the answer is
      [-1]. *)
Lemma send_file_preflight_witness :
  os.stat (fs host_a) (send_file_target host_a "data" (VStr "sub"))
  = Some (mkStat 33188 4 100 100) /\
  max_file_size host_a = None /\
  r_trace (_tcp_task_round quiet_env host_a (request send_data_request))
  = [conn_send_msg (VInt 1)] /\
  r_trace (_tcp_task_round quiet_env host_a (request send_newer_request))
  = [conn_send_msg (VStat (mkStat 33188 4 100 100))] /\
  max_file_size host_a_limited = Some 2 /\
  r_trace (_tcp_task_round quiet_env host_a_limited (request send_data_request))
  = [conn_send_msg (VInt (-1))].
Proof.
  assert (Hstat : os.stat (fs host_a) (send_file_target host_a "data" (VStr "sub"))
                  = Some (mkStat 33188 4 100 100)) by (vm_compute; reflexivity).
  assert (Hfree : ~ exists m, max_file_size host_a = Some m /\ m <> 0 /\ m < 4).
  { intros (m & Hm & _). discriminate Hm. }
  split; [exact Hstat|]. split; [reflexivity|].
  split; [| split; [| split; [reflexivity|]]].
  - destruct (send_file_preflight quiet_env host_a send_data_request "data" (VStr "sub")
                (mkStat 33188 4 90 (201 # 2)) (VBool false)
                eq_refl eq_refl eq_refl eq_refl eq_refl eq_refl eq_refl eq_refl)
      as (_ & _ & Hin).
    destruct (Hin Hfree ltac:(vm_compute; reflexivity)) as (Hsame & _).
    apply (Hsame (mkStat 33188 4 100 100) Hstat).
    split; [vm_compute; discriminate|]. split; reflexivity.
  - destruct (send_file_preflight quiet_env host_a send_newer_request "data" (VStr "sub")
                (mkStat 33188 4 90 200) (VBool false)
                eq_refl eq_refl eq_refl eq_refl eq_refl eq_refl eq_refl eq_refl)
      as (_ & _ & Hin).
    destruct (Hin Hfree ltac:(vm_compute; reflexivity)) as (_ & Hother & _).
    apply (Hother (mkStat 33188 4 100 100) Hstat); [|reflexivity].
    intros (Hnear & _). vm_compute in Hnear. apply Hnear. reflexivity.
  - destruct (send_file_preflight quiet_env host_a_limited send_data_request "data"
                (VStr "sub") (mkStat 33188 4 90 (201 # 2)) (VBool false)
                eq_refl eq_refl eq_refl eq_refl eq_refl eq_refl eq_refl eq_refl)
      as (Hbig & _).
    apply Hbig. exists 2. split; [reflexivity|]. split; [discriminate | reflexivity].
Defined.

(** C1, the code at two requests whose target escapes [/tmp/asyncoro].
    Both pass the sender's check on [dest_path].
    - [del_file] with [dest_path] [..] and [file] [f]: the target is
      [/tmp/asyncoro/../f], that is [/tmp/f]; it starts with the prefix as
      a string, the file is removed and the reply is [0].
    - [send_file] with [dest_path] [../asyncoro2] and [file] [g]: the
      target is [/tmp/asyncoro2/g], which starts with the prefix as a
      string; the replies are [0] and [0] and the file is written. *)
Theorem containment_escapes :
  (sender_dest_path (VStr "..") = Some (VStr "..")
   /\ del_file_target host_a "f" (VStr "..") = "/tmp/asyncoro/../f"
   /\ posixpath.normpath "/tmp/asyncoro/../f" = "/tmp/f"
   /\ lies_under (dest_path_prefix host_a) "/tmp/f" = false
   /\ os.isfile (fs host_a) "/tmp/f" = true
   /\ r_trace (_tcp_task_round quiet_env host_a (request del_outside_request))
      = [conn_send_msg (VInt 0)]
   /\ os.isfile (fs (r_state (_tcp_task_round quiet_env host_a
                                (request del_outside_request)))) "/tmp/f" = false)
  /\ (sender_dest_path (VStr "../asyncoro2") = Some (VStr "../asyncoro2")
      /\ send_file_target host_a "g" (VStr "../asyncoro2") = "/tmp/asyncoro2/g"
      /\ lies_under (dest_path_prefix host_a) "/tmp/asyncoro2/g" = false
      /\ os.isfile (fs host_a) "/tmp/asyncoro2/g" = false
      /\ r_trace (_tcp_task_round payload_env host_a (request send_outside_request))
         = [conn_send_msg (VInt 0); conn_send_msg (VInt 0)]
      /\ os.stat (fs (r_state (_tcp_task_round payload_env host_a
                                 (request send_outside_request)))) "/tmp/asyncoro2/g"
         = Some (mkStat 33188 3 50 60)).
Proof. vm_compute. repeat split; reflexivity. Qed.

(** [mismatching_secrets] at two hosts whose secrets are [alpha] and
    [beta], over the digest of 40 hexadecimal digits: their auth codes
    are such digests, the code that the one derives for the other is not
    the other's, and the handshake leaves both peer tables as they
    were. *)
Lemma mismatching_secrets_witness :
  @credentials_ok _ folding_library host_a_folded /\
  @credentials_ok _ folding_library host_b_folded /\
  _secret host_a_folded <> _secret host_b_folded /\
  _auth_code host_a_folded = Some "91471c519fc83c37cc055574c48a79b750e10f8e" /\
  @auth_code_for folding_library (_secret host_b_folded) (Some (VStr "5a"))
  = Some (Some "5f47c3f93224a0b3e96f887efb4e35421aeb7187") /\
  let '(A', r) := @exchange_with _ _ folding_library quiet_env quiet_env
                    host_a_folded host_b_folded
                    (NetRequest "ping" (@hello _ host_a_folded) None
                                (Some (_location host_b_folded)) None None) in
  peers A' = peers host_a_folded /\ peers (r_state r) = peers host_b_folded.
Proof.
  assert (Ha : @credentials_ok _ folding_library host_a_folded)
    by (exists "5a"; reflexivity).
  assert (Hb : @credentials_ok _ folding_library host_b_folded)
    by (exists "7b"; reflexivity).
  assert (Hs : _secret host_a_folded <> _secret host_b_folded) by discriminate.
  assert (Hdigest : forall sa sb sig,
             _secret host_a_folded = Some sa -> _secret host_b_folded = Some sb ->
             _signature host_a_folded = Some sig \/ _signature host_b_folded = Some sig ->
             @sha1_hexdigest folding_library (sig ++ sa)%string
             <> @sha1_hexdigest folding_library (sig ++ sb)%string).
  { intros sa sb sig Hsa Hsb [Hsig | Hsig];
      injection Hsa as <-; injection Hsb as <-; injection Hsig as <-;
      vm_compute; discriminate. }
  split; [exact Ha|]. split; [exact Hb|]. split; [exact Hs|].
  split; [vm_compute; reflexivity|]. split; [vm_compute; reflexivity|].
  destruct (@mismatching_secrets _ _ folding_library host_a_folded host_b_folded
              Ha Hb Hs Hdigest) as (_ & Hhand).
  specialize (Hhand quiet_env quiet_env None). cbv zeta in Hhand.
  destruct (exchange_with quiet_env quiet_env host_a_folded host_b_folded _) as [A' r].
  destruct Hhand as (HpA & HpB & _). split; [exact HpA | exact HpB].
Defined.

(** In that exchange [host_b] does send its [pong], stamped with the code
    it derives from the signature of [host_a] and its own secret, and gets
    no [ack]. *)
Example pong_sent_without_ack :
  let '(_, r) := exchange_with quiet_env quiet_env host_a host_b
                   (NetRequest "ping" (hello host_a) None (Some loc_b) None None) in
  sent_to (r_trace r)
  = [(loc_a, NetRequest "pong" (hello host_b) None (Some loc_a) (Some "5abeta") None)]
  /\ r_status r = Break.
Proof. vm_compute. split; reflexivity. Qed.

(** With the secret of [host_a], the same exchange installs each instance
    in the peer table of the other, with the auth code of the other. *)
Example matching_secrets_install :
  let host_b' := example_instance "b" loc_b (Some "alpha") (Some "7b") in
  let '(A', r) := exchange_with quiet_env quiet_env host_a host_b'
                    (NetRequest "ping" (hello host_a) None (Some loc_b) None None) in
  peer_auth <$> peers A' !! key_of loc_b = Some (_auth_code host_b')
  /\ peer_auth <$> peers (r_state r) !! key_of loc_a = Some (_auth_code host_a).
Proof. vm_compute. split; reflexivity. Qed.

(** [req_proc_drains] at the peer with one request in its queue, whose
    connection is refused. *)
Lemma req_proc_drains_witness :
  (forall a, a ∈ reqs example_peer -> is_Some (heap example_store !! a)) /\
  (length (reqs example_peer) < length [refusing; refusing])%nat /\
  exists p' σ' tr,
    req_proc example_peer example_store [refusing; refusing] = Some (p', σ', tr) /\
    reqs p' = [] /\ reqs_pending p' = false /\ events σ' !! 9 = Some true.
Proof.
  assert (Hheap : forall a, a ∈ reqs example_peer -> is_Some (heap example_store !! a)).
  { intros a Ha. apply list_elem_of_singleton in Ha as ->. exists waiting_request. reflexivity. }
  assert (Hlen : (length (reqs example_peer) < length [refusing; refusing])%nat)
    by (simpl; lia).
  split; [exact Hheap|]. split; [exact Hlen|].
  destruct (req_proc_drains [refusing; refusing] example_peer example_store Hheap Hlen)
    as (p' & σ' & tr & Hrun & Hreqs & Hpending & _ & Hset & _).
  exists p', σ', tr. split; [exact Hrun|]. split; [exact Hreqs|]. split; [exact Hpending|].
  apply (Hset 1 waiting_request 9); [apply list_elem_of_here | reflexivity | reflexivity].
Defined.

(** [req_proc_pipelines] at a peer with two requests in its queue,
    which are answered [1] and [2]: one [connect], then the first and
    the second request, each under the auth code of the peer; the first
    gets the reply [1], the second the reply [2]. *)
Lemma req_proc_pipelines_witness :
  reqs busy_peer = [1; 2] /\ peer_auth busy_peer = Some "7balpha" /\
  auth waiting_request = None /\ auth second_request = None /\
  exists p' σ',
    req_proc busy_peer two_store
             [mkProcEnv (Ret ()) (Ret ()) (Ret (VInt 1));
              mkProcEnv (Ret ()) (Ret ()) (Ret (VInt 2))]
    = Some (p', σ',
            [Connect loc_b;
             SendMsg (mkReq "send" {[ "coro" := VInt 7; "message" := VStr "hello" ]} None
                            (Some loc_b) (Some "7balpha") None None VNone (Some 2%Q));
             RecvMsg;
             SendMsg (mkReq "del_file" {[ "file" := VStr "data"; "dest_path" := VStr "sub" ]}
                            None (Some loc_b) (Some "7balpha") None None VNone None);
             RecvMsg]) /\
    reply <$> heap σ' !! 1 = Some (VInt 1) /\
    reply <$> heap σ' !! 2 = Some (VInt 2) /\
    auth <$> heap σ' !! 2 = Some (Some "7balpha") /\
    (fun served => length served.2)
      <$> req_proc busy_peer two_store
                   [mkProcEnv (Ret ()) (Ret ()) (Ret (VInt 1));
                    mkProcEnv (Ret ()) (Ret ()) (Ret (VInt 2))]
    = Some 5%nat.
Proof.
  assert (Hnd : NoDup (reqs busy_peer)) by (apply NoDup_cons_2; [|apply NoDup_singleton];
                                            intros Hin; apply list_elem_of_singleton in Hin;
                                            discriminate).
  assert (Hq : Forall2 (fun a r => heap two_store !! a = Some r)
                       (reqs busy_peer) [waiting_request; second_request])
    by (repeat constructor).
  split; [reflexivity|]. split; [reflexivity|]. split; [reflexivity|].
  split; [reflexivity|].
  destruct (req_proc_pipelines [VInt 1; VInt 2] busy_peer two_store
              [waiting_request; second_request] Hnd Hq eq_refl)
    as (p' & σ' & Hrun & _ & Hreply & _).
  exists p', σ'. split; [exact Hrun|].
  rewrite (Hreply 0%nat 1 waiting_request (VInt 1) eq_refl eq_refl eq_refl).
  rewrite (Hreply 1%nat 2 second_request (VInt 2) eq_refl eq_refl eq_refl).
  split; [reflexivity|]. split; [reflexivity|]. split; [reflexivity|].
  vm_compute. reflexivity.
Defined.

(** [matching_secrets_handshake] at [host_a] and [host_c], which share
    the secret [alpha]. *)
Lemma matching_secrets_handshake_witness :
  credentials_ok host_a /\ credentials_ok host_c /\
  _secret host_a = _secret host_c /\ _location host_a <> _location host_c /\
  let ping := NetRequest "ping" (hello host_a) None (Some loc_b) None None in
  let A' := (exchange_with quiet_env quiet_env host_a host_c ping).1 in
  let r := (exchange_with quiet_env quiet_env host_a host_c ping).2 in
  r_status r = Continue /\
  (exists pB, peers A' !! key_of loc_b = Some pB /\ peer_auth pB = Some "7balpha") /\
  (exists pA, peers (r_state r) !! key_of loc_a = Some pA /\ peer_auth pA = Some "5aalpha").
Proof.
  assert (Ha : credentials_ok host_a) by (exists "5a"; reflexivity).
  assert (Hc : credentials_ok host_c) by (exists "7b"; reflexivity).
  assert (Hl : _location host_a <> _location host_c) by discriminate.
  assert (Hascii : forall sec sig, _secret host_a = Some sec ->
                     _signature host_a = Some sig \/ _signature host_c = Some sig ->
                     is_ascii (sig ++ sec)%string = true).
  { intros sec sig Hsec [Hsig | Hsig]; injection Hsec as <-; injection Hsig as <-;
      reflexivity. }
  split; [exact Ha|]. split; [exact Hc|]. split; [reflexivity|]. split; [exact Hl|].
  destruct (matching_secrets_handshake host_a host_c quiet_env quiet_env None
              Ha Hc eq_refl eq_refl Hl Hascii eq_refl eq_refl eq_refl eq_refl)
    as (Hst & _ & (pB & HpB & _ & HaB) & (pA & HpA & _ & HaA) & _).
  split; [exact Hst|]. split; [exists pB | exists pA]; split; assumption.
Defined.

(** [pending_request_reaches_new_peer] at [host_a] while a coroutine
    waits in [locate], when the [pong] of [host_c] arrives: the request
    goes to [loc_b] under the auth code that [host_a] derives for
    [host_c], and the stored request keeps its own. *)
Lemma pending_request_reaches_new_peer_witness :
  peers host_a_waiting !! key_of loc_b = None /\
  _requests host_a_waiting !! 140231 = Some 1 /\
  heap (store host_a_waiting) !! 1 = Some locate_request /\
  auth locate_request = None /\
  let r := _tcp_task_round delivering_env host_a_waiting (request pong_from_c) in
  r_status r = Continue /\
  (loc_b, mkReq "locate_peer" {[ "name" := VStr "b" ]} (Some loc_a) None (Some "7balpha")
                None (Some 140231) VNone None) ∈ sent_to (r_trace r) /\
  heap (store (r_state r)) !! 1 = Some locate_request.
Proof.
  split; [reflexivity|]. split; [reflexivity|]. split; [reflexivity|].
  split; [reflexivity|].
  destruct (@pending_request_reaches_new_peer _ _ plain_library delivering_env host_a_waiting pong_from_c
              loc_b (Some "7balpha") (VStr "7b") 140231 1 locate_request
              eq_refl eq_refl eq_refl (or_intror eq_refl) eq_refl eq_refl eq_refl
              eq_refl eq_refl eq_refl eq_refl eq_refl (or_introl eq_refl)
              ltac:(discriminate))
    as (Hst & _ & Hsent & Hheap & _).
  split; [exact Hst|]. split; [exact Hsent | exact Hheap].
Defined.

(** [handshake_not_repeated] at [a_paired], which holds [loc_b] already:
    a second [ping] of [loc_b] with the same signature is dropped. *)
Lemma handshake_not_repeated_witness :
  peers a_paired !! key_of loc_b = Some (Peer loc_b (Some "7balpha") None None) /\
  auth_code_for (_secret a_paired) (Some (VStr "7b")) = Some (Some "7balpha") /\
  _tcp_task_round quiet_env a_paired
    (request (NetRequest "ping" (hello host_c) None (Some loc_a) None None))
  = mkResult a_paired [] Break.
Proof.
  split; [reflexivity|]. split; [reflexivity|].
  destruct (@handshake_not_repeated _ _ plain_library quiet_env a_paired loc_b
              (Peer loc_b (Some "7balpha") None None) (Some (VStr "7b"))
              eq_refl eq_refl) as (_ & Hping & _).
  apply Hping; reflexivity.
Defined.

(** [terminate_forgets] at [a_paired], when [loc_b] terminates. *)
Lemma terminate_forgets_witness :
  name terminate_request = "terminate" /\
  auth terminate_request = _auth_code a_paired /\
  is_Some (peers a_paired !! key_of loc_b) /\
  let r := _tcp_task_round quiet_env a_paired (request terminate_request) in
  r_status r = Break /\
  r_trace r = [conn_send_msg (VBytes "ack")] /\
  peers (r_state r) !! key_of loc_b = None /\
  send_req (peers (r_state r)) example_store 1 = Some (-1, peers (r_state r)).
Proof.
  split; [reflexivity|]. split; [reflexivity|]. split; [eexists; reflexivity|].
  destruct (@terminate_forgets _ _ plain_library quiet_env a_paired terminate_request loc_b
              eq_refl eq_refl eq_refl (or_intror eq_refl) eq_refl)
    as (Hst & Htr & Hgone & _ & Hsend).
  split; [exact Hst|]. split; [exact Htr|]. split; [exact Hgone|].
  apply (Hsend example_store 1 waiting_request); reflexivity.
Defined.

(** [interrupted_transfer] at the file [g] of 3 bytes, of which 2
    arrive. *)
Lemma interrupted_transfer_witness :
  let tgt := send_file_target host_a "g" (VStr "../asyncoro2") in
  preflight host_a tgt (VStat (mkStat 33188 3 50 60)) (Some (VBool false)) = Some (VInt 0) /\
  (exists q f, create_target short_env host_a tgt = Some (q, f) /\
               (receive f q 3 0 (recvall short_env)).1 < 3) /\
  let r := _tcp_task_round short_env host_a (request send_outside_request) in
  replies (r_trace r) = [VInt 0; VInt (-1)] /\
  r_status r = Continue /\
  os.isfile (fs (r_state r)) tgt = false.
Proof.
  assert (Hcreate : {qf | create_target short_env host_a
                            (send_file_target host_a "g" (VStr "../asyncoro2"))
                          = Some qf}).
  { eexists. vm_compute. reflexivity. }
  destruct Hcreate as [[q f] Hcreate].
  assert (Hshort : (receive f q 3 0 (recvall short_env)).1 < 3).
  { vm_compute in Hcreate. injection Hcreate as <- <-. vm_compute. reflexivity. }
  split; [vm_compute; reflexivity|].
  split; [exists q, f; split; assumption|].
  destruct (@interrupted_transfer _ _ plain_library short_env host_a send_outside_request
              "g" (VStr "../asyncoro2") (mkStat 33188 3 50 60) q f
              eq_refl eq_refl eq_refl eq_refl eq_refl eq_refl eq_refl
              ltac:(vm_compute; reflexivity) Hcreate eq_refl Hshort)
    as (Hreplies & Hst & Hfile & _).
  split; [exact Hreplies|]. split; [exact Hst | exact Hfile].
Defined.

(** [completed_transfer] at the same file when its 3 bytes arrive. *)
Lemma completed_transfer_witness :
  let tgt := send_file_target host_a "g" (VStr "../asyncoro2") in
  preflight host_a tgt (VStat (mkStat 33188 3 50 60)) (Some (VBool false)) = Some (VInt 0) /\
  (exists q f, create_target payload_env host_a tgt = Some (q, f) /\
               3 <= (receive f q 3 0 (recvall payload_env)).1) /\
  let r := _tcp_task_round payload_env host_a (request send_outside_request) in
  replies (r_trace r) = [VInt 0; VInt 0] /\
  (exists s, os.stat (fs (r_state r)) tgt = Some s /\ st_size s = 3 /\ st_mtime s = 60%Q) /\
  _tcp_task_round quiet_env (r_state r) (request send_outside_request)
  = send_reply quiet_env (r_state r) [] (VInt 1).
Proof.
  assert (Hcreate : {qf | create_target payload_env host_a
                            (send_file_target host_a "g" (VStr "../asyncoro2"))
                          = Some qf}).
  { eexists. vm_compute. reflexivity. }
  destruct Hcreate as [[q f] Hcreate].
  assert (Hall : 3 <= (receive f q 3 0 (recvall payload_env)).1).
  { vm_compute in Hcreate. injection Hcreate as <- <-. vm_compute. discriminate. }
  split; [vm_compute; reflexivity|].
  split; [exists q, f; split; assumption|].
  destruct (@completed_transfer _ _ plain_library payload_env host_a send_outside_request
              "g" (VStr "../asyncoro2") (mkStat 33188 3 50 60) q f
              eq_refl eq_refl eq_refl eq_refl eq_refl eq_refl eq_refl
              ltac:(vm_compute; reflexivity) Hcreate eq_refl ltac:(discriminate) Hall)
    as (Hreplies & _ & (s & Hs & Hsize & Hmtime & _) & Hagain).
  split; [exact Hreplies|].
  split; [exists s; split; [exact Hs|]; split; [exact Hsize | exact Hmtime]|].
  apply Hagain.
Defined.

(** [registered_name_is_held] at the coroutine 7 of [host_a] under the
    name [worker]. *)
Lemma registered_name_is_held_witness :
  VInt 7 <> VNone /\
  (_register_coro host_a (VInt 7) "worker").1 = 0 /\
  let self1 := (_register_coro host_a (VInt 7) "worker").2 in
  _register_coro self1 (VInt 8) "worker" = (-1, self1) /\
  _unregister_coro self1 (VInt 8) "worker" = Some (-1, self1) /\
  exists self2, _unregister_coro self1 (VInt 7) "worker" = Some (0, self2) /\
                (_register_coro self2 (VInt 7) "worker").1 = 0.
Proof.
  assert (Hobj : VInt 7 <> VNone) by discriminate.
  split; [exact Hobj|]. split; [reflexivity|].
  destruct (registered_name_is_held host_a (VInt 7) "worker" Hobj) as (Hcoro & _).
  destruct (Hcoro eq_refl) as (Htaken & Hother & self2 & Hun & _ & Hagain).
  split; [apply Htaken|]. split; [apply Hother; discriminate|].
  exists self2. split; [exact Hun | exact Hagain].
Defined.

(** [registered_coro_is_located] at the same registration. *)
Lemma registered_coro_is_located_witness :
  VInt 7 <> VNone /\
  (_register_coro host_a (VInt 7) "worker").1 = 0 /\
  let self1 := (_register_coro host_a (VInt 7) "worker").2 in
  r_trace (_tcp_task_round quiet_env host_a (request locate_worker_request)) = [] /\
  r_trace (_tcp_task_round quiet_env self1 (request locate_worker_request))
  = [conn_send_msg (VInt 7)].
Proof.
  assert (Hobj : VInt 7 <> VNone) by discriminate.
  split; [exact Hobj|]. split; [reflexivity|].
  destruct (@registered_coro_is_located _ _ plain_library quiet_env host_a (VInt 7) "worker"
              locate_worker_request Hobj eq_refl eq_refl eq_refl eq_refl eq_refl
              (or_introl eq_refl))
    as (Hbefore & Hafter & _).
  split; [exact Hbefore | exact Hafter].
Defined.

(** [sync_reply_outcomes] at [a_asking], whose request asks [c_paired] to
    delete a file that is there: the result is the reply [0] of
    [c_paired]. At [a_asking_unknown], whose request has a verb that
    [c_paired] does not know, [c_paired] sends nothing and goes on
    reading: the coroutine is not resumed. *)
Lemma sync_reply_outcomes_witness :
  heap (store a_asking) !! 1 = Some del_data_request /\
  src del_data_request = None /\ dst del_data_request = Some loc_b /\
  reply del_data_request = VNone /\
  (exists A',
     run (served_by quiet_env c_paired loc_b) (_sync_reply a_asking 1 VNone)
     = (finished (VInt 0) A', [])) /\
  heap (store a_asking_unknown) !! 1 = Some unknown_request /\
  timeout unknown_request = None /\
  (exists A',
     run (served_by quiet_env c_paired loc_b) (_sync_reply a_asking_unknown 1 VNone)
     = (blocked A', [])).
Proof.
  split; [reflexivity|]. split; [reflexivity|]. split; [reflexivity|].
  split; [reflexivity|]. split.
  { destruct (@sync_reply_outcomes _ _ plain_library quiet_env a_asking c_paired 1
                del_data_request loc_b VNone eq_refl eq_refl eq_refl eq_refl)
      as (Hknown & _).
    destruct (Hknown (Peer loc_b (Some "7balpha") None None) eq_refl eq_refl)
      as (Hreply & _).
    apply Hreply. vm_compute. reflexivity. }
  split; [reflexivity|]. split; [reflexivity|].
  destruct (@sync_reply_outcomes _ _ plain_library quiet_env a_asking_unknown c_paired 1
              unknown_request loc_b VNone eq_refl eq_refl eq_refl eq_refl)
    as (Hknown & _).
  destruct (Hknown (Peer loc_b (Some "7balpha") None None) eq_refl eq_refl)
    as (_ & _ & Hwaits).
  apply Hwaits; [vm_compute; reflexivity | vm_compute; reflexivity | reflexivity].
Defined.

(** [rci_locate_at_location] at [a_paired] asking [c_with_rci] for the
    RCI [job], which is registered there, and for [work], which is
    not. *)
Lemma rci_locate_at_location_witness :
  peers a_paired !! key_of (_location c_with_rci)
  = Some (Peer loc_b (Some "7balpha") None None) /\
  _rcis c_with_rci !! "job" = Some (VHandle "rci" "job" loc_b) /\
  _rcis c_with_rci !! "work" = None /\
  (exists A',
     run (served_by quiet_env c_with_rci loc_b)
         (RCI_locate a_paired "job" (Some loc_b) None 77)
     = (finished (VHandle "rci" "job" loc_b) A', [])) /\
  (exists A',
     run (served_by quiet_env c_with_rci loc_b)
         (RCI_locate a_paired "work" (Some loc_b) None 77)
     = (finished VNone A', [])).
Proof.
  split; [reflexivity|]. split; [reflexivity|]. split; [reflexivity|]. split.
  - exact (@rci_locate_at_location _ _ plain_library quiet_env a_paired c_with_rci "job"
             None 77 (Peer loc_b (Some "7balpha") None None)
             eq_refl eq_refl eq_refl eq_refl).
  - exact (@rci_locate_at_location _ _ plain_library quiet_env a_paired c_with_rci "work"
             None 77 (Peer loc_b (Some "7balpha") None None)
             eq_refl eq_refl eq_refl eq_refl).
Defined.

(** [del_file_end_to_end] at [a_paired] deleting [sub/data] at
    [c_paired]. *)
Lemma del_file_end_to_end_witness :
  sender_dest_path (VStr "sub") = Some (VStr "sub") /\
  os.isfile (fs c_paired) "/tmp/asyncoro/sub/data" = true /\
  (exists A',
     run (served_by quiet_env c_paired loc_b)
         (del_file a_paired loc_b "/home/x/data" (VStr "sub") None)
     = (finished (VInt 0) A', [])) /\
  os.isfile
    (fs (r_state (_tcp_task_round quiet_env c_paired
                    (request (NetRequest "del_file"
                                {[ "file" := VStr "data"; "dest_path" := VStr "sub" ]}
                                None (Some loc_b) (Some "7balpha") None)))))
    "/tmp/asyncoro/sub/data" = false.
Proof.
  split; [reflexivity|]. split; [vm_compute; reflexivity|].
  exact (@del_file_end_to_end _ _ plain_library quiet_env a_paired c_paired "/home/x/data"
           (VStr "sub") (VStr "sub") None (Peer loc_b (Some "7balpha") None None)
           eq_refl eq_refl eq_refl eq_refl eq_refl).
Defined.

(** [transfer_end_to_end] at the file [/tmp/f] of [a_paired], sent to
    [c_paired]: [send_file] returns [0] and the file is at
    [/tmp/asyncoro/f] with the 4 bytes that [a_paired] sent. *)
Lemma transfer_end_to_end_witness :
  os.stat (fs a_paired) "/tmp/f" = Some (mkStat 33188 4 100 100) /\
  sender_dest_path VNone = Some VNone /\
  os.isfile (fs c_paired) "/tmp/asyncoro/f" = false /\
  exists out,
    transfer quiet_env a_paired c_paired "/tmp/f" VNone (VBool false) None = Some out /\
    out.1 = VInt 0 /\
    exists x, os.fs_files (fs out.2) !! "/tmp/asyncoro/f" = Some x /\ os.f_data x = "data".
Proof.
  assert (Hcreate : {qf | create_target quiet_env c_paired
                            (send_file_target c_paired (posixpath.basename "/tmp/f") VNone)
                          = Some qf}).
  { eexists. vm_compute. reflexivity. }
  destruct Hcreate as [[q f] Hcreate].
  split; [vm_compute; reflexivity|]. split; [reflexivity|].
  split; [vm_compute; reflexivity|].
  destruct (@transfer_end_to_end _ _ plain_library quiet_env a_paired c_paired "/tmp/f"
              VNone VNone (VBool false) None (mkStat 33188 4 100 100)
              (Peer loc_b (Some "7balpha") None None) q f
              ltac:(vm_compute; reflexivity) ltac:(vm_compute; discriminate)
              ltac:(vm_compute; reflexivity) eq_refl eq_refl eq_refl eq_refl
              ltac:(vm_compute; reflexivity) Hcreate)
    as (out & Hout & Hstatus & fd & x & Hfd & Hq & Hx & Hdata & _).
  exists out. split; [exact Hout|]. split; [exact Hstatus|].
  vm_compute in Hcreate. injection Hcreate as <- <-.
  vm_compute in Hfd. injection Hfd as <-.
  exists x. split; [exact Hx | exact Hdata].
Defined.

(** [locate_finds_peer] at [a_paired] looking for [c]. *)
Lemma locate_finds_peer_witness :
  _name c_paired = "c" /\
  exists A' tr,
    run (answered_by quiet_env quiet_env c_paired) (locate a_paired "c" None 77)
    = (finished (VLoc loc_b) A', tr)
    /\ _requests A' !! 77 = None.
Proof.
  split; [reflexivity|].
  destruct (@locate_finds_peer _ _ plain_library quiet_env quiet_env a_paired c_paired "c"
              None 77 (Peer loc_a (Some "5aalpha") None None)
              (Peer loc_b (Some "7balpha") None None)
              eq_refl ltac:(discriminate) eq_refl eq_refl eq_refl eq_refl)
    as (A' & tr & Hrun & Hpop & _).
  exists A', tr. split; [exact Hrun | exact Hpop].
Defined.

(** [locate_unanswered] at [a_paired] looking for a name that nobody
    has, with a timeout of 3 seconds. *)
Lemma locate_unanswered_witness :
  _name c_paired <> "zz" /\ _requests a_paired !! 77 = None /\
  exists A' tr,
    run (answered_by quiet_env quiet_env c_paired) (locate a_paired "zz" (Some 3%Q) 77)
    = (finished VNone A', tr)
    /\ _requests A' = _requests a_paired.
Proof.
  split; [discriminate|]. split; [reflexivity|].
  destruct (@locate_unanswered _ _ plain_library quiet_env quiet_env a_paired c_paired "zz"
              (Some 3%Q) 77 ltac:(discriminate) ltac:(discriminate) eq_refl)
    as (A' & tr & Hrun & _ & Hreqs).
  exists A', tr. split; [exact Hrun | exact Hreqs].
Defined.

(** [peer_stream_send] at [a_paired], which asks for a stream to the
    port of [loc_b]. *)
Lemma peer_stream_send_witness :
  gethostbyname resolving_env "node-b" = Some "10.0.0.2" /\
  let self' := (peer a_paired "node-b" 0 5002 true resolving_env).1.2 in
  stream <$> peers self' !! key_of loc_b = Some true.
Proof.
  split; [reflexivity|].
  destruct (peer_stream_send a_paired "node-b" "10.0.0.2" 0 5002 true
              resolving_env eq_refl) as (Hflag & _).
  cbv zeta. rewrite (Hflag (key_of loc_b) (Peer loc_b (Some "7balpha") None None) eq_refl).
  reflexivity.
Defined.

(** [udp_round_sends_ping] at the datagram of [host_c] arriving at
    [host_a]: the ping goes to [loc_b], the location in the datagram,
    under the auth code derived from the signature [7b]. *)
Lemma udp_round_sends_ping_witness :
  ping_info host_c !! "location" = Some (VLoc loc_b) /\
  ping_info host_c !! "signature" = Some (VStr "7b") /\
  let m := mkReq "ping"
                 {[ "peer" := VLoc loc_a; "signature" := VStr "5a"; "version" := VStr "3.0" ]}
                 None (Some loc_b) (Some "7balpha") None None VNone None in
  sent_to (_udp_proc_round delivering_env host_a (ping_datagram (Some (ping_info host_c))))
  = [(loc_b, m)] /\
  exists (info : gmap string value) code,
    ping_datagram (Some (ping_info host_c)) = ping_datagram (Some info) /\
    info !! "location" = Some (VLoc loc_b) /\
    auth_code_for (_secret host_a) (info !! "signature") = Some code /\
    auth m = code.
Proof.
  split; [reflexivity|]. split; [reflexivity|].
  assert (Hsent : sent_to (_udp_proc_round delivering_env host_a
                             (ping_datagram (Some (ping_info host_c))))
                  = [(loc_b, mkReq "ping"
                               {[ "peer" := VLoc loc_a; "signature" := VStr "5a";
                                  "version" := VStr "3.0" ]}
                               None (Some loc_b) (Some "7balpha") None None VNone None)])
    by (vm_compute; reflexivity).
  split; [exact Hsent|].
  destruct (@udp_round_sends_ping _ plain_library delivering_env host_a
              (ping_datagram (Some (ping_info host_c))) loc_b
              (mkReq "ping"
                     {[ "peer" := VLoc loc_a; "signature" := VStr "5a";
                        "version" := VStr "3.0" ]}
                     None (Some loc_b) (Some "7balpha") None None VNone None))
    as (info & code & Hmsg & Hloc & _ & _ & Hcode & Hm).
  { rewrite Hsent. apply list_elem_of_here. }
  exists info, code. split; [exact Hmsg|]. split; [exact Hloc|]. split; [exact Hcode|].
  injection Hm as Hauth. exact Hauth.
Defined.

(** [peer_sends_ping] at [host_a] contacting [loc_b] over TCP. *)
Lemma peer_sends_ping_witness :
  exists m,
    (loc_b, m) ∈ sent_to (peer host_a "node-b" 0 5002 false resolving_env).2 /\
    m = NetRequest "ping" (hello host_a) None (Some loc_b) None None.
Proof.
  assert (Hin : (loc_b, NetRequest "ping" (hello host_a) None (Some loc_b) None None)
                ∈ sent_to (peer host_a "node-b" 0 5002 false resolving_env).2)
    by (vm_compute; apply list_elem_of_here).
  eexists. split; [exact Hin|].
  exact (peer_sends_ping host_a "node-b" 0 5002 false resolving_env
           _ _ Hin).
Defined.
